(* ===== verification/_CoqProject ===== *)
-Q . S2P
Prelude.v
Regs.v
State.v
Mmap.v
Lifecycle.v
Bus.v
Bytes.v
Interleave.v
Render.v
Pixel.v
Tick.v
Frame.v
Screen.v
SpriteEval.v
System.v
Fetch.v
Scroll.v
