(* ===== verification/Prelude.v ===== *)
(** * A verification development of the PPU core of the Alphanes NES emulator

    The program is [src/ppu.cpp]: the Picture Processing Unit of an NES
    emulator, a beat-driven state machine with eight CPU-visible registers.

    ** The program's parts and how they interact

    - Register file.  The PPU keeps its CPU registers packed in one 32-bit
      word ([reg]: sysctrl, dispctrl, status, OAMaddr) and its two loopy
      address latches ([scroll], [vaddr]) as packed words with overlapping
      bit fields (fine/coarse X and Y, nametable bits, raw 16-bit address).
      These layouts live in a header that is not under [src/]; they are
      modelled from the spec (RegBit accessors) in [Regs.v].
    - Video memory view ([Ppu::mmap], lines 67-74): a 14-bit address space
      routed to CHR banks, four nametable slots or the 32-byte palette, each a
      reference into storage shared with the cartridge.  [Mmap.v] models it
      as a location resolver over an explicit shared store, so aliasing
      (nametable mirroring, palette mirrors) is visible.
    - Register interface ([Ppu::Read], [Ppu::Write], lines 77-149): [Bus.v].
    - Background and sprite pipeline ([Ppu::rendering_tick], lines 153-252):
      [Render.v], one definition per beat phase, and the tile interleave of
      phase 7 in [Interleave.v]; the sprite evaluation that the beats of a
      line perform together in [SpriteEval.v], and the sprite fetch of
      columns 256..319 that follows it in [Fetch.v]; the scroll registers'
      course over a line in [Scroll.v].
    - Pixel compositor ([Ppu::render_pixel], lines 254-308): [Pixel.v].
    - Beat driver ([Ppu::TickNTSC], [Ppu::TickPAL], [Ppu::Tick], lines
      337-479): [Tick.v]; it runs the pipeline and the compositor on the
      rendered lines, and the VBlank countdown that the status read of
      [Bus.v] can cancel.  Its frame-level behaviour is in [Frame.v] (the
      raster) and [Screen.v] (the frame buffer).
    - Lifecycle ([Initialize], [Power], [Reset], lines 18-65): [Lifecycle.v].
    - The emulator loop, outside [src/], calls [Tick], [Read], [Write] and
      [Reset] in any order: [System.v].

    The whole PPU object together with the collaborator state it writes
    through its [nes_] back-pointer (cartridge memory, the CPU's NMI line, the
    frame buffer, the callbacks it fires) is the record [State.Ppu].  Every
    operation is a Rocq function [Ppu -> Ppu] (or [Ppu -> Z * Ppu] for a
    register read), written as explicit state passing in the order of the
    C++ statements.

    ** Conventions

    Integers are [Z] at the width of their C++ type; wrap-around is written
    out with [trunc w] ([z mod 2^w]).  Arrays are [gmap Z _] read with
    [!!!] (absent entries read as 0, the value of a zeroed object).  This
    file holds the notations of [ppu_scope], the bit-level tactic [zbits],
    the hint databases and the generic integer lemmas the components share.

    ** Files and what their theorems show

    - [Regs.v]: RegBit get/set laws (a field reads back what was written,
      disjoint fields are independent), proved once for any [BitLayout].
    - [State.v]: the object as records; field read-after-update lemmas.
    - [Mmap.v]: address routing; palette aliasing characterised exactly
      (C3), every address in bounds for well-formed mapper tables (C4).
    - [Lifecycle.v]: [Initialize], [Power], [Reset], [memset], [memcpy].
    - [Bus.v]: every port of [Read] and [Write] (C1, C2, C5-C10).
    - [Interleave.v]: the swap-mask interleave equals a bit-by-bit reference,
      its pixels and its inverse (C11-C13), by exhaustive computation over
      the 2^16 byte pairs.
    - [Render.v]: the sprite counters' invariant preserved by every pipeline
      beat (C14), the tile window (C15), the scroll increments,
      the sprite row address (C18), and the missing [sprrenpos] reset with
      the background off (C19, C20); what a pipeline beat does to the beat
      counter and to the open-bus latch.
    - [Pixel.v]: the sprite loop refines the contract "first opaque sprite
      decides" (C21), colour bounds (C22), the sprite-0 hit rule (C23), the
      frame-buffer slot (C24), the edge window (C25).
    - [Bytes.v]: byte typing of the [uint8_t] arrays and latches kept by
      every register access (C33), and the [OAM[256]] bounds (C35); the
      wrong-direction accesses of [Bus.v] (C34).
    - [Tick.v]: a beat's counters are those of the machine [timing_step]
      driven by one bit from the pipeline; the counter invariant (C26); the
      refinement of the beat driver by the frame raster (C27); open-bus
      decay over any number of beats (C28); the VBlank/NMI sequence (C29)
      and its race with a status read (C30).
    - [Frame.v]: a frame lasts exactly 262*341 (NTSC) or 312*341 (PAL)
      beats, one fewer when the pre-render line is shortened (C31), by a
      generic lemma on raster sequences; beats per [Tick] call (C32).
    - [Screen.v]: a beat writes the frame-buffer slot of its position when
      that position is on screen and nothing else; hence the beats never
      write outside the 256x240 screen and the first 241 lines of a frame
      write all of its 61440 slots (C37).
    - [SpriteEval.v]: sprite evaluation across the beats of a line.  The
      second switch of [rendering_tick] seen on its state ([eval_view]:
      [OAMaddr], [sprinpos], [sproutpos], [sprtmp], [OAM2], [SPoverflow]) is
      the machine [eval_beat]; every beat of columns 1..255 refines one of
      its steps and column 0 resets it.  The walk costs one beat pair per
      sprite off the line and four per sprite on it, so the 96 pairs of
      columns 64..255 always reach the ninth covering sprite.  Result: the
      first eight sprites covering the scanline land in [OAM2], in OAM
      order, and [SPoverflow] is raised exactly when there is a ninth (C38).
    - [System.v]: the emulator loop's operations on the object (beat, read,
      write, reset) as a step function and a reachability relation; all the
      component invariants hold together on every reachable object, by rule
      induction (C36).
    - [Fetch.v]: the sprite fetch.  On columns 256..319 the first switch
      of [rendering_tick] seen on [fview] ([sprrenpos], [OAM3], [pat_addr],
      [tilepat]) is the step [fetch_step]; a run of beats is the inductive
      relation [fetch_run], whose free parameter is the address [case 1]
      computes and [case 3] overwrites.  Every group of eight beats copies
      one selected sprite into [OAM3] with its interleaved pattern row, so
      the 64 beats copy all [sproutpos] of them (C39).  With the background
      hidden the run starts from the stale [sprrenpos] of the previous
      line ([sprite_fetch_no_bg]).  Composed with [SpriteEval.v]: the 320
      beats of columns 0..319 leave in [OAM3] the first eight sprites of the
      line, each with its own pattern row, and [sprrenpos] counts them
      (C40).
    - [Scroll.v]: the loopy scroll machine.  The five [vaddr] fields that
      case 0 and case 3 of [rendering_tick] touch form [Loopy]; [lincr_x],
      [lincr_y] and [lcopy] are the coarse-X increment, the fine/coarse-Y
      increment of column 251 and the horizontal copy of column 256, and
      [lstep]/[lrun] the beat and the run of a line.  Each beat of a
      visible rendered line refines [lstep] on the view [lview] and keeps
      the scroll latch and the display flags ([beat_scroll]); by induction
      the 341 beats of a line refine [lrun] ([scroll_run]), whose closed
      form is computed once ([lrun_line]).  With the background shown the
      line leaves coarse X at the latch's plus two and fine Y carried into
      coarse Y (C16); with only sprites shown the copy is skipped and
      coarse X drifts by two tiles per line (C17).

    ** Bounds and fuel

    There is no fuel: every loop of the source is bounded by a constant
    ([for i<3] or [tick_count] beats, the sprite loop over at most
    [sprrenpos] entries) and is a [Nat.iter] or a structural recursion on a
    list.  The exhaustive lemmas range over 256 values (a byte), 341 beats
    (a line) or 65536 byte pairs, the full domain of the code they check.
    The line-level theorems run the beats of a fixed window of columns
    (256 for evaluation, 64 for the fetch), the number the source's
    [x % 8] and [x >= 64 && x < 256] dispatch gives those stages.

    ** Not modelled

    The collaborators outside [src/]: the CPU (only its [nmi] line and cycle
    counter), the mapper (its [PpuTick] hook is a counter; its CHR and
    nametable tables are offsets into the cartridge store), the host
    conversion [IO::PutPixel] (the interface [Pixel.PixelOut]), and what the
    [on_render]/[on_vertical_blank] callbacks do (they are logged as
    events).  [OnSettingsChanged] has an empty body.  Integer counters that
    only grow ([cycles], [mapper_ticks]) are unbounded [Z]; their 32/64-bit
    wrap-around after years of emulation is not modelled.
*)

From Stdlib Require Export ZArith Lia Btauto.
From stdpp Require Export base gmap.

Declare Scope ppu_scope.
Delimit Scope ppu_scope with ppu.

Open Scope Z_scope.

(** C++ operators on unsigned integers, as used by the source. *)
Infix ".&" := Z.land (at level 40, left associativity) : ppu_scope.
Infix ".|" := Z.lor (at level 50, left associativity) : ppu_scope.
Infix ">>" := Z.shiftr (at level 35) : ppu_scope.
Infix "<<" := Z.shiftl (at level 35) : ppu_scope.

Open Scope ppu_scope.

(** Truncation of a value to an unsigned [w]-bit C++ type. *)
Definition trunc (w z : Z) : Z := z mod 2 ^ w.

Abbreviation u8 := (trunc 8).
Abbreviation u16 := (trunc 16).
Abbreviation u32 := (trunc 32).

(** ** Bit-level reasoning *)

(** A mask [2^n - 1] keeps the low [n] bits. *)
Lemma land_mask_mod z n c : 0 <= n -> c = 2 ^ n - 1 -> z .& c = z mod 2 ^ n.
Proof. intros ? ->. rewrite <- Z.land_ones by lia. f_equal. rewrite Z.ones_equiv. lia. Qed.

(** Rewrite every [z .& c] with a constant low-bit mask [c] into [z mod 2^n]. *)
Ltac mask_to_mod :=
  repeat match goal with
  | |- context [Z.land ?z ?c] =>
      let n := eval vm_compute in (Z.log2 (c + 1)) in
      rewrite (land_mask_mod z n c) by (lia || reflexivity)
  end.


Create Rewrite HintDb ppu_bits.
#[export] Hint Rewrite Z.land_spec Z.lor_spec Z.ldiff_spec Z.lxor_spec : ppu_bits.
#[export] Hint Rewrite Z.shiftr_spec using lia : ppu_bits.
#[export] Hint Rewrite Z.testbit_ones using lia : ppu_bits.
#[export] Hint Rewrite Z.shiftl_spec using lia : ppu_bits.
#[export] Hint Rewrite Z.testbit_neg_r using lia : ppu_bits.
#[export] Hint Rewrite Z.testbit_mod_pow2 using lia : ppu_bits.

Ltac split_cmp :=
  repeat match goal with
  | |- context [?a <? ?b] => destruct (Z.ltb_spec a b); try (exfalso; lia)
  | |- context [?a <=? ?b] => destruct (Z.leb_spec a b); try (exfalso; lia)
  end.

(** Identify [Z.testbit a j] and [Z.testbit a k] when [j = k] holds
    arithmetically, so that [btauto] sees one atom. *)
Ltac unify_index :=
  repeat match goal with
  | |- context [Z.testbit ?a ?j] =>
      match goal with
      | |- context [Z.testbit a ?k] =>
          assert_fails (constr_eq j k);
          replace (Z.testbit a k) with (Z.testbit a j) by (f_equal; lia)
      end
  end.

(** Evaluate [Z.testbit c k] for numerals [c] and [k]. *)
Ltac eval_const_bits :=
  repeat match goal with
  | |- context [Z.testbit ?c ?k] =>
      assert_succeeds (let c' := eval hnf in c in constr_eq c c');
      assert_succeeds (let k' := eval hnf in k in constr_eq k k');
      match c with Z.pos _ => idtac | Z.neg _ => idtac | Z0 => idtac end;
      match k with Z.pos _ => idtac | Z0 => idtac end;
      let b := eval vm_compute in (Z.testbit c k) in
      change (Z.testbit c k) with b
  end.

(** Prove a fact about the bits of integers: rewrite every [Z.testbit]
    of an operation into the bits of its operands. *)
Ltac neg_bits :=
  repeat match goal with
  | |- context [Z.testbit ?a ?j] => rewrite (Z.testbit_neg_r a j) by lia
  end.

(** [Z.testbit c j] for a numeral [c] and a symbolic index [j]: false
    above the top bit of [c]; below it, one case per index value. *)
Ltac const_bit_above c j :=
  let k := eval vm_compute in (Z.log2 c) in
  rewrite (Z.bits_above_log2 c j) by (change (Z.log2 c) with k; lia).

Ltac enum_index j hi :=
  let rec go n :=
    lazymatch eval vm_compute in (n <? hi) with
    | true =>
        let E := fresh "E" in
        let n' := eval vm_compute in (Z.succ n) in
        destruct (Z.eq_dec j n) as [E|E]; [rewrite E | go n']
    | false => exfalso; lia
    end in
  go 0.

Ltac const_bits_var :=
  repeat match goal with
  | |- context [Z.testbit ?c ?j] =>
      match c with Z.pos _ => idtac | Z0 => idtac end;
      assert_fails (let j' := eval hnf in j in constr_eq j j';
                    match j with Z.pos _ => idtac | Z0 => idtac end);
      first [ const_bit_above c j
            | let k := eval vm_compute in (Z.log2 c + 1) in
              destruct (Z.lt_ge_cases j k); [enum_index j k | const_bit_above c j] ];
      eval_const_bits
  end.

Ltac bits_step := repeat (progress (autorewrite with ppu_bits; split_cmp)); neg_bits; eval_const_bits.

Ltac bits_simpl := bits_step; const_bits_var; bits_step; unify_index.

(** Prove an equation of integers bit by bit. *)
Ltac zbits :=
  mask_to_mod; apply Z.bits_inj'; intros ?i ?Hi; bits_simpl; try btauto.

(** Linear arithmetic with [mod] and [/] by constants: name the quotients
    and remainders first, which [lia] alone does not always find. *)
Ltac zmod_lia := Z.div_mod_to_equations; lia.

(** ** Hint database of the development *)

Create HintDb ppu.
Create Rewrite HintDb ppu_mem.

(** ** Generic lemmas on truncated integers *)

Lemma trunc_range w z : 0 <= w -> 0 <= trunc w z < 2 ^ w.
Proof. intros. unfold trunc. apply Z.mod_pos_bound. lia. Qed.

Lemma trunc_small w z : 0 <= z < 2 ^ w -> trunc w z = z.
Proof. intros. unfold trunc. apply Z.mod_small. lia. Qed.

Lemma land_ones_range z n : 0 <= n -> 0 <= z .& Z.ones n < 2 ^ n.
Proof. intros. rewrite Z.land_ones by lia. apply Z.mod_pos_bound. lia. Qed.

#[export] Hint Resolve trunc_range trunc_small land_ones_range : ppu.

(** ** Finite ranges checked by computation *)

(** The integers [0 .. n-1]. *)
Definition zseq (n : nat) : list Z := map Z.of_nat (seq 0 n).

Lemma forallb_zseq (f : Z -> bool) n :
  forallb f (zseq n) = true -> forall z, 0 <= z < Z.of_nat n -> f z = true.
Proof.
  unfold zseq. intros H z Hz. rewrite forallb_forall in H. apply H.
  apply in_map_iff. exists (Z.to_nat z). split; [lia|]. apply in_seq. lia.
Qed.

(** ** Maps whose keys stay in [0, n) *)

Definition keys_below {A} (m : gmap Z A) (n : Z) : Prop :=
  forall j, is_Some (m !! j) -> 0 <= j < n.

Lemma keys_below_insert {A} (m : gmap Z A) n k v :
  keys_below m n -> 0 <= k < n -> keys_below (<[k := v]> m) n.
Proof.
  intros Hm Hk j Hj. rewrite lookup_insert in Hj. case_decide; subst; [lia | auto].
Qed.

Lemma keys_below_empty {A} n : keys_below (∅ : gmap Z A) n.
Proof. intros j [v Hv]. rewrite lookup_empty in Hv. discriminate. Qed.

#[export] Hint Resolve keys_below_insert keys_below_empty : ppu.

(** Case analysis on every [if] of the goal, with the comparison it tests
    turned into a proposition. *)
Ltac destruct_ifs :=
  repeat match goal with
  | |- context [if ?a <? ?b then _ else _] => destruct (Z.ltb_spec a b)
  | |- context [if ?a <=? ?b then _ else _] => destruct (Z.leb_spec a b)
  | |- context [if ?a =? ?b then _ else _] => destruct (Z.eqb_spec a b)
  | |- context [if ?b then _ else _] => destruct b eqn:?
  end.
