(* ===== verification/Regs.v ===== *)
(** Packed register words of the PPU.

    The source overlays named bit fields ([RegBit<bitno, nbits>]) on one
    backing integer: [reg] (the four CPU registers sysctrl, dispctrl,
    status and OAMaddr in one 32-bit word) and [scroll]/[vaddr] (the loopy
    address latches).  The header declaring these unions is not under
    [src/]; the layouts below follow the spec (section 3, "Register bank"
    and "Address latches") and the NES register map.  A field is read as
    [(v >> bitno) & mask] and written by clearing its bits and or-ing the
    masked value in: [RegBit::operator unsigned] and [RegBit::operator=].

    The class [BitLayout] is the interface every packed word offers; the
    get/set laws are proved once for every layout that satisfies
    [LayoutWf]. *)

From S2P Require Import Prelude.

(** ** RegBit *)

Definition regbit_get (bitno nbits v : Z) : Z := (v >> bitno) .& Z.ones nbits.

Definition regbit_set (bitno nbits x v : Z) : Z :=
  Z.ldiff v (Z.ones nbits << bitno) .| ((x .& Z.ones nbits) << bitno).

(** ** Layouts *)

Class BitLayout (F : Type) := layout : F -> Z * Z.

Class LayoutWf (F : Type) `{BitLayout F} := layout_wf :
  forall f, 0 <= fst (layout f) /\ 0 < snd (layout f) /\ fst (layout f) + snd (layout f) <= 32.

Definition fget {F} `{BitLayout F} (f : F) (v : Z) : Z :=
  regbit_get (fst (layout f)) (snd (layout f)) v.
Definition fset {F} `{BitLayout F} (f : F) (x v : Z) : Z :=
  regbit_set (fst (layout f)) (snd (layout f)) x v.

Notation "v '.[' f ']'" := (fget f v) (at level 1, left associativity, format "v .[ f ]") : ppu_scope.
Notation "v '.[' f ':=' x ']'" := (fset f x v) (at level 1, left associativity, format "v .[ f  :=  x ]") : ppu_scope.

(** [f] and [g] occupy disjoint bit ranges. *)
Definition disjoint {F G} `{BitLayout F} `{BitLayout G} (f : F) (g : G) : bool :=
  (fst (layout f) + snd (layout f) <=? fst (layout g)) ||
  (fst (layout g) + snd (layout g) <=? fst (layout f)).

(** The bits of [f] are among the bits of [g]. *)
Definition inside {F G} `{BitLayout F} `{BitLayout G} (f : F) (g : G) : bool :=
  (fst (layout g) <=? fst (layout f)) &&
  (fst (layout f) + snd (layout f) <=? fst (layout g) + snd (layout g)).

(** *** [reg]: sysctrl (bits 0-7), dispctrl (8-15), status (16-23), OAMaddr (24-31). *)

Inductive regfield :=
  | sysctrl | dispctrl | status
  | BaseNTA | Inc | SPaddr | BGaddr | SPsize | SlaveFlag | NMIenabled
  | Grayscale | ShowBG8 | ShowSP8 | ShowBG | ShowSP | ShowBGSP | EmpRGB
  | SPoverflow | SP0hit | InVBlank
  | OAMaddr | OAMdata | OAMindex.

Definition regfield_pos (f : regfield) : Z * Z :=
  match f with
  | sysctrl => (0, 8)   | dispctrl => (8, 8)   | status => (16, 8)
  | BaseNTA => (0, 2)   | Inc => (2, 1)        | SPaddr => (3, 1)
  | BGaddr => (4, 1)    | SPsize => (5, 1)     | SlaveFlag => (6, 1)
  | NMIenabled => (7, 1)
  | Grayscale => (8, 1) | ShowBG8 => (9, 1)    | ShowSP8 => (10, 1)
  | ShowBG => (11, 1)   | ShowSP => (12, 1)    | ShowBGSP => (11, 2)
  | EmpRGB => (13, 3)
  | SPoverflow => (21, 1) | SP0hit => (22, 1)  | InVBlank => (23, 1)
  | OAMaddr => (24, 8)  | OAMdata => (24, 2)   | OAMindex => (26, 6)
  end.

(** *** [scroll] and [vaddr]: xfine (bits 0-2) and the raw 16-bit address
    (bits 3-18) holding coarse X, coarse Y, the nametable bits and fine Y. *)

Inductive scrollfield :=
  | raw | xscroll | xfine | xcoarse | ycoarse
  | basenta | basenta_h | basenta_v | yfine | vaddrhi | vaddrlo.

Definition scrollfield_pos (f : scrollfield) : Z * Z :=
  match f with
  | raw => (3, 16)      | xscroll => (0, 8)    | xfine => (0, 3)
  | xcoarse => (3, 5)   | ycoarse => (8, 5)    | basenta => (13, 2)
  | basenta_h => (13, 1) | basenta_v => (14, 1) | yfine => (15, 3)
  | vaddrhi => (11, 8)  | vaddrlo => (3, 8)
  end.

#[export] Instance regfield_layout : BitLayout regfield := regfield_pos.
#[export] Instance scrollfield_layout : BitLayout scrollfield := scrollfield_pos.

#[export] Instance regfield_eq_dec : EqDecision regfield.
Proof. solve_decision. Defined.
#[export] Instance scrollfield_eq_dec : EqDecision scrollfield.
Proof. solve_decision. Defined.

#[export] Instance regfield_wf : LayoutWf regfield.
Proof. intros f; destruct f; simpl; lia. Qed.
#[export] Instance scrollfield_wf : LayoutWf scrollfield.
Proof. intros f; destruct f; simpl; lia. Qed.

(** ** Laws of RegBit *)

Section RegBitLaws.
Context {F G : Type} `{LayoutWf F} `{LayoutWf G}.

Lemma fget_range (f : F) v : 0 <= v.[f] < 2 ^ snd (layout f).
Proof. destruct (layout_wf f). unfold fget, regbit_get. apply land_ones_range. lia. Qed.

Lemma fget_fset_same (f : F) x v : v.[f := x].[f] = x .& Z.ones (snd (layout f)).
Proof. destruct (layout_wf f). unfold fget, fset, regbit_get, regbit_set. zbits. Qed.

Lemma fget_fset_small (f : F) x v :
  0 <= x < 2 ^ snd (layout f) -> v.[f := x].[f] = x.
Proof.
  intros. destruct (layout_wf f). rewrite fget_fset_same, Z.land_ones by lia.
  apply Z.mod_small; lia.
Qed.

Lemma fget_fset_disjoint (f : F) (g : G) x v :
  disjoint f g = true -> v.[g := x].[f] = v.[f].
Proof.
  unfold disjoint. intros Hd. apply orb_true_iff in Hd. rewrite !Z.leb_le in Hd.
  destruct (layout_wf f), (layout_wf g).
  unfold fget, fset, regbit_get, regbit_set. zbits.
Qed.

Lemma fget_fset_inside (f : F) (g : G) x v :
  inside f g = true ->
  v.[g := x].[f] = regbit_get (fst (layout f) - fst (layout g)) (snd (layout f)) x.
Proof.
  unfold inside. intros Hd. apply andb_true_iff in Hd. rewrite !Z.leb_le in Hd.
  destruct (layout_wf f), (layout_wf g).
  unfold fget, fset, regbit_get, regbit_set. zbits.
Qed.

Lemma fget_fset_outside (f : F) (g : G) x v :
  inside g f = true ->
  v.[g := x].[f] =
  regbit_set (fst (layout g) - fst (layout f)) (snd (layout g)) x v.[f].
Proof.
  unfold inside. intros Hd. apply andb_true_iff in Hd. rewrite !Z.leb_le in Hd.
  destruct (layout_wf f), (layout_wf g).
  unfold fget, fset, regbit_get, regbit_set. zbits.
Qed.

(** A write keeps a 32-bit backing word within 32 bits. *)
Lemma fset_range (f : F) x v : 0 <= v < 2 ^ 32 -> 0 <= v.[f := x] < 2 ^ 32.
Proof.
  intros Hv. destruct (layout_wf f).
  rewrite <- (Z.mod_small v (2 ^ 32)) by lia.
  enough (E : (v mod 2 ^ 32).[f := x] = (v mod 2 ^ 32).[f := x] mod 2 ^ 32)
    by (rewrite E; apply Z.mod_pos_bound; lia).
  unfold fset, regbit_set. zbits.
Qed.
End RegBitLaws.

(** Unfold every field access down to shifts and masks of the backing word. *)
Ltac unfold_fields :=
  unfold fget, fset, regbit_get, regbit_set in *;
  cbn [fst snd layout regfield_layout regfield_pos scrollfield_layout scrollfield_pos] in *.

Create Rewrite HintDb regbits.
#[export] Hint Rewrite @fget_fset_same : regbits.
#[export] Hint Rewrite @fget_fset_disjoint using reflexivity : regbits.
#[export] Hint Rewrite @fget_fset_inside using reflexivity : regbits.
#[export] Hint Resolve fget_range fset_range : ppu.
