(* ===== verification/State.v ===== *)
(** The state of the PPU object ([class Ppu] of [src/ppu.cpp]) and of the
    collaborator state it reaches through its back-pointer [nes_].

    The members are grouped by the sub-unit that owns them (beat counter,
    register latches, memories, sprite evaluation, background pipeline) so
    that an update names only the group it touches; the grouping is a
    presentation choice, every C++ member is a field of exactly one group.
    The collaborator record [Nes] holds what the PPU writes outside itself:
    the cartridge memory its [mmap] references point into, the CPU's [nmi]
    line and cycle counter, the frame buffer, the callbacks it fires (as an
    event log) and the number of mapper [PpuTick] calls. *)

From S2P Require Import Prelude Regs.

(** [mode_], the index into [tick_array]. *)
Inductive Mode := NTSC | PAL.

#[export] Instance mode_eq_dec : EqDecision Mode.
Proof. solve_decision. Defined.

(** An entry of [OAM2]/[OAM3]: the sprite's primary index, its four OAM
    bytes and its interleaved 16-bit pattern. *)
Module Oam.
Record t := mk { sprindex : Z; y : Z; index : Z; attr : Z; x : Z; pattern : Z }.
Definition zero : t := mk 0 0 0 0 0 0.
Definition set_sprindex v (o : t) := mk v o.(y) o.(index) o.(attr) o.(x) o.(pattern).
Definition set_y v (o : t) := mk o.(sprindex) v o.(index) o.(attr) o.(x) o.(pattern).
Definition set_index v (o : t) := mk o.(sprindex) o.(y) v o.(attr) o.(x) o.(pattern).
Definition set_attr v (o : t) := mk o.(sprindex) o.(y) o.(index) v o.(x) o.(pattern).
Definition set_x v (o : t) := mk o.(sprindex) o.(y) o.(index) o.(attr) v o.(pattern).
Definition set_pattern v (o : t) := mk o.(sprindex) o.(y) o.(index) o.(attr) o.(x) v.
End Oam.

#[export] Instance oam_inhabited : Inhabited Oam.t := populate Oam.zero.

(** Callbacks the PPU fires on the emulator object. *)
Inductive Event := OnRender | OnVerticalBlank.

#[export] Instance event_eq_dec : EqDecision Event.
Proof. solve_decision. Defined.

(** Cartridge memory ([nes_->gamepak()]): CHR storage and the 4 KiB of
    nametable RAM, and the mapper-owned pointer tables [chr_banks[8]] and
    [Nta[4]], modelled as offsets into that storage.  Two slots with the
    same offset alias the same bytes (mirroring). *)
Record Cart := mkCart {
  chr : gmap Z Z;
  NRAM : gmap Z Z;
  chr_banks : Z -> Z;
  Nta : Z -> Z
}.

Record Nes := mkNes {
  gamepak : Cart;
  nmi : bool;              (** [nes_->cpu().nmi] *)
  cpu_cycles : Z;          (** [nes_->cpu().cycles] *)
  frame_buffer : gmap Z Z; (** [nes_->frame_buffer] *)
  events : list Event;     (** [on_render] / [on_vertical_blank] calls, newest first *)
  mapper_ticks : Z         (** calls of [mapper->PpuTick()] *)
}.

(** Beat counter and frame timing. *)
Record Timing := mkTiming {
  scanline : Z; x : Z; scanline_end : Z; VBlankState : Z;
  cycle_counter : Z; even_odd_toggle : bool; cycles : Z
}.

(** CPU-visible registers, address latches and the open-bus latch. *)
Record Latches := mkLatches {
  reg : Z; scroll : Z; vaddr : Z; offset_toggle_ : bool;
  read_buffer : Z; open_bus_ : Z; open_bus_decay_timer : Z
}.

(** [palette[32]], [OAM[256]], [OAM2[8]], [OAM3[8]]. *)
Record Mem := mkMem {
  palette : gmap Z Z; OAM : gmap Z Z; OAM2 : gmap Z Oam.t; OAM3 : gmap Z Oam.t
}.

Record SprEval := mkSprEval { sprinpos : Z; sproutpos : Z; sprrenpos : Z; sprtmp : Z }.

Record BgPipe := mkBgPipe {
  pat_addr : Z; ioaddr : Z; tilepat : Z; tileattr : Z; bg_shift_pat : Z; bg_shift_attr : Z
}.

Record Ppu := mkPpu {
  mode_ : Mode; tm : Timing; lt : Latches; mm : Mem; sp : SprEval; bg : BgPipe; nes_ : Nes
}.

(** ** Setters *)

Definition set_scanline v (t : Timing) := mkTiming v t.(x) t.(scanline_end) t.(VBlankState) t.(cycle_counter) t.(even_odd_toggle) t.(cycles).
Definition set_x v (t : Timing) := mkTiming t.(scanline) v t.(scanline_end) t.(VBlankState) t.(cycle_counter) t.(even_odd_toggle) t.(cycles).
Definition set_scanline_end v (t : Timing) := mkTiming t.(scanline) t.(x) v t.(VBlankState) t.(cycle_counter) t.(even_odd_toggle) t.(cycles).
Definition set_VBlankState v (t : Timing) := mkTiming t.(scanline) t.(x) t.(scanline_end) v t.(cycle_counter) t.(even_odd_toggle) t.(cycles).
Definition set_cycle_counter v (t : Timing) := mkTiming t.(scanline) t.(x) t.(scanline_end) t.(VBlankState) v t.(even_odd_toggle) t.(cycles).
Definition set_even_odd_toggle v (t : Timing) := mkTiming t.(scanline) t.(x) t.(scanline_end) t.(VBlankState) t.(cycle_counter) v t.(cycles).
Definition set_cycles v (t : Timing) := mkTiming t.(scanline) t.(x) t.(scanline_end) t.(VBlankState) t.(cycle_counter) t.(even_odd_toggle) v.

Definition set_reg v (l : Latches) := mkLatches v l.(scroll) l.(vaddr) l.(offset_toggle_) l.(read_buffer) l.(open_bus_) l.(open_bus_decay_timer).
Definition set_scroll v (l : Latches) := mkLatches l.(reg) v l.(vaddr) l.(offset_toggle_) l.(read_buffer) l.(open_bus_) l.(open_bus_decay_timer).
Definition set_vaddr v (l : Latches) := mkLatches l.(reg) l.(scroll) v l.(offset_toggle_) l.(read_buffer) l.(open_bus_) l.(open_bus_decay_timer).
Definition set_offset_toggle v (l : Latches) := mkLatches l.(reg) l.(scroll) l.(vaddr) v l.(read_buffer) l.(open_bus_) l.(open_bus_decay_timer).
Definition set_read_buffer v (l : Latches) := mkLatches l.(reg) l.(scroll) l.(vaddr) l.(offset_toggle_) v l.(open_bus_) l.(open_bus_decay_timer).
Definition set_open_bus v (l : Latches) := mkLatches l.(reg) l.(scroll) l.(vaddr) l.(offset_toggle_) l.(read_buffer) v l.(open_bus_decay_timer).
Definition set_open_bus_decay_timer v (l : Latches) := mkLatches l.(reg) l.(scroll) l.(vaddr) l.(offset_toggle_) l.(read_buffer) l.(open_bus_) v.

Definition set_palette v (m : Mem) := mkMem v m.(OAM) m.(OAM2) m.(OAM3).
Definition set_OAM v (m : Mem) := mkMem m.(palette) v m.(OAM2) m.(OAM3).
Definition set_OAM2 v (m : Mem) := mkMem m.(palette) m.(OAM) v m.(OAM3).
Definition set_OAM3 v (m : Mem) := mkMem m.(palette) m.(OAM) m.(OAM2) v.

Definition set_sprinpos v (s : SprEval) := mkSprEval v s.(sproutpos) s.(sprrenpos) s.(sprtmp).
Definition set_sproutpos v (s : SprEval) := mkSprEval s.(sprinpos) v s.(sprrenpos) s.(sprtmp).
Definition set_sprrenpos v (s : SprEval) := mkSprEval s.(sprinpos) s.(sproutpos) v s.(sprtmp).
Definition set_sprtmp v (s : SprEval) := mkSprEval s.(sprinpos) s.(sproutpos) s.(sprrenpos) v.

Definition set_pat_addr v (b : BgPipe) := mkBgPipe v b.(ioaddr) b.(tilepat) b.(tileattr) b.(bg_shift_pat) b.(bg_shift_attr).
Definition set_ioaddr v (b : BgPipe) := mkBgPipe b.(pat_addr) v b.(tilepat) b.(tileattr) b.(bg_shift_pat) b.(bg_shift_attr).
Definition set_tilepat v (b : BgPipe) := mkBgPipe b.(pat_addr) b.(ioaddr) v b.(tileattr) b.(bg_shift_pat) b.(bg_shift_attr).
Definition set_tileattr v (b : BgPipe) := mkBgPipe b.(pat_addr) b.(ioaddr) b.(tilepat) v b.(bg_shift_pat) b.(bg_shift_attr).
Definition set_bg_shift_pat v (b : BgPipe) := mkBgPipe b.(pat_addr) b.(ioaddr) b.(tilepat) b.(tileattr) v b.(bg_shift_attr).
Definition set_bg_shift_attr v (b : BgPipe) := mkBgPipe b.(pat_addr) b.(ioaddr) b.(tilepat) b.(tileattr) b.(bg_shift_pat) v.

Definition set_chr v (c : Cart) := mkCart v c.(NRAM) c.(chr_banks) c.(Nta).
Definition set_NRAM v (c : Cart) := mkCart c.(chr) v c.(chr_banks) c.(Nta).

Definition set_gamepak v (n : Nes) := mkNes v n.(nmi) n.(cpu_cycles) n.(frame_buffer) n.(events) n.(mapper_ticks).
Definition set_nmi v (n : Nes) := mkNes n.(gamepak) v n.(cpu_cycles) n.(frame_buffer) n.(events) n.(mapper_ticks).
Definition set_frame_buffer v (n : Nes) := mkNes n.(gamepak) n.(nmi) n.(cpu_cycles) v n.(events) n.(mapper_ticks).
Definition push_event e (n : Nes) := mkNes n.(gamepak) n.(nmi) n.(cpu_cycles) n.(frame_buffer) (e :: n.(events)) n.(mapper_ticks).
Definition set_mapper_ticks v (n : Nes) := mkNes n.(gamepak) n.(nmi) n.(cpu_cycles) n.(frame_buffer) n.(events) v.

Definition with_tm f (p : Ppu) := mkPpu p.(mode_) (f p.(tm)) p.(lt) p.(mm) p.(sp) p.(bg) p.(nes_).
Definition with_lt f (p : Ppu) := mkPpu p.(mode_) p.(tm) (f p.(lt)) p.(mm) p.(sp) p.(bg) p.(nes_).
Definition with_mm f (p : Ppu) := mkPpu p.(mode_) p.(tm) p.(lt) (f p.(mm)) p.(sp) p.(bg) p.(nes_).
Definition with_sp f (p : Ppu) := mkPpu p.(mode_) p.(tm) p.(lt) p.(mm) (f p.(sp)) p.(bg) p.(nes_).
Definition with_bg f (p : Ppu) := mkPpu p.(mode_) p.(tm) p.(lt) p.(mm) p.(sp) (f p.(bg)) p.(nes_).
Definition with_nes f (p : Ppu) := mkPpu p.(mode_) p.(tm) p.(lt) p.(mm) p.(sp) p.(bg) (f p.(nes_)).

(** ** Bit fields of the packed registers, read and written on the object *)

Definition rg (p : Ppu) (f : regfield) : Z := p.(lt).(reg).[f].
Definition va (p : Ppu) (f : scrollfield) : Z := p.(lt).(vaddr).[f].
Definition sc (p : Ppu) (f : scrollfield) : Z := p.(lt).(scroll).[f].

Definition upd_reg (f : regfield) (v : Z) (p : Ppu) : Ppu :=
  with_lt (fun l => set_reg l.(reg).[f := v] l) p.
Definition upd_vaddr (f : scrollfield) (v : Z) (p : Ppu) : Ppu :=
  with_lt (fun l => set_vaddr l.(vaddr).[f := v] l) p.
Definition upd_scroll (f : scrollfield) (v : Z) (p : Ppu) : Ppu :=
  with_lt (fun l => set_scroll l.(scroll).[f := v] l) p.

(** A one-bit field read as a C++ condition. *)
Definition flag (p : Ppu) (f : regfield) : bool := negb (rg p f =? 0).

(** ** Reading a field after an update *)

Lemma va_upd_same f v p : va (upd_vaddr f v p) f = v mod 2 ^ snd (layout f).
Proof.
  unfold va, upd_vaddr. cbn [lt with_lt vaddr set_vaddr].
  rewrite fget_fset_same. apply Z.land_ones. destruct (layout_wf f). lia.
Qed.

Lemma va_upd_other f g v p : disjoint g f = true -> va (upd_vaddr f v p) g = va p g.
Proof. intros. unfold va, upd_vaddr. cbn [lt with_lt vaddr set_vaddr]. now apply fget_fset_disjoint. Qed.

Lemma rg_upd_same f v p : rg (upd_reg f v p) f = v mod 2 ^ snd (layout f).
Proof.
  unfold rg, upd_reg. cbn [lt with_lt reg set_reg].
  rewrite fget_fset_same. apply Z.land_ones. destruct (layout_wf f). lia.
Qed.

Lemma rg_upd_other f g v p : disjoint g f = true -> rg (upd_reg f v p) g = rg p g.
Proof. intros. unfold rg, upd_reg. cbn [lt with_lt reg set_reg]. now apply fget_fset_disjoint. Qed.

Lemma flag_upd_reg_other f g v p : disjoint g f = true -> flag (upd_reg f v p) g = flag p g.
Proof. intros. unfold flag. now rewrite rg_upd_other. Qed.

Create Rewrite HintDb fields.
#[export] Hint Rewrite va_upd_same rg_upd_same : fields.
#[export] Hint Rewrite va_upd_other rg_upd_other flag_upd_reg_other using reflexivity : fields.
