(* ===== verification/Mmap.v ===== *)
(** The PPU's view of video memory: [Ppu::mmap] (src/ppu.cpp, lines 67-74).

    [mmap] returns a C++ reference into one of three stores: the PPU's own
    32-byte palette, a CHR bank of the cartridge, or a nametable slot of
    the cartridge's NRAM.  The model splits the reference into a location
    ([loc], computed by [mmap_loc]) and the load/store through it, so that
    two addresses that resolve to the same location are visibly the same
    byte: palette mirrors and nametable mirroring are aliasing, not
    copies. *)

From S2P Require Import Prelude Regs State.

Inductive loc :=
  | LPalette (i : Z)   (** [palette[i]] *)
  | LChr (a : Z)       (** byte [a] of the CHR storage *)
  | LNram (a : Z).     (** byte [a] of the nametable RAM *)

#[export] Instance loc_eq_dec : EqDecision loc.
Proof. solve_decision. Defined.

(** [mmap(i)]: mask to 14 bits; palette space folds entries whose index is
    a multiple of 4 to the low nibble; below 0x2000 the CHR bank [i>>10];
    otherwise the nametable slot [(i>>10)&3]. *)
Definition mmap_loc (c : Cart) (i : Z) : loc :=
  let i := i .& 0x3FFF in
  if 0x3F00 <=? i then
    let i := if i mod 4 =? 0 then i .& 0x0F else i in
    LPalette (i .& 0x1F)
  else if i <? 0x2000 then LChr (c.(chr_banks) (i >> 10) + (i .& 0x3FF))
  else LNram (c.(Nta) ((i >> 10) .& 3) + (i .& 0x3FF)).

Definition load (p : Ppu) (l : loc) : Z :=
  match l with
  | LPalette i => p.(mm).(palette) !!! i
  | LChr a => p.(nes_).(gamepak).(chr) !!! a
  | LNram a => p.(nes_).(gamepak).(NRAM) !!! a
  end.

Definition store (l : loc) (v : Z) (p : Ppu) : Ppu :=
  match l with
  | LPalette i => with_mm (fun m => set_palette (<[i := v]> m.(palette)) m) p
  | LChr a => with_nes (fun n => set_gamepak (set_chr (<[a := v]> n.(gamepak).(chr)) n.(gamepak)) n) p
  | LNram a => with_nes (fun n => set_gamepak (set_NRAM (<[a := v]> n.(gamepak).(NRAM)) n.(gamepak)) n) p
  end.

(** Reading [mmap(i)] as an rvalue, and assigning through it. *)
Definition mmap (p : Ppu) (i : Z) : Z := load p (mmap_loc p.(nes_).(gamepak) i).
Definition mmap_write (i v : Z) (p : Ppu) : Ppu := store (mmap_loc p.(nes_).(gamepak) i) v p.

(** ** Well-formed cartridge pointer tables *)

(** Every CHR bank pointer addresses 1 KiB inside [chr_size] bytes and
    every nametable pointer 1 KiB inside the 4 KiB of NRAM. *)
Definition cart_wf (chr_size : Z) (c : Cart) : Prop :=
  (forall k, 0 <= k < 8 -> 0 <= c.(chr_banks) k /\ c.(chr_banks) k + 0x400 <= chr_size) /\
  (forall k, 0 <= k < 4 -> 0 <= c.(Nta) k /\ c.(Nta) k + 0x400 <= 0x1000).

Definition loc_in_bounds (chr_size : Z) (l : loc) : Prop :=
  match l with
  | LPalette i => 0 <= i < 32
  | LChr a => 0 <= a < chr_size
  | LNram a => 0 <= a < 0x1000
  end.

(** ** Store laws *)

Lemma load_store_same p l v : load (store l v p) l = v.
Proof. destruct l; simpl; apply lookup_total_insert_eq. Qed.

Lemma load_store_other p l l' v : l <> l' -> load (store l v p) l' = load p l'.
Proof.
  intros Hne. destruct l, l'; simpl; try reflexivity;
    apply lookup_total_insert_ne; congruence.
Qed.

Lemma store_cart_tables l v p :
  (store l v p).(nes_).(gamepak).(chr_banks) = p.(nes_).(gamepak).(chr_banks) /\
  (store l v p).(nes_).(gamepak).(Nta) = p.(nes_).(gamepak).(Nta).
Proof. destruct l; split; reflexivity. Qed.

Lemma mmap_loc_store l v p i :
  mmap_loc (store l v p).(nes_).(gamepak) i = mmap_loc p.(nes_).(gamepak) i.
Proof. unfold mmap_loc. destruct (store_cart_tables l v p) as [-> ->]. reflexivity. Qed.

#[export] Hint Rewrite load_store_same mmap_loc_store : ppu_mem.

(** Arithmetic form of the 14-bit mask and of the in-page offset. *)
Lemma mask14 i : 0 <= i .& 0x3FFF < 0x4000.
Proof. mask_to_mod. apply Z.mod_pos_bound. lia. Qed.

Lemma mask14_id i : 0 <= i < 0x4000 -> i .& 0x3FFF = i.
Proof. intros. mask_to_mod. apply Z.mod_small. lia. Qed.

(** [mmap] masks its argument first: only the low 14 bits matter. *)
Lemma mmap_loc_mask c i : mmap_loc c i = mmap_loc c (i .& 0x3FFF).
Proof. unfold mmap_loc. now rewrite <- (Z.land_assoc i 0x3FFF 0x3FFF). Qed.

Lemma mmap_write_read p a b v :
  mmap (mmap_write a v p) b =
  if decide (mmap_loc p.(nes_).(gamepak) a = mmap_loc p.(nes_).(gamepak) b)
  then v else mmap p b.
Proof.
  unfold mmap, mmap_write. rewrite mmap_loc_store.
  case_decide as E; [rewrite E; apply load_store_same | now apply load_store_other].
Qed.

(** Routing of the palette space. *)
Lemma mmap_loc_palette c a :
  0x3F00 <= a < 0x4000 ->
  mmap_loc c a = LPalette (if a mod 4 =? 0 then a mod 16 else a mod 32).
Proof.
  intros. unfold mmap_loc. rewrite mask14_id by lia.
  destruct (Z.leb_spec 0x3F00 a); [|lia].
  destruct (a mod 4 =? 0); mask_to_mod; [|reflexivity].
  rewrite (Z.mod_small (a mod 16)); [reflexivity|].
  pose proof (Z.mod_pos_bound a 16 ltac:(lia)). lia.
Qed.

(** Routing of the nametable space 0x2000-0x3EFF, mirrored every 4 KiB. *)
Lemma mmap_loc_nametable c a :
  0x2000 <= a < 0x3F00 ->
  mmap_loc c a = LNram (c.(Nta) ((a / 0x400) mod 4) + a mod 0x400).
Proof.
  intros. unfold mmap_loc. rewrite mask14_id by lia.
  destruct (Z.leb_spec 0x3F00 a); [lia|]. destruct (Z.ltb_spec a 0x2000); [lia|].
  rewrite Z.shiftr_div_pow2 by lia. mask_to_mod. reflexivity.
Qed.

(** Routing of the pattern-table space 0x0000-0x1FFF. *)
Lemma mmap_loc_chr c a :
  0 <= a < 0x2000 -> mmap_loc c a = LChr (c.(chr_banks) (a / 0x400) + a mod 0x400).
Proof.
  intros. unfold mmap_loc. rewrite mask14_id by lia.
  destruct (Z.leb_spec 0x3F00 a); [lia|]. destruct (Z.ltb_spec a 0x2000); [|lia].
  rewrite Z.shiftr_div_pow2 by lia. mask_to_mod. reflexivity.
Qed.

(** ** Properties *)

(** C3: two palette-space addresses name the same palette byte exactly
    when they agree modulo 32, or when both are multiples of 4 and agree
    modulo 16.  So 0x3F10/0x3F14/0x3F18/0x3F1C alias 0x3F00/0x3F04/0x3F08/
    0x3F0C, while 0x3F04, 0x3F08 and 0x3F0C stay distinct from 0x3F00. *)
Theorem palette_alias c a b :
  0x3F00 <= a < 0x4000 -> 0x3F00 <= b < 0x4000 ->
  mmap_loc c a = mmap_loc c b <->
  a mod 32 = b mod 32 \/ (a mod 4 = 0 /\ b mod 4 = 0 /\ a mod 16 = b mod 16).
Proof.
  intros Ha Hb. rewrite (mmap_loc_palette c a), (mmap_loc_palette c b) by lia.
  destruct (Z.eqb_spec (a mod 4) 0), (Z.eqb_spec (b mod 4) 0);
    split; intros H; try injection H as H; try f_equal; zmod_lia.
Qed.

Lemma palette_alias_witness :
  mmap_loc (mkCart ∅ ∅ (fun _ => 0) (fun _ => 0)) 0x3F14 =
  mmap_loc (mkCart ∅ ∅ (fun _ => 0) (fun _ => 0)) 0x3F04 /\
  mmap_loc (mkCart ∅ ∅ (fun _ => 0) (fun _ => 0)) 0x3F04 <>
  mmap_loc (mkCart ∅ ∅ (fun _ => 0) (fun _ => 0)) 0x3F00.
Proof.
  split.
  - apply palette_alias; [lia | lia | right; vm_compute; tauto].
  - rewrite palette_alias by lia. vm_compute. intuition discriminate.
Defined.

(** C4: with well-formed cartridge pointer tables, every address the PPU
    can form (any integer: it is masked to 14 bits first) resolves to a
    byte inside the palette, the CHR storage or the 4 KiB of NRAM. *)
Theorem mmap_in_bounds chr_size c i :
  cart_wf chr_size c -> loc_in_bounds chr_size (mmap_loc c i).
Proof.
  intros [Hc Hn]. pose proof (mask14 i) as Hm.
  rewrite mmap_loc_mask.
  remember (i .& 0x3FFF) as a eqn:Ea. clear Ea.
  destruct (Z.leb_spec 0x3F00 a); [|destruct (Z.ltb_spec a 0x2000)].
  - rewrite mmap_loc_palette by lia. simpl.
    destruct (_ =? _); [pose proof (Z.mod_pos_bound a 16 ltac:(lia))
                       | pose proof (Z.mod_pos_bound a 32 ltac:(lia))]; lia.
  - rewrite mmap_loc_chr by lia. simpl.
    destruct (Hc (a / 0x400)) as [H1 H2]; [split; [apply Z.div_pos|apply Z.div_lt_upper_bound]; lia|].
    pose proof (Z.mod_pos_bound a 0x400 ltac:(lia)). lia.
  - rewrite mmap_loc_nametable by lia. simpl.
    destruct (Hn ((a / 0x400) mod 4)) as [H1 H2]; [apply Z.mod_pos_bound; lia|].
    pose proof (Z.mod_pos_bound a 0x400 ltac:(lia)). lia.
Qed.

(** Horizontal mirroring: slots 0/1 share the first KiB, 2/3 the second. *)
Definition horizontal_cart : Cart :=
  mkCart ∅ ∅ (fun k => 0x400 * k) (fun k => if k <? 2 then 0 else 0x400).

Lemma horizontal_cart_wf : cart_wf 0x2000 horizontal_cart.
Proof.
  split; intros k Hk; simpl; [lia|]. destruct (Z.ltb_spec k 2); lia.
Qed.

Lemma mmap_in_bounds_witness :
  cart_wf 0x2000 horizontal_cart /\
  loc_in_bounds 0x2000 (mmap_loc horizontal_cart (-1)).
Proof. split; [apply horizontal_cart_wf | apply mmap_in_bounds, horizontal_cart_wf]. Defined.
