(* ===== verification/Lifecycle.v ===== *)
(** Lifecycle of the PPU object: [Ppu::Initialize], [Ppu::Power] and
    [Ppu::Reset] (src/ppu.cpp, lines 18-65), with the [memset]/[memcpy]
    calls they make on the palette and the cartridge's nametable RAM. *)

From S2P Require Import Prelude Regs State Mmap.

(** [memset(m, v, n)]: bytes [0 .. n-1] of [m] set to [v]. *)
Fixpoint memset (m : gmap Z Z) (v : Z) (n : nat) : gmap Z Z :=
  match n with
  | O => m
  | S k => <[Z.of_nat k := v]> (memset m v k)
  end.

(** [memcpy(m, arr, length arr)] at offset [base]. *)
Fixpoint memcpy (m : gmap Z Z) (base : Z) (arr : list Z) : gmap Z Z :=
  match arr with
  | [] => m
  | v :: arr => memcpy (<[base := v]> m) (base + 1) arr
  end.

(** The power-on palette [arr] of [Power] and [Reset]. *)
Definition power_palette : list Z :=
  [0x09;0x01;0x00;0x01;0x00;0x02;0x02;0x0D;0x08;0x10;0x08;0x24;0x00;0x00;0x04;0x2C;
   0x09;0x01;0x34;0x03;0x00;0x04;0x00;0x14;0x08;0x3A;0x00;0x02;0x00;0x20;0x2C;0x08].

Definition set_cart_NRAM (m : gmap Z Z) (p : Ppu) : Ppu :=
  with_nes (fun n => set_gamepak (set_NRAM m n.(gamepak)) n) p.

(** [Initialize(nes)]: attach the collaborator and reset the beat
    counter, the VBlank state machine, the latches and the registers. *)
Definition Initialize (nes : Nes) (p : Ppu) : Ppu :=
  let p := mkPpu p.(mode_) p.(tm) p.(lt) p.(mm) p.(sp) p.(bg) nes in
  let p := with_tm (fun t => set_x 0 (set_scanline 241 t)) p in
  let p := with_tm (set_scanline_end 341) p in
  let p := with_tm (set_VBlankState 0) p in
  let p := with_tm (set_cycle_counter 0) p in
  let p := with_lt (set_read_buffer 0) p in
  let p := with_lt (set_open_bus 0) p in
  let p := with_lt (set_open_bus_decay_timer 0) p in
  let p := with_tm (set_even_odd_toggle false) p in
  let p := with_lt (set_offset_toggle false) p in
  with_lt (set_reg 0) p.

(** The register part shared by [Power] and [Reset]. *)
Definition reset_regs (p : Ppu) : Ppu :=
  let p := with_tm (set_cycles 0) p in
  let p := upd_reg sysctrl 0 p in
  let p := upd_reg dispctrl (rg p dispctrl .& 0x6) p in
  upd_reg status (rg p status .& 0x1F) p.

Definition Power (p : Ppu) : Ppu :=
  let p := reset_regs p in
  let p := upd_reg OAMaddr 0 p in
  let p := with_lt (set_offset_toggle false) p in
  let p := upd_scroll raw 0 p in
  let p := upd_vaddr raw 0 p in
  let p := upd_vaddr vaddrlo 0 p in
  let p := upd_vaddr vaddrhi 0 p in
  let p := with_lt (set_read_buffer 0) p in
  let p := set_cart_NRAM (memset p.(nes_).(gamepak).(NRAM) 0xFF 0x1000) p in
  with_mm (fun m => set_palette (memcpy m.(palette) 0 power_palette) m) p.

Definition Reset (p : Ppu) : Ppu :=
  let p := reset_regs p in
  let p := with_lt (set_offset_toggle false) p in
  let p := upd_scroll raw 0 p in
  let p := with_lt (set_read_buffer 0) p in
  let p := with_mm (fun m => set_palette (memcpy m.(palette) 0 power_palette) m) p in
  set_cart_NRAM (memset p.(nes_).(gamepak).(NRAM) 0x00 0x1000) p.

(** ** Test fixtures: a zero-filled object and a horizontally mirrored
    cartridge, powered on. *)

Definition ppu_zero : Ppu :=
  mkPpu NTSC (mkTiming 0 0 0 0 0 false 0) (mkLatches 0 0 0 false 0 0 0)
    (mkMem ∅ ∅ ∅ ∅) (mkSprEval 0 0 0 0) (mkBgPipe 0 0 0 0 0 0)
    (mkNes horizontal_cart false 0 ∅ [] 0).

Definition ppu_powered : Ppu := Power (Initialize ppu_zero.(nes_) ppu_zero).

(** ** Lemmas *)

Lemma memset_lookup m v n a :
  memset m v n !!! a = if decide (0 <= a < Z.of_nat n) then v else m !!! a.
Proof.
  induction n as [|n IH]; simpl.
  - case_decide; [lia | reflexivity].
  - rewrite lookup_total_insert, IH. repeat case_decide; try reflexivity; lia.
Qed.

Lemma memcpy_lookup m base arr a :
  memcpy m base arr !!! a =
  if decide (base <= a < base + Z.of_nat (length arr))
  then nth (Z.to_nat (a - base)) arr 0 else m !!! a.
Proof.
  revert m base. induction arr as [|v arr IH]; intros m base; simpl.
  - case_decide; [lia | reflexivity].
  - rewrite IH, lookup_total_insert.
    repeat case_decide; subst; try lia; try reflexivity.
    + assert (E : Z.to_nat (a - base) = S (Z.to_nat (a - (base + 1)))) by lia.
      rewrite E. reflexivity.
    + rewrite Z.sub_diag. reflexivity.
Qed.
