(* ===== verification/Bus.v ===== *)
(** The CPU-side register interface: [Ppu::Read] and [Ppu::Write]
    (src/ppu.cpp, lines 77-149).

    A read returns the byte and the updated object; a write returns the
    updated object.  Both decode the port from the low three bits of the
    address and refresh the open-bus latch ([RefreshOpenBus], the lambda at
    lines 78 and 113) where the source does. *)

From S2P Require Import Prelude Regs State Mmap Lifecycle.

(** The lambda [RefreshOpenBus]: latch the byte and restart the decay
    countdown. *)
Definition RefreshOpenBus (v : Z) (p : Ppu) : Ppu :=
  with_lt (fun l => set_open_bus v (set_open_bus_decay_timer 77777 l)) p.

(** VRAM address auto-increment: [vaddr.raw = vaddr.raw + (reg.Inc ? 32 : 1)]. *)
Definition vaddr_step (p : Ppu) : Z := if flag p Inc then 32 else 1.

Definition advance_vaddr (p : Ppu) : Ppu :=
  upd_vaddr raw (va p raw + vaddr_step p) p.

(** [case 2]: status read. *)
Definition read_status (p : Ppu) : Z * Ppu :=
  let res := rg p status .| (p.(lt).(open_bus_) .& 0x1F) in
  let p := upd_reg InVBlank 0 p in
  let p := with_lt (set_offset_toggle false) p in
  let p := if decide (p.(tm).(VBlankState) = -5) then p
           else with_tm (set_VBlankState 0) p in
  (res, p).

(** [case 4]: OAM data read, attribute bytes masked with 0xE3. *)
Definition read_oamdata (p : Ppu) : Z * Ppu :=
  let v := (p.(mm).(OAM) !!! rg p OAMaddr) .& (if rg p OAMdata =? 2 then 0xE3 else 0xFF) in
  let p := RefreshOpenBus v p in
  (p.(lt).(open_bus_), p).

(** [case 7]: buffered VRAM read; palette reads bypass the buffer, which is
    loaded from the nametable byte underneath instead. *)
Definition read_data (p : Ppu) : Z * Ppu :=
  let res := p.(lt).(read_buffer) in
  let t := mmap p (va p raw) in
  let '(res, p) :=
    if (va p raw .& 0x3F00) =? 0x3F00 then
      let res := (p.(lt).(open_bus_) .& 0xC0) .| (t .& 0x3F) in
      (res, with_lt (set_read_buffer (mmap p (va p raw .& 0x2FFF))) p)
    else (res, with_lt (set_read_buffer t) p) in
  let p := RefreshOpenBus res p in
  (res, advance_vaddr p).

Definition Read (address : Z) (p : Ppu) : Z * Ppu :=
  match address .& 7 with
  | 2 => read_status p
  | 4 => read_oamdata p
  | 7 => read_data p
  | _ => (p.(lt).(open_bus_), p)
  end.

(** [case 0]: sysctrl, and its base nametable bits copied into [scroll]. *)
Definition write_sysctrl (data : Z) (p : Ppu) : Ppu :=
  let p := upd_reg sysctrl data p in
  upd_scroll basenta (rg p BaseNTA) p.

(** [case 4]: [OAM[reg.OAMaddr++] = data]. *)
Definition write_oamdata (data : Z) (p : Ppu) : Ppu :=
  let a := rg p OAMaddr in
  let p := upd_reg OAMaddr (a + 1) p in
  with_mm (fun m => set_OAM (<[a := data]> m.(OAM)) m) p.

Definition flip_toggle (p : Ppu) : Ppu :=
  with_lt (fun l => set_offset_toggle (negb l.(offset_toggle_)) l) p.

(** [case 5]: two-phase scroll write. *)
Definition write_scroll (data : Z) (p : Ppu) : Ppu :=
  let p :=
    if p.(lt).(offset_toggle_) then
      let p := upd_scroll yfine (data .& 7) p in
      upd_scroll ycoarse (data >> 3) p
    else upd_scroll xscroll data p in
  flip_toggle p.

(** [case 6]: two-phase address write; the second copies the latch. *)
Definition write_vaddr (data : Z) (p : Ppu) : Ppu :=
  let p :=
    if p.(lt).(offset_toggle_) then
      let p := upd_scroll vaddrlo data p in
      upd_vaddr raw (sc p raw) p
    else upd_scroll vaddrhi (data .& 0x3F) p in
  flip_toggle p.

(** [case 7]: VRAM write through [mmap], open bus refreshed from the
    written location, address auto-increment. *)
Definition write_data (data : Z) (p : Ppu) : Ppu :=
  let l := mmap_loc p.(nes_).(gamepak) (va p raw) in
  let p := store l data p in
  let p := RefreshOpenBus (load p l) p in
  advance_vaddr p.

Definition Write (address data : Z) (p : Ppu) : Ppu :=
  let data := u8 data in
  let p := RefreshOpenBus data p in
  match address .& 7 with
  | 0 => write_sysctrl data p
  | 1 => upd_reg dispctrl data p
  | 3 => upd_reg OAMaddr data p
  | 4 => write_oamdata data p
  | 5 => write_scroll data p
  | 6 => write_vaddr data p
  | 7 => write_data data p
  | _ => p
  end.

(** ** Proof support *)

(** Reduce record projections of the setters, keeping field accessors and
    arithmetic folded. *)
Ltac ppu_red :=
  repeat progress (
    unfold rg, va, sc, upd_reg, upd_vaddr, upd_scroll, flip_toggle,
      RefreshOpenBus, advance_vaddr, vaddr_step, flag in *;
    cbn -[fget fset Z.land Z.lor Z.shiftl Z.shiftr Z.testbit trunc mmap mmap_loc load store] in * ).

Lemma write_port p a d :
  Write a d p =
  let p' := RefreshOpenBus (u8 d) p in
  match a .& 7 with
  | 0 => write_sysctrl (u8 d) p' | 1 => upd_reg dispctrl (u8 d) p'
  | 3 => upd_reg OAMaddr (u8 d) p' | 4 => write_oamdata (u8 d) p'
  | 5 => write_scroll (u8 d) p' | 6 => write_vaddr (u8 d) p'
  | 7 => write_data (u8 d) p' | _ => p'
  end.
Proof. reflexivity. Qed.

(** ** Properties *)

(** C1: reading the status port returns the status byte with the low five
    bits of the open bus, whose bit 7 is [InVBlank]; afterwards [InVBlank]
    and the write toggle are clear and a pending VBlank raise is cancelled
    (VBlankState forced to 0) unless the status clear (-5) is in flight. *)
Theorem read_status_clears p a :
  a .& 7 = 2 ->
  let '(v, p') := Read a p in
  v = rg p status .| (p.(lt).(open_bus_) .& 0x1F) /\
  Z.testbit v 7 = Z.testbit (rg p InVBlank) 0 /\
  rg p' InVBlank = 0 /\ p'.(lt).(offset_toggle_) = false /\
  p'.(tm).(VBlankState) = (if decide (p.(tm).(VBlankState) = -5) then -5 else 0).
Proof.
  intros Ha. unfold Read. rewrite Ha. unfold read_status.
  case_decide; ppu_red; (repeat split;
    [unfold_fields; bits_simpl; btauto | rewrite fget_fset_same; reflexivity | case_decide; congruence]).
Qed.

Lemma read_status_clears_witness :
  0x2002 .& 7 = 2 /\
  (let '(v, p') := Read 0x2002 ppu_powered in
   v = rg ppu_powered status .| (ppu_powered.(lt).(open_bus_) .& 0x1F) /\
   Z.testbit v 7 = Z.testbit (rg ppu_powered InVBlank) 0 /\
   rg p' InVBlank = 0 /\ p'.(lt).(offset_toggle_) = false /\
   p'.(tm).(VBlankState) =
   (if decide (ppu_powered.(tm).(VBlankState) = -5) then -5 else 0)).
Proof. split; [reflexivity | apply read_status_clears; reflexivity]. Defined.

(** C2: two writes to port 6 with the toggle clear load the VRAM address
    with [((hi & 0x3F) << 8) | lo] (bytes as the CPU passes them), make it
    equal to the scroll latch, and leave the toggle clear. *)
Theorem write_vaddr_twice p a hi lo :
  a .& 7 = 6 -> p.(lt).(offset_toggle_) = false ->
  let p' := Write a lo (Write a hi p) in
  va p' raw = ((u8 hi .& 0x3F) << 8) .| u8 lo /\
  va p' raw = sc p' raw /\ p'.(lt).(offset_toggle_) = false.
Proof.
  intros Ha Ht. rewrite !write_port, Ha. unfold write_vaddr.
  destruct p as [md t [r s v tg rb ob obt] m e b n]; cbn in Ht; subst tg. ppu_red.
  repeat split; unfold trunc; unfold_fields; zbits.
Qed.

Lemma write_vaddr_twice_witness :
  0x2006 .& 7 = 6 /\ ppu_powered.(lt).(offset_toggle_) = false /\
  (let p' := Write 0x2006 0x00 (Write 0x2006 0x3F ppu_powered) in
   va p' raw = ((u8 0x3F .& 0x3F) << 8) .| u8 0x00 /\
   va p' raw = sc p' raw /\ p'.(lt).(offset_toggle_) = false).
Proof.
  split; [reflexivity|]. split; [vm_compute; reflexivity|].
  apply write_vaddr_twice; [reflexivity | vm_compute; reflexivity].
Defined.

(** C5: two writes to port 5 with the toggle clear set fine X and coarse
    X from the first byte and fine Y and coarse Y from the second. *)
Theorem write_scroll_twice p a d1 d2 :
  a .& 7 = 5 -> p.(lt).(offset_toggle_) = false ->
  let p' := Write a d2 (Write a d1 p) in
  sc p' xfine = u8 d1 .& 7 /\ sc p' xcoarse = u8 d1 >> 3 /\
  sc p' yfine = u8 d2 .& 7 /\ sc p' ycoarse = u8 d2 >> 3 /\
  p'.(lt).(offset_toggle_) = false.
Proof.
  intros Ha Ht. rewrite !write_port, Ha. unfold write_scroll.
  destruct p as [md t [r s v tg rb ob obt] m e b n]; cbn in Ht; subst tg. ppu_red.
  repeat split; unfold trunc; unfold_fields; zbits.
Qed.

(** Scenario 4 of the spec: 0x7D then 0x5E give fine X 5, coarse X 15,
    fine Y 6, coarse Y 11. *)
Lemma write_scroll_twice_witness :
  0x2005 .& 7 = 5 /\ ppu_powered.(lt).(offset_toggle_) = false /\
  (let p' := Write 0x2005 0x5E (Write 0x2005 0x7D ppu_powered) in
   sc p' xfine = u8 0x7D .& 7 /\ sc p' xcoarse = u8 0x7D >> 3 /\
   sc p' yfine = u8 0x5E .& 7 /\ sc p' ycoarse = u8 0x5E >> 3 /\
   p'.(lt).(offset_toggle_) = false) /\
  (u8 0x7D .& 7, u8 0x7D >> 3, u8 0x5E .& 7, u8 0x5E >> 3) = (5, 15, 6, 11).
Proof.
  split; [reflexivity|]. split; [vm_compute; reflexivity|]. split; [|reflexivity].
  apply write_scroll_twice; [reflexivity | vm_compute; reflexivity].
Defined.

(** C6: a data-port read outside palette space returns the previously
    buffered byte, buffers the byte at the current VRAM address, latches
    the returned byte on the open bus and advances the 16-bit address by 1
    or 32. *)
Theorem read_data_buffered p a :
  a .& 7 = 7 -> va p raw .& 0x3F00 <> 0x3F00 ->
  let '(v, p') := Read a p in
  v = p.(lt).(read_buffer) /\ p'.(lt).(read_buffer) = mmap p (va p raw) /\
  va p' raw = (va p raw + vaddr_step p) mod 2 ^ 16 /\ p'.(lt).(open_bus_) = v.
Proof.
  intros Ha Hp. unfold Read. rewrite Ha. unfold read_data.
  rewrite (proj2 (Z.eqb_neq _ _) Hp). ppu_red.
  repeat split. rewrite fget_fset_same. cbn [snd layout scrollfield_layout scrollfield_pos].
  rewrite Z.land_ones by lia. reflexivity.
Qed.

(** Scenario 3 of the spec: after pointing at 0x2000, the first read
    returns the old buffer (0) and the second the byte of VRAM 0x2000
    (0xFF in NRAM after [Power]). *)
Lemma read_data_buffered_witness :
  let p := Write 0x2006 0x00 (Write 0x2006 0x20 ppu_powered) in
  0x2007 .& 7 = 7 /\ va p raw .& 0x3F00 <> 0x3F00 /\
  (let '(v, p') := Read 0x2007 p in
   v = p.(lt).(read_buffer) /\ p'.(lt).(read_buffer) = mmap p (va p raw) /\
   va p' raw = (va p raw + vaddr_step p) mod 2 ^ 16 /\ p'.(lt).(open_bus_) = v) /\
  (fst (Read 0x2007 p), fst (Read 0x2007 (snd (Read 0x2007 p)))) = (0, 0xFF).
Proof.
  intros p. assert (Hp : va p raw .& 0x3F00 <> 0x3F00) by (vm_compute; discriminate).
  split; [reflexivity|]. split; [exact Hp|]. split; [|vm_compute; reflexivity].
  apply read_data_buffered; [reflexivity | exact Hp].
Defined.

(** C7: a data-port read in palette space does not go through the
    buffer: it returns the palette byte (six bits) merged with the top two
    open-bus bits at once, and reloads the buffer from the nametable byte
    at [vaddr & 0x2FFF] underneath. *)
Theorem read_data_palette p a :
  a .& 7 = 7 -> va p raw .& 0x3F00 = 0x3F00 ->
  let '(v, p') := Read a p in
  v = (p.(lt).(open_bus_) .& 0xC0) .| (mmap p (va p raw) .& 0x3F) /\
  p'.(lt).(read_buffer) = mmap p (va p raw .& 0x2FFF) /\
  va p' raw = (va p raw + vaddr_step p) mod 2 ^ 16 /\ p'.(lt).(open_bus_) = v.
Proof.
  intros Ha Hp. unfold Read. rewrite Ha. unfold read_data.
  rewrite (proj2 (Z.eqb_eq _ _) Hp). ppu_red.
  repeat split. rewrite fget_fset_same. cbn [snd layout scrollfield_layout scrollfield_pos].
  rewrite Z.land_ones by lia. reflexivity.
Qed.

(** Scenario 2 of the spec, replayed on a powered-on PPU: 0x2A written at
    0x3F00 is read back at its mirror 0x3F10 by the first read, with no
    priming; the second read already returns the next entry 0x3F11 (0x01
    after [Power]). *)
Definition palette_scenario : Ppu :=
  Write 0x2006 0x10 (Write 0x2006 0x3F (Write 0x2007 0x2A
    (Write 0x2006 0x00 (Write 0x2006 0x3F ppu_powered)))).

Lemma read_data_palette_witness :
  0x2007 .& 7 = 7 /\ va palette_scenario raw .& 0x3F00 = 0x3F00 /\
  (let '(v, p') := Read 0x2007 palette_scenario in
   v = (palette_scenario.(lt).(open_bus_) .& 0xC0) .|
       (mmap palette_scenario (va palette_scenario raw) .& 0x3F) /\
   p'.(lt).(read_buffer) = mmap palette_scenario (va palette_scenario raw .& 0x2FFF) /\
   va p' raw = (va palette_scenario raw + vaddr_step palette_scenario) mod 2 ^ 16 /\
   p'.(lt).(open_bus_) = v).
Proof.
  assert (Hp : va palette_scenario raw .& 0x3F00 = 0x3F00) by (vm_compute; reflexivity).
  split; [reflexivity|]. split; [exact Hp|].
  apply read_data_palette; [reflexivity | exact Hp].
Defined.


(** C9: a write to port 4 stores the byte at [OAM[OAMaddr]] and advances
    the 8-bit OAM address, wrapping at 256. *)
Theorem write_oamdata_spec p a d :
  a .& 7 = 4 ->
  let p' := Write a d p in
  p'.(mm).(OAM) = <[rg p OAMaddr := u8 d]> p.(mm).(OAM) /\
  rg p' OAMaddr = (rg p OAMaddr + 1) mod 256.
Proof.
  intros Ha. rewrite write_port, Ha. unfold write_oamdata. ppu_red.
  split; [reflexivity|]. rewrite fget_fset_same. cbn [snd layout regfield_layout regfield_pos].
  rewrite Z.land_ones by lia. reflexivity.
Qed.

Lemma write_oamdata_spec_witness :
  0x2004 .& 7 = 4 /\
  (let p' := Write 0x2004 0x1FF (upd_reg OAMaddr 255 ppu_powered) in
   p'.(mm).(OAM) = <[rg (upd_reg OAMaddr 255 ppu_powered) OAMaddr := u8 0x1FF]>
                     (upd_reg OAMaddr 255 ppu_powered).(mm).(OAM) /\
   rg p' OAMaddr = (rg (upd_reg OAMaddr 255 ppu_powered) OAMaddr + 1) mod 256).
Proof. split; [reflexivity | apply write_oamdata_spec; reflexivity]. Defined.

(** C10: every register write, to any port, leaves the written byte on the
    open bus and restarts its decay countdown at 77777 beats. *)
Theorem write_refreshes_open_bus p a d :
  (Write a d p).(lt).(open_bus_) = u8 d /\
  (Write a d p).(lt).(open_bus_decay_timer) = 77777.
Proof.
  rewrite write_port.
  assert (Hr : 0 <= a .& 7 < 8) by (mask_to_mod; apply Z.mod_pos_bound; lia).
  destruct p as [md t [r s v tg rb ob obt] m e b n].
  assert (a .& 7 = 0 \/ a .& 7 = 1 \/ a .& 7 = 2 \/ a .& 7 = 3 \/
          a .& 7 = 4 \/ a .& 7 = 5 \/ a .& 7 = 6 \/ a .& 7 = 7) as Hc by lia.
  destruct Hc as [H|[H|[H|[H|[H|[H|[H|H]]]]]]]; rewrite H;
    unfold write_sysctrl, write_oamdata, write_scroll, write_vaddr, write_data;
    try destruct tg; ppu_red; try rewrite load_store_same; auto.
Qed.

(** C34: accesses in the wrong direction are absorbed by the open bus:
    reading a write-only port (0, 1, 3, 5, 6, at any mirror of the
    address) returns the open-bus byte and changes nothing, and writing the
    read-only status port (2) only latches the byte on the open bus. *)
Theorem wrong_direction_access p a d :
  (a .& 7 <> 2 -> a .& 7 <> 4 -> a .& 7 <> 7 -> Read a p = (p.(lt).(open_bus_), p)) /\
  (a .& 7 = 2 -> Write a d p = RefreshOpenBus (u8 d) p).
Proof.
  assert (Hr : 0 <= a .& 7 < 8) by (mask_to_mod; apply Z.mod_pos_bound; lia).
  split.
  - intros H2 H4 H7. unfold Read.
    assert (a .& 7 = 0 \/ a .& 7 = 1 \/ a .& 7 = 3 \/ a .& 7 = 5 \/ a .& 7 = 6) as Hc by lia.
    destruct Hc as [H|[H|[H|[H|H]]]]; rewrite H; reflexivity.
  - intros H. rewrite write_port, H. reflexivity.
Qed.

Lemma wrong_direction_access_witness :
  (0x2005 .& 7 <> 2 /\ 0x2005 .& 7 <> 4 /\ 0x2005 .& 7 <> 7) /\ 0x3FFA .& 7 = 2 /\
  Read 0x2005 ppu_powered = (ppu_powered.(lt).(open_bus_), ppu_powered) /\
  Write 0x3FFA 0x80 ppu_powered = RefreshOpenBus (u8 0x80) ppu_powered.
Proof.
  assert (H : 0x2005 .& 7 <> 2 /\ 0x2005 .& 7 <> 4 /\ 0x2005 .& 7 <> 7) by (vm_compute; repeat split; discriminate).
  assert (H2 : 0x3FFA .& 7 = 2) by reflexivity.
  destruct H as (A & B & C). split; [tauto | split; [exact H2 | split]].
  - apply (wrong_direction_access ppu_powered 0x2005 0); assumption.
  - apply (wrong_direction_access ppu_powered 0x3FFA 0x80); exact H2.
Defined.
