(* ===== verification/Bytes.v ===== *)
(** Byte typing of the PPU's memories and latches.

    In the source the palette, OAM, CHR and nametable RAM are [uint8_t]
    arrays and [read_buffer]/[open_bus_] are [uint8_t] members; the model
    keeps them as maps of [Z] and integers.  [bytes_wf] states that every
    such cell holds a byte, and the register interface ([Read], [Write])
    preserves it: every value the code stores there is a byte ([u8] of the
    CPU data, a byte read back through [mmap], or a mask of bytes). *)

From S2P Require Import Prelude Regs State Mmap Lifecycle Bus.

Definition byte (v : Z) : Prop := 0 <= v < 256.

Definition bytes_map (m : gmap Z Z) : Prop := map_Forall (fun _ v => byte v) m.

Definition bytes_wf (p : Ppu) : Prop :=
  bytes_map p.(mm).(palette) /\ bytes_map p.(mm).(OAM) /\
  bytes_map p.(nes_).(gamepak).(chr) /\ bytes_map p.(nes_).(gamepak).(NRAM) /\
  byte p.(lt).(read_buffer) /\ byte p.(lt).(open_bus_).

(** ** Bytes *)

Lemma byte_mod v : byte v <-> v mod 2 ^ 8 = v.
Proof.
  unfold byte. split; intros H.
  - apply Z.mod_small. lia.
  - rewrite <- H. apply Z.mod_pos_bound. lia.
Qed.

Lemma byte_u8 v : byte (u8 v).
Proof. apply trunc_range. lia. Qed.

Lemma byte_land a b : byte a -> byte (a .& b).
Proof.
  rewrite !byte_mod. intros Ha. rewrite <- Ha. zbits.
Qed.

Lemma byte_lor a b : byte a -> byte b -> byte (a .| b).
Proof.
  rewrite !byte_mod. intros Ha Hb. rewrite <- Ha, <- Hb. zbits.
Qed.

Lemma bytes_map_lookup m k : bytes_map m -> byte (m !!! k).
Proof.
  intros Hm. unfold lookup_total, map_lookup_total.
  destruct (m !! k) eqn:E; cbn; [exact (Hm k z E) | unfold byte; lia].
Qed.

Lemma bytes_map_insert m k v : bytes_map m -> byte v -> bytes_map (<[k := v]> m).
Proof. intros Hm Hv. apply map_Forall_insert_2; assumption. Qed.

#[export] Hint Resolve byte_u8 byte_land byte_lor bytes_map_lookup bytes_map_insert : ppu.

(** ** The register interface keeps the memories bytes *)

Ltac bytes_split := unfold bytes_wf; refine (conj _ (conj _ (conj _ (conj _ (conj _ _))))).

Lemma load_byte p l : bytes_wf p -> byte (load p l).
Proof. intros (H1 & H2 & H3 & H4 & _). destruct l; cbn; auto with ppu. Qed.

Lemma mmap_byte p i : bytes_wf p -> byte (mmap p i).
Proof. apply load_byte. Qed.

Lemma store_bytes_wf l v p : bytes_wf p -> byte v -> bytes_wf (store l v p).
Proof. intros (H1 & H2 & H3 & H4 & H5 & H6) Hv. destruct l; bytes_split; cbn -[bytes_map byte]; auto with ppu. Qed.

#[export] Hint Resolve load_byte mmap_byte store_bytes_wf : ppu.

(** An update that keeps every byte cell keeps the invariant. *)
Lemma bytes_wf_frame p q :
  bytes_wf p ->
  q.(mm).(palette) = p.(mm).(palette) -> q.(mm).(OAM) = p.(mm).(OAM) ->
  q.(nes_).(gamepak).(chr) = p.(nes_).(gamepak).(chr) ->
  q.(nes_).(gamepak).(NRAM) = p.(nes_).(gamepak).(NRAM) ->
  q.(lt).(read_buffer) = p.(lt).(read_buffer) -> q.(lt).(open_bus_) = p.(lt).(open_bus_) ->
  bytes_wf q.
Proof. intros (H1 & H2 & H3 & H4 & H5 & H6) E1 E2 E3 E4 E5 E6. bytes_split; rewrite ?E1, ?E2, ?E3, ?E4, ?E5, ?E6; assumption. Qed.

Ltac bytes_frame := eapply bytes_wf_frame; [eassumption | reflexivity ..].

Lemma RefreshOpenBus_bytes_wf v p : bytes_wf p -> byte v -> bytes_wf (RefreshOpenBus v p).
Proof. intros (H1 & H2 & H3 & H4 & H5 & H6) Hv. bytes_split; cbn -[bytes_map byte]; auto. Qed.

#[export] Hint Resolve RefreshOpenBus_bytes_wf : ppu.

(** Each write handler, after the open-bus refresh of [Write]. *)
Lemma write_handlers_bytes_wf p d :
  bytes_wf p -> byte d ->
  bytes_wf (write_sysctrl d p) /\ bytes_wf (upd_reg dispctrl d p) /\ bytes_wf (upd_reg OAMaddr d p) /\
  bytes_wf (write_oamdata d p) /\ bytes_wf (write_scroll d p) /\ bytes_wf (write_vaddr d p) /\
  bytes_wf (write_data d p).
Proof.
  intros Hp Hd. split; [|split; [|split; [|split; [|split; [|split]]]]]; try bytes_frame.
  - destruct Hp as (H1 & H2 & H3 & H4 & H5 & H6). bytes_split; cbn -[bytes_map byte]; auto with ppu.
  - unfold write_scroll. destruct (offset_toggle_ (lt p)); bytes_frame.
  - unfold write_vaddr. destruct (offset_toggle_ (lt p)); bytes_frame.
  - unfold write_data. cbv zeta.
    set (q := store _ d p). assert (Hq : bytes_wf q) by (apply store_bytes_wf; assumption).
    assert (Hr : bytes_wf (RefreshOpenBus (load q (mmap_loc (gamepak (nes_ p)) (va p raw))) q))
      by auto with ppu.
    bytes_frame.
Qed.

Lemma read_handlers_bytes p :
  bytes_wf p ->
  (byte (fst (read_status p)) /\ bytes_wf (snd (read_status p))) /\
  (byte (fst (read_oamdata p)) /\ bytes_wf (snd (read_oamdata p))) /\
  (byte (fst (read_data p)) /\ bytes_wf (snd (read_data p))).
Proof.
  intros Hp. pose proof Hp as (H1 & H2 & H3 & H4 & H5 & H6).
  split; [|split].
  - split; [|unfold read_status; cbv zeta; case_decide; bytes_frame].
    unfold read_status. cbn [fst]. apply byte_lor; [|apply byte_land; exact H6].
    pose proof (fget_range status p.(lt).(reg)) as R. unfold byte, rg. cbn in R. lia.
  - unfold read_oamdata. cbv zeta. cbn [fst snd].
    assert (Hv : byte ((OAM (mm p) !!! rg p OAMaddr) .& (if rg p OAMdata =? 2 then 0xE3 else 0xFF)))
      by auto with ppu.
    split; [exact Hv | auto with ppu].
  - unfold read_data. cbv zeta.
    set (t := mmap p (va p raw)).
    assert (Ht : byte t) by (apply mmap_byte, Hp).
    destruct ((va p raw .& 0x3F00) =? 0x3F00).
    + assert (Hr : byte ((open_bus_ (lt p) .& 0xC0) .| (t .& 0x3F))) by auto with ppu.
      assert (Hq : bytes_wf (with_lt (set_read_buffer (mmap p (va p raw .& 0x2FFF))) p)).
      { bytes_split; cbn -[bytes_map byte mmap]; auto with ppu. }
      cbn [fst snd]. split; [exact Hr|].
      assert (Hs : bytes_wf (RefreshOpenBus ((open_bus_ (lt p) .& 0xC0) .| (t .& 0x3F))
                               (with_lt (set_read_buffer (mmap p (va p raw .& 0x2FFF))) p)))
        by auto with ppu.
      bytes_frame.
    + assert (Hq : bytes_wf (with_lt (set_read_buffer t) p)).
      { bytes_split; cbn -[bytes_map byte mmap]; auto with ppu. }
      cbn [fst snd]. split; [exact H5|].
      assert (Hs : bytes_wf (RefreshOpenBus (read_buffer (lt p)) (with_lt (set_read_buffer t) p)))
        by auto with ppu.
      bytes_frame.
Qed.

Lemma Read_bytes p a : bytes_wf p -> byte (fst (Read a p)) /\ bytes_wf (snd (Read a p)).
Proof.
  intros Hp. destruct (read_handlers_bytes p Hp) as (R2 & R4 & R7).
  pose proof Hp as (_ & _ & _ & _ & _ & H6).
  unfold Read. repeat case_match; first [exact R2 | exact R4 | exact R7 | exact (conj H6 Hp)].
Qed.

Lemma Write_bytes p a d : bytes_wf p -> bytes_wf (Write a d p).
Proof.
  intros Hp. assert (Hq : bytes_wf (RefreshOpenBus (u8 d) p)) by auto with ppu.
  destruct (write_handlers_bytes_wf _ (u8 d) Hq (byte_u8 d)) as (W0 & W1 & W3 & W4 & W5 & W6 & W7).
  rewrite write_port. cbv zeta. repeat case_match; auto.
Qed.


Lemma ppu_powered_bytes : bytes_wf ppu_powered.
Proof.
  unfold bytes_wf, bytes_map, byte.
  refine (conj _ (conj _ (conj _ (conj _ (conj _ _)))));
    apply (bool_decide_unpack _); vm_compute; exact I.
Qed.


(** ** OAM writes stay inside [OAM[256]] *)

Lemma store_OAM l v p : (store l v p).(mm).(OAM) = p.(mm).(OAM).
Proof. destruct l; reflexivity. Qed.

(** C35: array bounds of [OAM[256]]: if OAM holds entries only at indices
    0..255, every [Write] (its port-4 store [OAM[reg.OAMaddr++] = data]
    included) and every [Read] keeps it so. *)
Theorem bus_oam_in_bounds p a d :
  keys_below p.(mm).(OAM) 256 ->
  keys_below (Write a d p).(mm).(OAM) 256 /\ keys_below (snd (Read a p)).(mm).(OAM) 256.
Proof.
  intros Hp.
  assert (Hr : 0 <= a .& 7 < 8) by (mask_to_mod; apply Z.mod_pos_bound; lia).
  assert (a .& 7 = 0 \/ a .& 7 = 1 \/ a .& 7 = 2 \/ a .& 7 = 3 \/
          a .& 7 = 4 \/ a .& 7 = 5 \/ a .& 7 = 6 \/ a .& 7 = 7) as Hc by lia.
  rewrite write_port. unfold Read. cbv zeta.
  set (q := RefreshOpenBus (u8 d) p).
  assert (Hq : keys_below q.(mm).(OAM) 256) by exact Hp.
  destruct Hc as [H|[H|[H|[H|[H|[H|[H|H]]]]]]]; rewrite H; cbn -[keys_below q]; split; try exact Hp;
    try exact Hq.
  - unfold read_status. cbv zeta. case_decide; exact Hp.
  - unfold write_oamdata. cbn -[keys_below]. apply keys_below_insert; [exact Hq|].
    exact (fget_range OAMaddr _).
  - unfold write_scroll. destruct (offset_toggle_ (lt q)); exact Hq.
  - unfold write_vaddr. destruct (offset_toggle_ (lt q)); exact Hq.
  - unfold write_data. cbn -[keys_below store load]. rewrite store_OAM. exact Hq.
  - unfold read_data. cbv zeta. destruct ((va p raw .& 0x3F00) =? 0x3F00); exact Hp.
Qed.

Lemma bus_oam_in_bounds_witness :
  keys_below ppu_powered.(mm).(OAM) 256 /\
  keys_below (Write 0x2004 0x55 ppu_powered).(mm).(OAM) 256 /\
  keys_below (snd (Read 0x2004 ppu_powered)).(mm).(OAM) 256.
Proof.
  assert (H : keys_below ppu_powered.(mm).(OAM) 256)
    by (intros j [v Hv]; vm_compute in Hv; discriminate).
  split; [exact H | apply bus_oam_in_bounds, H].
Defined.
