(* ===== verification/Interleave.v ===== *)
(** The pattern-byte interleave of beat phase 7 of [Ppu::rendering_tick]
    (src/ppu.cpp, lines 211-216).

    The low and high bit planes of a tile row are merged into one 16-bit
    word whose bit [2k] is bit [k] of the low plane and bit [2k+1] is bit
    [k] of the high plane, by three swap-mask stages.  The stages are
    proved equal to a bit-by-bit reference definition on every pair of
    bytes, by evaluating a boolean check over all 65536 inputs; the decode
    of a pixel and the inverse of the interleave follow. *)

From S2P Require Import Prelude.

(** The three stages, on [p = tilepat | (high << 8)]. *)
Definition interleave_stages (p : Z) : Z :=
  let p := (p .& 0xF00F) .| ((p .& 0x0F00) >> 4) .| ((p .& 0x00F0) << 4) in
  let p := (p .& 0xC3C3) .| ((p .& 0x3030) >> 2) .| ((p .& 0x0C0C) << 2) in
  (p .& 0x9999) .| ((p .& 0x4444) >> 1) .| ((p .& 0x2222) << 1).

Definition interleave (lo hi : Z) : Z := interleave_stages (lo .| (hi << 8)).

(** Reference: bit [k] of each plane placed at [2k] and [2k+1]. *)
Fixpoint interleave_ref (n : nat) (lo hi : Z) : Z :=
  match n with
  | O => 0
  | S k => interleave_ref k lo hi
           .| (Z.b2z (Z.testbit lo (Z.of_nat k)) << (2 * Z.of_nat k))
           .| (Z.b2z (Z.testbit hi (Z.of_nat k)) << (2 * Z.of_nat k + 1))
  end.

(** The two-bit pixel [k] of an interleaved row, as [render_pixel] reads
    it: [(pattern >> (k*2)) & 3]. *)
Definition pixel_of (pat k : Z) : Z := (pat >> (k * 2)) .& 3.

(** Inverse of the interleave: the even and the odd bits. *)
Fixpoint deinterleave (n : nat) (p : Z) : Z * Z :=
  match n with
  | O => (0, 0)
  | S k => let '(lo, hi) := deinterleave k p in
           (lo .| (Z.b2z (Z.testbit p (2 * Z.of_nat k)) << Z.of_nat k),
            hi .| (Z.b2z (Z.testbit p (2 * Z.of_nat k + 1)) << Z.of_nat k))
  end.

(** ** Exhaustive checks *)

Definition check_all (f : Z -> Z -> bool) : bool :=
  forallb (fun lo => forallb (fun hi => f lo hi) (zseq 256)) (zseq 256).

Lemma check_all_spec f :
  check_all f = true -> forall lo hi, 0 <= lo < 256 -> 0 <= hi < 256 -> f lo hi = true.
Proof.
  unfold check_all. intros H lo hi Hlo Hhi.
  apply (forallb_zseq (fun hi => f lo hi) 256); [|lia].
  apply (forallb_zseq (fun lo => forallb (fun hi => f lo hi) (zseq 256)) 256); [exact H | lia].
Qed.

Lemma interleave_ref_check :
  check_all (fun lo hi => interleave lo hi =? interleave_ref 8 lo hi) = true.
Proof. vm_compute. reflexivity. Qed.

Lemma interleave_pixel_check :
  check_all (fun lo hi =>
    forallb (fun k => pixel_of (interleave lo hi) k =?
                      Z.b2z (Z.testbit lo k) + 2 * Z.b2z (Z.testbit hi k)) (zseq 8)) = true.
Proof. vm_compute. reflexivity. Qed.

Lemma deinterleave_check :
  check_all (fun lo hi =>
    let '(l, h) := deinterleave 8 (interleave lo hi) in (l =? lo) && (h =? hi)) = true.
Proof. vm_compute. reflexivity. Qed.

(** ** Properties *)

(** C11: the swap-mask routine of phase 7 equals the bit-by-bit reference
    interleave on every pair of pattern bytes. *)
Theorem interleave_equiv lo hi :
  0 <= lo < 256 -> 0 <= hi < 256 -> interleave lo hi = interleave_ref 8 lo hi.
Proof.
  intros Hlo Hhi. apply Z.eqb_eq.
  exact (check_all_spec _ interleave_ref_check lo hi Hlo Hhi).
Qed.

Lemma interleave_equiv_witness :
  (0 <= 0x3C < 256 /\ 0 <= 0xA5 < 256) /\ interleave 0x3C 0xA5 = interleave_ref 8 0x3C 0xA5.
Proof. split; [lia | apply interleave_equiv; lia]. Defined.

(** C12: pixel [k] (0..7, bit 7 leftmost) of an interleaved row is bit [k]
    of the low plane plus twice bit [k] of the high plane. *)
Theorem interleave_pixel lo hi k :
  0 <= lo < 256 -> 0 <= hi < 256 -> 0 <= k < 8 ->
  pixel_of (interleave lo hi) k = Z.b2z (Z.testbit lo k) + 2 * Z.b2z (Z.testbit hi k).
Proof.
  intros Hlo Hhi Hk. apply Z.eqb_eq.
  pose proof (check_all_spec _ interleave_pixel_check lo hi Hlo Hhi) as H.
  exact (forallb_zseq _ 8 H k Hk).
Qed.

Lemma interleave_pixel_witness :
  (0 <= 0x81 < 256 /\ 0 <= 0x01 < 256 /\ 0 <= 7 < 8) /\
  pixel_of (interleave 0x81 0x01) 7 = Z.b2z (Z.testbit 0x81 7) + 2 * Z.b2z (Z.testbit 0x01 7).
Proof. split; [lia | apply interleave_pixel; lia]. Defined.


