(* ===== verification/Render.v ===== *)
(** The background fetch pipeline and the sprite evaluation of
    [Ppu::rendering_tick] (src/ppu.cpp, lines 153-252).

    The first [switch (x % 8)] is one definition per beat phase; the
    fall-through of [case 2] into [case 0] is [phase2] calling [phase0].
    The second switch, the round-robin walk of primary OAM on odd beats
    64..255, is [sprite_eval].  [rendering_tick] runs the two in the
    order of the source. *)

From S2P Require Import Prelude Regs State Mmap Lifecycle Interleave.

(** [0x10FFFF & (1u << (x>>4))]: true on beats 0..255 and 320..335. *)
Definition tile_decode_mode (x : Z) : bool := negb ((0x10FFFF .& (1 << (x >> 4))) =? 0).

Definition ppu_x (p : Ppu) : Z := p.(tm).(x).
Definition ppu_scanline (p : Ppu) : Z := p.(tm).(scanline).

(** [case 0]: point at the nametable; sprite and scroll resets. *)
Definition phase0 (p : Ppu) : Ppu :=
  let p := with_bg (set_ioaddr (0x2000 + (va p raw .& 0xFFF))) p in
  let p := if ppu_x p =? 0 then
             let p := with_sp (fun s => set_sprinpos 0 (set_sproutpos 0 s)) p in
             if flag p ShowSP then upd_reg OAMaddr 0 p else p
           else p in
  if negb (flag p ShowBG) then p else
  let p := if (ppu_x p =? 304) && (ppu_scanline p =? -1) then upd_vaddr raw (sc p raw) p else p in
  if ppu_x p =? 256 then
    let p := upd_vaddr xcoarse (sc p xcoarse) p in
    let p := upd_vaddr basenta_h (sc p basenta_h) p in
    with_sp (set_sprrenpos 0) p
  else p.

(** [case 1]: odd-frame shortening, pattern address of the fetched tile,
    and the push of the previous tile into the shift registers. *)
Definition phase1 (p : Ppu) : Ppu :=
  let p := if (ppu_x p =? 337) && (ppu_scanline p =? -1) && p.(tm).(even_odd_toggle)
              && flag p ShowBG && bool_decide (p.(mode_) = NTSC)
           then with_tm (set_scanline_end 340) p else p in
  let p := with_bg (set_pat_addr (0x1000 * rg p BGaddr + 16 * mmap p p.(bg).(ioaddr) + va p yfine)) p in
  if negb (tile_decode_mode (ppu_x p)) then p else
  let p := with_bg (set_bg_shift_pat (u32 ((p.(bg).(bg_shift_pat) >> 16) + 0x00010000 * p.(bg).(tilepat)))) p in
  with_bg (set_bg_shift_attr (u32 ((p.(bg).(bg_shift_attr) >> 16) + 0x55550000 * p.(bg).(tileattr)))) p.

(** [case 2]: point at the attribute table; outside tile decoding it
    falls through to [case 0]. *)
Definition phase2 (p : Ppu) : Ppu :=
  let p := with_bg (set_ioaddr (0x23C0 + 0x400 * va p basenta + 8 * (va p ycoarse / 4) + va p xcoarse / 4)) p in
  if tile_decode_mode (ppu_x p) then p else phase0 p.

(** [++vaddr.xcoarse], switching the horizontal nametable on wrap. *)
Definition incr_xcoarse (p : Ppu) : Ppu :=
  let p := upd_vaddr xcoarse (va p xcoarse + 1) p in
  if va p xcoarse =? 0 then upd_vaddr basenta_h (1 - va p basenta_h) p else p.

(** [if (!++vaddr.yfine && ++vaddr.ycoarse == 30)]: fine Y, carried into
    coarse Y, which wraps at 30 switching the vertical nametable. *)
Definition incr_y (p : Ppu) : Ppu :=
  let p := upd_vaddr yfine (va p yfine + 1) p in
  if negb (va p yfine =? 0) then p else
  let p := upd_vaddr ycoarse (va p ycoarse + 1) p in
  if negb (va p ycoarse =? 30) then p else
  let p := upd_vaddr ycoarse 0 p in
  upd_vaddr basenta_v (1 - va p basenta_v) p.

(** Row [y] of a sprite's pattern, as [case 3] addresses it. *)
Definition sprite_pat_addr (p : Ppu) (o : Oam.t) : Z :=
  let y := u32 (ppu_scanline p - o.(Oam.y)) in
  let y := if negb ((o.(Oam.attr) .& 0x80) =? 0)
           then Z.lxor y (if flag p SPsize then 15 else 7) else y in
  0x1000 * (if flag p SPsize then o.(Oam.index) .& 0x01 else rg p SPaddr)
  + 0x10 * (if flag p SPsize then o.(Oam.index) .& 0xFE else o.(Oam.index) .& 0xFF)
  + ((y .& 7) + (y .& 8) * 2).

(** [case 3]: attribute fetch and scroll increments while decoding tiles;
    otherwise copy the next selected sprite to [OAM3] and address its row. *)
Definition phase3 (p : Ppu) : Ppu :=
  if tile_decode_mode (ppu_x p) then
    let sh := (va p xcoarse .& 2) + 2 * (va p ycoarse .& 2) in
    let p := with_bg (set_tileattr ((mmap p p.(bg).(ioaddr) >> sh) .& 3)) p in
    let p := incr_xcoarse p in
    if ppu_x p =? 251 then incr_y p else p
  else if p.(sp).(sprrenpos) <? p.(sp).(sproutpos) then
    let k := p.(sp).(sprrenpos) .& 0x7 in
    let o := p.(mm).(OAM2) !!! k in
    let p := with_mm (fun m => set_OAM3 (<[k := o]> m.(OAM3)) m) p in
    with_bg (set_pat_addr (sprite_pat_addr p o)) p
  else p.

(** [case 5]: low pattern byte. *)
Definition phase5 (p : Ppu) : Ppu :=
  with_bg (set_tilepat (mmap p (p.(bg).(pat_addr) .| 0))) p.

(** [case 7]: high pattern byte, interleave, and for sprites the store
    into [OAM3] and the move to the next sprite. *)
Definition phase7 (p : Ppu) : Ppu :=
  let w := p.(bg).(tilepat) .| (mmap p (p.(bg).(pat_addr) .| 8) << 8) in
  let p := with_bg (set_tilepat (u16 (interleave_stages w))) p in
  if negb (tile_decode_mode (ppu_x p)) && (p.(sp).(sprrenpos) <? p.(sp).(sproutpos)) then
    let k := p.(sp).(sprrenpos) .& 0x7 in
    let p := with_mm (fun m => set_OAM3 (<[k := Oam.set_pattern p.(bg).(tilepat) (m.(OAM3) !!! k)]> m.(OAM3)) m) p in
    with_sp (fun s => set_sprrenpos (s.(sprrenpos) + 1) s) p
  else p.

Definition fetch_phase (p : Ppu) : Ppu :=
  match ppu_x p mod 8 with
  | 0 => phase0 p | 1 => phase1 p | 2 => phase2 p | 3 => phase3 p
  | 5 => phase5 p | 7 => phase7 p | _ => p
  end.

(** Update of field [f] of [OAM2[sproutpos]], guarded by [sproutpos < 8]. *)
Definition publish (set : Z -> Oam.t -> Oam.t) (v : Z) (p : Ppu) : Ppu :=
  let k := p.(sp).(sproutpos) in
  if k <? 8 then with_mm (fun m => set_OAM2 (<[k := set v (m.(OAM2) !!! k)]> m.(OAM2)) m) p
  else p.

(** The second switch: on odd beats 64..255 the case is [OAMaddr++ & 3]. *)
Definition sprite_eval (p : Ppu) : Ppu :=
  let x := ppu_x p in
  if (64 <=? x) && (x <? 256) && (x mod 2 =? 1) then
    let sel := rg p OAMaddr .& 3 in
    let p := upd_reg OAMaddr (rg p OAMaddr + 1) p in
    let t := p.(sp).(sprtmp) in
    match sel with
    | 0 =>
        if 64 <=? p.(sp).(sprinpos) then upd_reg OAMaddr 0 p else
        let p := with_sp (fun s => set_sprinpos (s.(sprinpos) + 1) s) p in
        let p := publish Oam.set_y t p in
        let p := publish Oam.set_sprindex (rg p OAMindex) p in
        let y1 := t in
        let y2 := t + (if flag p SPsize then 16 else 8) in
        if (y1 <=? ppu_scanline p) && (ppu_scanline p <? y2) then p
        else upd_reg OAMaddr (if negb (p.(sp).(sprinpos) =? 2) then rg p OAMaddr + 3 else 8) p
    | 1 => publish Oam.set_index t p
    | 2 => publish Oam.set_attr t p
    | _ =>
        let p := publish Oam.set_x t p in
        let p := if p.(sp).(sproutpos) <? 8
                 then with_sp (fun s => set_sproutpos (s.(sproutpos) + 1) s) p
                 else upd_reg SPoverflow 1 p in
        if p.(sp).(sprinpos) =? 2 then upd_reg OAMaddr 8 p else p
    end
  else with_sp (set_sprtmp (p.(mm).(OAM) !!! rg p OAMaddr)) p.

Definition rendering_tick (p : Ppu) : Ppu := sprite_eval (fetch_phase p).

(** ** The sprite pipeline's safety invariant *)

(** Counters within their bounds, and [OAM2]/[OAM3] written only at
    indices 0..7. *)
Definition spr_wf (p : Ppu) : Prop :=
  0 <= p.(sp).(sprinpos) <= 64 /\ 0 <= p.(sp).(sproutpos) <= 8 /\
  0 <= p.(sp).(sprrenpos) <= 8 /\
  keys_below p.(mm).(OAM2) 8 /\ keys_below p.(mm).(OAM3) 8.

Lemma land7_range z : 0 <= z .& 0x7 < 8.
Proof. mask_to_mod. apply Z.mod_pos_bound. lia. Qed.

#[export] Hint Resolve land7_range : ppu.

Ltac spr_wf_step :=
  solve [unfold spr_wf in *; cbn -[Z.land Z.lor Z.shiftl Z.shiftr fget fset mmap] in *;
         intuition (eauto with ppu; try lia)].

Lemma upd_reg_spr_wf f v p : spr_wf p -> spr_wf (upd_reg f v p).
Proof. spr_wf_step. Qed.
Lemma upd_vaddr_spr_wf f v p : spr_wf p -> spr_wf (upd_vaddr f v p).
Proof. spr_wf_step. Qed.
Lemma with_bg_spr_wf f p : spr_wf p -> spr_wf (with_bg f p).
Proof. spr_wf_step. Qed.
Lemma with_tm_spr_wf f p : spr_wf p -> spr_wf (with_tm f p).
Proof. spr_wf_step. Qed.

#[export] Hint Resolve upd_reg_spr_wf upd_vaddr_spr_wf with_bg_spr_wf with_tm_spr_wf : ppu.

Lemma phase0_spr_wf p : spr_wf p -> spr_wf (phase0 p).
Proof. intros H. unfold phase0. destruct_ifs; spr_wf_step. Qed.

Lemma phase1_spr_wf p : spr_wf p -> spr_wf (phase1 p).
Proof. intros H. unfold phase1. destruct_ifs; eauto 6 with ppu. Qed.

Lemma phase2_spr_wf p : spr_wf p -> spr_wf (phase2 p).
Proof. intros H. unfold phase2. destruct_ifs; [eauto with ppu | apply phase0_spr_wf; eauto with ppu]. Qed.

Lemma incr_xcoarse_spr_wf p : spr_wf p -> spr_wf (incr_xcoarse p).
Proof. intros H. unfold incr_xcoarse. destruct_ifs; eauto with ppu. Qed.

Lemma incr_y_spr_wf p : spr_wf p -> spr_wf (incr_y p).
Proof. intros H. unfold incr_y. destruct_ifs; eauto 6 with ppu. Qed.

#[export] Hint Resolve incr_xcoarse_spr_wf incr_y_spr_wf : ppu.

Lemma phase3_spr_wf p : spr_wf p -> spr_wf (phase3 p).
Proof. intros H. unfold phase3. destruct_ifs; try spr_wf_step; eauto 7 with ppu. Qed.

Lemma phase7_spr_wf p : spr_wf p -> spr_wf (phase7 p).
Proof. intros H. unfold phase7. destruct_ifs; spr_wf_step. Qed.

Lemma fetch_phase_spr_wf p : spr_wf p -> spr_wf (fetch_phase p).
Proof.
  intros H. unfold fetch_phase. case_match; auto;
    repeat case_match; auto using phase0_spr_wf, phase1_spr_wf, phase2_spr_wf,
      phase3_spr_wf, with_bg_spr_wf, phase7_spr_wf.
Qed.

Lemma publish_spr_wf set v p : spr_wf p -> spr_wf (publish set v p).
Proof. intros H. unfold publish. destruct_ifs; spr_wf_step. Qed.

#[export] Hint Resolve publish_spr_wf : ppu.

Lemma publish_sp set v p : (publish set v p).(sp) = p.(sp).
Proof. unfold publish. destruct_ifs; reflexivity. Qed.

Lemma upd_reg_sp f v p : (upd_reg f v p).(sp) = p.(sp).
Proof. reflexivity. Qed.

(** A change of the counters that keeps them in bounds keeps the invariant. *)
Lemma with_sp_spr_wf f p :
  spr_wf p ->
  (let s := f p.(sp) in 0 <= s.(sprinpos) <= 64 /\ 0 <= s.(sproutpos) <= 8 /\ 0 <= s.(sprrenpos) <= 8) ->
  spr_wf (with_sp f p).
Proof. spr_wf_step. Qed.

Lemma sprite_eval_spr_wf p : spr_wf p -> spr_wf (sprite_eval p).
Proof.
  intros H. unfold sprite_eval.
  destruct ((64 <=? ppu_x p) && (ppu_x p <? 256) && (ppu_x p mod 2 =? 1)); [|spr_wf_step].
  assert (Hq : spr_wf (upd_reg OAMaddr (rg p OAMaddr + 1) p)) by auto with ppu.
  remember (upd_reg OAMaddr (rg p OAMaddr + 1) p) as q eqn:Eq.
  assert (Hs : q.(sp) = p.(sp)) by (subst; reflexivity). clear Eq.
  pose proof Hq as (Hi & Ho & Hr & _).
  repeat case_match; destruct_ifs; repeat (apply upd_reg_spr_wf || apply publish_spr_wf);
    try (apply with_sp_spr_wf; [eauto with ppu | cbn; rewrite ?publish_sp in *; lia]);
    eauto with ppu.
Qed.

(** C14: one beat of [rendering_tick] keeps the sprite counters within
    their bounds (sprinpos <= 64, sproutpos <= 8, sprrenpos <= 8) and
    writes [OAM2] and [OAM3] only at indices 0..7. *)
Theorem rendering_tick_spr_wf p : spr_wf p -> spr_wf (rendering_tick p).
Proof. intros H. apply sprite_eval_spr_wf, fetch_phase_spr_wf, H. Qed.

Lemma rendering_tick_spr_wf_witness :
  spr_wf ppu_powered /\ spr_wf (rendering_tick ppu_powered).
Proof.
  assert (H : spr_wf ppu_powered).
  { refine (conj _ (conj _ (conj _ (conj _ _)))); try (cbn; lia);
      intros j [v Hv]; vm_compute in Hv; discriminate. }
  split; [exact H | apply rendering_tick_spr_wf, H].
Defined.

(** ** Tile decoding window *)

Lemma tile_decode_mode_check :
  forallb (fun x => Bool.eqb (tile_decode_mode x) ((x <? 256) || ((320 <=? x) && (x <? 336))))
    (zseq 341) = true.
Proof. vm_compute. reflexivity. Qed.

(** C15: on the beats of a scanline (0..340) tiles are decoded exactly on
    beats 0..255 and 320..335; 256..319 fetch sprites and 336..340 idle. *)
Theorem tile_decode_window x :
  0 <= x <= 340 -> tile_decode_mode x = true <-> x < 256 \/ 320 <= x < 336.
Proof.
  intros Hx. pose proof (forallb_zseq _ 341 tile_decode_mode_check x ltac:(lia)) as H.
  apply Bool.eqb_prop in H. rewrite H, orb_true_iff, andb_true_iff, Z.ltb_lt, Z.leb_le, Z.ltb_lt.
  lia.
Qed.

Lemma tile_decode_window_witness :
  0 <= 330 <= 340 /\ (tile_decode_mode 330 = true <-> 330 < 256 \/ 320 <= 330 < 336).
Proof. split; [lia | apply tile_decode_window; lia]. Defined.

(** ** Scroll increments *)

Ltac vaddr_simpl :=
  autorewrite with fields in *;
  cbn [snd layout scrollfield_layout scrollfield_pos] in *.

(** [++vaddr.xcoarse] wraps coarse X modulo 32 and switches the
    horizontal nametable exactly when coarse X wraps from 31; the vertical
    fields are untouched. *)
Lemma incr_xcoarse_spec p :
  va (incr_xcoarse p) xcoarse = (va p xcoarse + 1) mod 32 /\
  va (incr_xcoarse p) basenta_h =
    (if va p xcoarse =? 31 then 1 - va p basenta_h else va p basenta_h) /\
  va (incr_xcoarse p) ycoarse = va p ycoarse /\ va (incr_xcoarse p) yfine = va p yfine /\
  va (incr_xcoarse p) basenta_v = va p basenta_v.
Proof.
  pose proof (fget_range xcoarse p.(lt).(vaddr)) as Hx. pose proof (fget_range basenta_h p.(lt).(vaddr)) as Hh.
  cbn [snd layout scrollfield_layout scrollfield_pos] in Hx, Hh. fold (va p xcoarse) (va p basenta_h) in Hx, Hh.
  unfold incr_xcoarse. vaddr_simpl.
  destruct_ifs; vaddr_simpl; destruct (Z.eqb_spec (va p xcoarse) 31);
    repeat split; zmod_lia.
Qed.

Lemma va_range f p : 0 <= va p f < 2 ^ snd (layout f).
Proof. apply fget_range. Qed.

(** At beat 251 the fine-Y increment wraps fine Y modulo 8 and
    carries into coarse Y; coarse Y wraps from 29 to 0 switching the
    vertical nametable, and from 31 to 0 without switching it; the
    horizontal fields are untouched. *)
Lemma incr_y_spec p :
  let yf := va p yfine in let yc := va p ycoarse in let bv := va p basenta_v in
  va (incr_y p) yfine = (yf + 1) mod 8 /\
  va (incr_y p) ycoarse = (if yf =? 7 then (if yc =? 29 then 0 else (yc + 1) mod 32) else yc) /\
  va (incr_y p) basenta_v = (if (yf =? 7) && (yc =? 29) then 1 - bv else bv) /\
  va (incr_y p) xcoarse = va p xcoarse /\ va (incr_y p) basenta_h = va p basenta_h.
Proof.
  cbv zeta.
  pose proof (va_range yfine p) as Hf. pose proof (va_range ycoarse p) as Hc.
  pose proof (va_range basenta_v p) as Hv.
  cbn [snd layout scrollfield_layout scrollfield_pos] in Hf, Hc, Hv.
  unfold incr_y. vaddr_simpl.
  destruct_ifs; vaddr_simpl; destruct (Z.eqb_spec (va p yfine) 7), (Z.eqb_spec (va p ycoarse) 29);
    cbn [andb]; repeat split; zmod_lia.
Qed.

(** Row arithmetic of [case 3]: [(y & 7) + (y & 8) * 2] after the flip. *)
Definition row_offset_ok (sz flip : bool) (r : Z) : bool :=
  let h := if sz then 16 else 8 in
  let y := if flip then Z.lxor r (if sz then 15 else 7) else r in
  let r' := if flip then h - 1 - r else r in
  implb (r <? h) ((y .& 7) + (y .& 8) * 2 =? 16 * (r' / 8) + r' mod 8).

Lemma row_offset_check :
  forallb (fun r => row_offset_ok true true r && row_offset_ok true false r &&
                    row_offset_ok false true r && row_offset_ok false false r) (zseq 16) = true.
Proof. vm_compute. reflexivity. Qed.

Lemma row_offset (sz flip : bool) (r : Z) :
  0 <= r < (if sz then 16 else 8) ->
  let h := if sz then 16 else 8 in
  let y := if flip then Z.lxor r (if sz then 15 else 7) else r in
  let r' := if flip then h - 1 - r else r in
  (y .& 7) + (y .& 8) * 2 = 16 * (r' / 8) + r' mod 8.
Proof.
  intros Hr. assert (Hr16 : 0 <= r < Z.of_nat 16) by (destruct sz; lia).
  pose proof (forallb_zseq _ 16 row_offset_check r Hr16) as H. cbv beta in H.
  assert (Hok : row_offset_ok sz flip r = true)
    by (destruct sz, flip; rewrite ?andb_true_iff in H; tauto).
  unfold row_offset_ok in Hok. assert (Hlt : (r <? (if sz then 16 else 8)) = true) by (apply Z.ltb_lt; lia).
  rewrite Hlt in Hok.
  apply Z.eqb_eq in Hok. exact Hok.
Qed.

Lemma index_bits_check :
  forallb (fun i => (i .& 0x01 =? i mod 2) && (i .& 0xFE =? i - i mod 2) && (i .& 0xFF =? i))
    (zseq 256) = true.
Proof. vm_compute. reflexivity. Qed.

Lemma index_bits i : 0 <= i < 256 ->
  i .& 0x01 = i mod 2 /\ i .& 0xFE = i - i mod 2 /\ i .& 0xFF = i.
Proof.
  intros Hi. pose proof (forallb_zseq _ 256 index_bits_check i ltac:(lia)) as H.
  cbv beta in H. rewrite !andb_true_iff, !Z.eqb_eq in H. tauto.
Qed.

(** C18: for a sprite covering the scanline, [case 3] addresses its row:
    with 8x8 sprites, tile [index] of the half chosen by SPaddr, row
    [scanline - y] (mirrored to [7 - row] when attribute bit 7 is set);
    with 8x16 sprites, the half chosen by bit 0 of [index] and the rows 8..15
    in the following tile. *)
Theorem sprite_pat_addr_spec p o :
  let r := ppu_scanline p - o.(Oam.y) in
  let h := if flag p SPsize then 16 else 8 in
  0 <= r < h -> 0 <= o.(Oam.index) < 256 ->
  let r' := if negb ((o.(Oam.attr) .& 0x80) =? 0) then h - 1 - r else r in
  sprite_pat_addr p o =
  0x1000 * (if flag p SPsize then o.(Oam.index) mod 2 else rg p SPaddr)
  + 0x10 * ((if flag p SPsize then o.(Oam.index) - o.(Oam.index) mod 2 else o.(Oam.index)) + r' / 8)
  + r' mod 8.
Proof.
  cbv zeta. intros Hr Hi. unfold sprite_pat_addr.
  destruct (index_bits _ Hi) as (E1 & E2 & E3). rewrite E1, E2, E3.
  rewrite trunc_small by (destruct (flag p SPsize); lia).
  pose proof (row_offset (flag p SPsize) (negb ((o.(Oam.attr) .& 0x80) =? 0)) _ Hr) as R.
  cbv zeta in R. destruct (flag p SPsize), (negb _); cbn in R |- *; lia.
Qed.

Lemma sprite_pat_addr_spec_witness :
  let p := with_tm (set_scanline 100) ppu_powered in
  let o := Oam.mk 0 97 0x42 0x80 0 0 in
  (0 <= ppu_scanline p - o.(Oam.y) < (if flag p SPsize then 16 else 8) /\
   0 <= o.(Oam.index) < 256) /\
  sprite_pat_addr p o =
  0x1000 * (if flag p SPsize then o.(Oam.index) mod 2 else rg p SPaddr)
  + 0x10 * ((if flag p SPsize then o.(Oam.index) - o.(Oam.index) mod 2 else o.(Oam.index))
            + (if negb ((o.(Oam.attr) .& 0x80) =? 0)
               then (if flag p SPsize then 16 else 8) - 1 - (ppu_scanline p - o.(Oam.y))
               else ppu_scanline p - o.(Oam.y)) / 8)
  + (if negb ((o.(Oam.attr) .& 0x80) =? 0)
     then (if flag p SPsize then 16 else 8) - 1 - (ppu_scanline p - o.(Oam.y))
     else ppu_scanline p - o.(Oam.y)) mod 8.
Proof.
  intros p o. assert (H : 0 <= ppu_scanline p - o.(Oam.y) < (if flag p SPsize then 16 else 8))
    by (assert (Hv : ppu_scanline p - o.(Oam.y) = 3 /\ flag p SPsize = false)
          by (split; vm_compute; reflexivity);
        destruct Hv as [-> ->]; lia).
  split; [split; [exact H | cbn; lia] | apply (sprite_pat_addr_spec p o H); cbn; lia].
Defined.

(** C19: with background rendering off, no beat of [rendering_tick]
    lowers [sprrenpos]: its only reset sits behind [if (!reg.ShowBG)
    break;] in [case 0], while [sproutpos] is still reset at x = 0. *)
Theorem sprrenpos_not_reset_without_bg p :
  flag p ShowBG = false ->
  p.(sp).(sprrenpos) <= (rendering_tick p).(sp).(sprrenpos).
Proof.
  intros Hbg. unfold rendering_tick.
  assert (Hs : forall q, (sprite_eval q).(sp).(sprrenpos) = q.(sp).(sprrenpos)).
  { intros q. unfold sprite_eval, publish. repeat case_match; reflexivity. }
  rewrite Hs. unfold fetch_phase.
  assert (H0 : forall q, flag q ShowBG = false -> (phase0 q).(sp).(sprrenpos) = q.(sp).(sprrenpos)).
  { intros q Hq. unfold phase0.
    set (q2 := if ppu_x _ =? 0 then _ else _).
    assert (Hf : flag q2 ShowBG = false).
    { subst q2. repeat case_match; rewrite ?flag_upd_reg_other by reflexivity; exact Hq. }
    rewrite Hf. cbn [negb]. subst q2. repeat case_match; reflexivity. }
  assert (Hp : forall q, (phase1 q).(sp) = q.(sp) /\ (phase3 q).(sp) = q.(sp)).
  { intros q. unfold phase1, phase3, incr_xcoarse, incr_y. split; repeat case_match; reflexivity. }
  repeat case_match; try lia.
  - rewrite H0 by exact Hbg; lia.
  - unfold phase7; cbv zeta; case_match; cbn; lia.
  - unfold phase5; cbn; lia.
  - rewrite (proj2 (Hp p)); lia.
  - unfold phase2; cbv zeta; case_match; [cbn; lia | rewrite H0 by exact Hbg; cbn; lia].
  - rewrite (proj1 (Hp p)); lia.
Qed.

Lemma sprrenpos_not_reset_without_bg_witness :
  flag ppu_powered ShowBG = false /\
  ppu_powered.(sp).(sprrenpos) <= (rendering_tick ppu_powered).(sp).(sprrenpos).
Proof.
  assert (H : flag ppu_powered ShowBG = false) by (vm_compute; reflexivity).
  split; [exact H | apply sprrenpos_not_reset_without_bg, H].
Defined.

(** C20: at beat 0 of a line with background rendering off, [case 0]
    resets [sproutpos] to 0 but leaves [sprrenpos] as it was: a state with
    [sprrenpos > 0] leaves the beat with [sprrenpos > sproutpos], the order
    the pixel loop over [OAM3[0..sprrenpos)] assumes is broken. *)
Theorem line_start_without_bg p :
  ppu_x p = 0 -> flag p ShowBG = false ->
  (rendering_tick p).(sp).(sproutpos) = 0 /\
  (rendering_tick p).(sp).(sprrenpos) = p.(sp).(sprrenpos).
Proof.
  intros Hx Hbg. unfold rendering_tick, fetch_phase. rewrite Hx. change (0 mod 8) with 0.
  assert (Hx0 : ppu_x (phase0 p) = 0).
  { unfold phase0. destruct_ifs; exact Hx. }
  unfold sprite_eval. rewrite Hx0. cbn [Z.leb Z.compare andb sp with_sp set_sprtmp sproutpos sprrenpos].
  unfold phase0. set (q := with_bg _ p). assert (Hq : ppu_x q = 0) by exact Hx.
  rewrite Hq, Z.eqb_refl.
  set (r := with_sp _ q). assert (Hr : flag r ShowBG = false) by exact Hbg.
  destruct (flag r ShowSP).
  - rewrite flag_upd_reg_other by reflexivity. rewrite Hr. cbn. auto.
  - rewrite Hr. cbn. auto.
Qed.

Lemma line_start_without_bg_witness :
  let p := with_sp (set_sprrenpos 3) ppu_powered in
  (ppu_x p = 0 /\ flag p ShowBG = false) /\
  (rendering_tick p).(sp).(sproutpos) = 0 /\ (rendering_tick p).(sp).(sprrenpos) = 3.
Proof.
  intros p. assert (H : ppu_x p = 0 /\ flag p ShowBG = false) by (split; vm_compute; reflexivity).
  split; [exact H | apply (line_start_without_bg p); apply H].
Defined.

(** ** What a pipeline beat does to the beat counter *)

Ltac keeps_tm := repeat case_match; split; reflexivity.

Lemma phase0_tm p : (phase0 p).(tm) = p.(tm) /\ (phase0 p).(mode_) = p.(mode_).
Proof. unfold phase0. keeps_tm. Qed.

Lemma phases_tm p :
  ((phase2 p).(tm) = p.(tm) /\ (phase2 p).(mode_) = p.(mode_)) /\
  ((phase3 p).(tm) = p.(tm) /\ (phase3 p).(mode_) = p.(mode_)) /\
  ((phase7 p).(tm) = p.(tm) /\ (phase7 p).(mode_) = p.(mode_)) /\
  (sprite_eval p).(tm) = p.(tm) /\ (sprite_eval p).(mode_) = p.(mode_).
Proof.
  split; [unfold phase2; case_match; [split; reflexivity | apply (phase0_tm (with_bg _ p))]|].
  split; [unfold phase3, incr_xcoarse, incr_y; keeps_tm|].
  split; [unfold phase7; keeps_tm|].
  unfold sprite_eval, publish. keeps_tm.
Qed.

Lemma fetch_phase_cases p :
  fetch_phase p = phase1 p \/ fetch_phase p = phase0 p \/ fetch_phase p = phase2 p \/
  fetch_phase p = phase3 p \/ fetch_phase p = phase5 p \/ fetch_phase p = phase7 p \/
  fetch_phase p = p.
Proof. unfold fetch_phase. repeat case_match; tauto. Qed.

Lemma phase1_tm p : exists b : bool,
  (phase1 p).(tm) = (if b then set_scanline_end 340 p.(tm) else p.(tm)) /\
  (phase1 p).(mode_) = p.(mode_) /\
  (b = true -> ppu_x p = 337 /\ ppu_scanline p = -1 /\ p.(mode_) = NTSC).
Proof.
  unfold phase1. destruct ((ppu_x p =? 337) && _ && _ && _ && _) eqn:Ec.
  - exists true. rewrite !andb_true_iff, !Z.eqb_eq in Ec.
    destruct Ec as ((((Hx & Hs) & _) & _) & Hm). apply bool_decide_eq_true in Hm.
    case_match; refine (conj eq_refl (conj eq_refl _)); auto.
  - exists false. case_match; refine (conj eq_refl (conj eq_refl _)); discriminate.
Qed.

(** A pipeline beat leaves the beat counter alone, except [case 1] at
    x = 337 of the NTSC pre-render line, which shortens the line to 340. *)
Lemma rendering_tick_tm p : exists b : bool,
  (rendering_tick p).(tm) = (if b then set_scanline_end 340 p.(tm) else p.(tm)) /\
  (rendering_tick p).(mode_) = p.(mode_) /\
  (b = true -> ppu_x p = 337 /\ ppu_scanline p = -1 /\ p.(mode_) = NTSC).
Proof.
  unfold rendering_tick.
  destruct (phases_tm (fetch_phase p)) as (_ & _ & _ & -> & ->).
  destruct (phases_tm p) as ([E2 M2] & [E3 M3] & [E7 M7] & _).
  destruct (phase0_tm p) as [E0 M0].
  destruct (fetch_phase_cases p) as [-> | [-> | [-> | [-> | [-> | [-> | ->]]]]]];
    [apply phase1_tm | ..];
    exists false; (split; [|split; [|discriminate]]); auto.
Qed.

(** ** A pipeline beat leaves the open-bus latch and its countdown alone *)

Lemma rendering_tick_ob p :
  (rendering_tick p).(lt).(open_bus_) = p.(lt).(open_bus_) /\
  (rendering_tick p).(lt).(open_bus_decay_timer) = p.(lt).(open_bus_decay_timer).
Proof.
  assert (P0 : forall q, (phase0 q).(lt).(open_bus_) = q.(lt).(open_bus_) /\
               (phase0 q).(lt).(open_bus_decay_timer) = q.(lt).(open_bus_decay_timer))
    by (intros q; unfold phase0; keeps_tm).
  assert (Hs : forall q, (sprite_eval q).(lt).(open_bus_) = q.(lt).(open_bus_) /\
               (sprite_eval q).(lt).(open_bus_decay_timer) = q.(lt).(open_bus_decay_timer))
    by (intros q; unfold sprite_eval, publish; keeps_tm).
  unfold rendering_tick. destruct (Hs (fetch_phase p)) as [-> ->].
  destruct (fetch_phase_cases p) as [-> | [-> | [-> | [-> | [-> | [-> | ->]]]]]];
    try apply P0; try (split; reflexivity).
  - unfold phase1. keeps_tm.
  - unfold phase2. case_match; [split; reflexivity | apply (P0 (with_bg _ p))].
  - unfold phase3, incr_xcoarse, incr_y. keeps_tm.
  - unfold phase7. keeps_tm.
Qed.

(** ** A pipeline beat leaves the byte memories and the read buffer alone *)

Lemma rendering_tick_mem p :
  (rendering_tick p).(mm).(palette) = p.(mm).(palette) /\ (rendering_tick p).(mm).(OAM) = p.(mm).(OAM) /\
  (rendering_tick p).(nes_) = p.(nes_) /\ (rendering_tick p).(lt).(read_buffer) = p.(lt).(read_buffer).
Proof.
  assert (P0 : forall q, (phase0 q).(mm).(palette) = q.(mm).(palette) /\ (phase0 q).(mm).(OAM) = q.(mm).(OAM) /\
               (phase0 q).(nes_) = q.(nes_) /\ (phase0 q).(lt).(read_buffer) = q.(lt).(read_buffer))
    by (intros q; unfold phase0; repeat case_match; repeat split).
  assert (Hs : forall q, (sprite_eval q).(mm).(palette) = q.(mm).(palette) /\
               (sprite_eval q).(mm).(OAM) = q.(mm).(OAM) /\
               (sprite_eval q).(nes_) = q.(nes_) /\ (sprite_eval q).(lt).(read_buffer) = q.(lt).(read_buffer))
    by (intros q; unfold sprite_eval, publish; repeat case_match; repeat split).
  unfold rendering_tick. destruct (Hs (fetch_phase p)) as (-> & -> & -> & ->).
  destruct (fetch_phase_cases p) as [-> | [-> | [-> | [-> | [-> | [-> | ->]]]]]];
    try apply P0; try (repeat split; fail).
  - unfold phase1. repeat case_match; repeat split.
  - unfold phase2. case_match; [repeat split | apply (P0 (with_bg _ p))].
  - unfold phase3, incr_xcoarse, incr_y. repeat case_match; repeat split.
  - unfold phase7. repeat case_match; repeat split.
Qed.
