(* ===== verification/Pixel.v ===== *)
(** The pixel compositor [Ppu::render_pixel] (src/ppu.cpp, lines 254-308).

    One call picks the background pixel from the shift registers (or the
    palette-hack pixel), overlays the first opaque sprite of [OAM3], may
    raise SP0hit, looks the colour up in the palette and stores the host
    colour into the frame buffer.  The host conversion [IO::PutPixel] is
    outside [src/]: it is the interface [PixelOut], a parameter of every
    definition that stores a pixel.  The sprite loop with its [continue] and
    [break] is [sprite_scan] over the list [OAM3[0..sprrenpos)]; the
    abstract contract "the first opaque sprite in range decides" is
    [sprite_spec], and [sprite_scan_spec] proves the loop implements it. *)

From S2P Require Import Prelude Regs State Lifecycle Render.

(** [IO::PutPixel(x, scanline, colour, cycle_counter)]: the host colour. *)
Class PixelOut := PutPixel : Z -> Z -> Z -> Z -> Z.

(** [uint8_t(x+8) < 16]. *)
Definition edge (x : Z) : bool := u8 (x + 8) <? 16.

Definition show_bg (p : Ppu) : bool :=
  flag p ShowBG && (negb (edge (ppu_x p)) || flag p ShowBG8).
Definition show_sp (p : Ppu) : bool :=
  flag p ShowSP && (negb (edge (ppu_x p)) || flag p ShowSP8).

(** [15 - (((x&7) + fx + 8*!!(x&7)) & 15)]. *)
Definition xpos (x fx : Z) : Z :=
  15 - (((x .& 7) + fx + 8 * (if (x .& 7) =? 0 then 0 else 1)) .& 15).

(** The background [(pixel, attr)] before the sprites are overlaid. *)
Definition bg_sample (p : Ppu) : Z * Z :=
  if show_bg p then
    let xp := xpos (ppu_x p) (sc p xfine) in
    let pixel := (p.(bg).(bg_shift_pat) >> (xp * 2)) .& 3 in
    (pixel, (p.(bg).(bg_shift_attr) >> (xp * 2)) .& (if pixel =? 0 then 0 else 3))
  else if ((va p raw .& 0x3F00) =? 0x3F00) && negb (flag p ShowBGSP) then (va p raw, 0)
  else (0, 0).

(** One iteration of the sprite loop: [None] is [continue]; [Some (hit,
    pixel, attr)] is the [break] after the first opaque sprite pixel, with
    [hit] the sprite-0 condition. *)
Definition sprite_step (x pixel attr : Z) (s : Oam.t) : option (bool * Z * Z) :=
  let xdiff := u32 (x - s.(Oam.x)) in
  if 8 <=? xdiff then None else
  let xdiff := if (s.(Oam.attr) .& 0x40) =? 0 then 7 - xdiff else xdiff in
  let spritepixel := u8 ((s.(Oam.pattern) >> (xdiff * 2)) .& 3) in
  if spritepixel =? 0 then None else
  let hit := (x <? 255) && negb (pixel =? 0) && (s.(Oam.sprindex) =? 0) in
  if ((s.(Oam.attr) .& 0x20) =? 0) || (pixel =? 0)
  then Some (hit, spritepixel, (s.(Oam.attr) .& 3) + 4)
  else Some (hit, pixel, attr).

Fixpoint sprite_scan (x pixel attr : Z) (l : list Oam.t) : bool * Z * Z :=
  match l with
  | [] => (false, pixel, attr)
  | s :: l => match sprite_step x pixel attr s with
              | Some r => r
              | None => sprite_scan x pixel attr l
              end
  end.

(** [OAM3[0]], ..., [OAM3[sprrenpos-1]]. *)
Definition oam3_list (p : Ppu) : list Oam.t :=
  map (fun sno => p.(mm).(OAM3) !!! sno) (zseq (Z.to_nat p.(sp).(sprrenpos))).

(** Everything up to the palette lookup: the state with SP0hit raised when
    it is, and the 9-bit colour [pixel | (reg.EmpRGB << 6)]. *)
Definition compose_pixel (p : Ppu) : Ppu * Z :=
  let '(pixel, attr) := bg_sample p in
  let '(hit, pixel, attr) :=
    if show_sp p then sprite_scan (ppu_x p) pixel attr (oam3_list p) else (false, pixel, attr) in
  let p := if hit then upd_reg SP0hit 1 p else p in
  let pixel := (p.(mm).(palette) !!! ((attr * 4 + pixel) .& 0x1F))
                 .& (if flag p Grayscale then 0x30 else 0x3F) in
  (p, pixel .| (rg p EmpRGB << 6)).

(** Frame-buffer slot of the beat: [(scanline<<8) + x]. *)
Definition fb_index (p : Ppu) : Z := (ppu_scanline p << 8) + ppu_x p.

Definition render_pixel `{PixelOut} (p : Ppu) : Ppu :=
  let '(p, colour) := compose_pixel p in
  let pal := PutPixel (ppu_x p) (ppu_scanline p) colour p.(tm).(cycle_counter) in
  with_nes (fun n => set_frame_buffer (<[fb_index p := u32 (0xff000000 .| pal)]> n.(frame_buffer)) n) p.

(** ** Abstract contract of the sprite overlay *)

(** The column of sprite [s] under beat [x], when [x] is one of its eight
    columns (mirrored unless attribute bit 6 is set). *)
Definition sprite_column (x : Z) (s : Oam.t) : option Z :=
  let d := x - s.(Oam.x) in
  if (0 <=? d) && (d <? 8) then Some (if (s.(Oam.attr) .& 0x40) =? 0 then 7 - d else d) else None.

(** The sprite's non-transparent 2-bit pixel under beat [x], if any. *)
Definition sprite_opaque (x : Z) (s : Oam.t) : option Z :=
  c ← sprite_column x s;
  let px := (s.(Oam.pattern) >> (c * 2)) .& 3 in
  if px =? 0 then None else Some px.

(** The first sprite of the list with an opaque pixel under [x] decides:
    sprite-0 hit when the background pixel is opaque and [x < 255]; its
    pixel wins unless it asks to be behind an opaque background. *)
Definition overlay (x pixel attr : Z) (s : Oam.t) (px : Z) : bool * Z * Z :=
  let front := ((s.(Oam.attr) .& 0x20) =? 0) || (pixel =? 0) in
  ((x <? 255) && negb (pixel =? 0) && (s.(Oam.sprindex) =? 0),
   if front then px else pixel,
   if front then (s.(Oam.attr) .& 3) + 4 else attr).

Definition sprite_spec (x pixel attr : Z) (l : list Oam.t) : bool * Z * Z :=
  match head (omap (fun s => (fun px => (s, px)) <$> sprite_opaque x s) l) with
  | None => (false, pixel, attr)
  | Some (s, px) => overlay x pixel attr s px
  end.

(** ** The loop implements the contract *)

(** [unsigned xdiff = x - s.x; if (xdiff >= 8) continue;] rejects exactly
    the sprites left of [x] or more than 7 columns right of it, when the
    difference fits an [int]. *)
Lemma u32_window d :
  -2 ^ 31 <= d < 2 ^ 31 ->
  (8 <=? u32 d) = negb ((0 <=? d) && (d <? 8)) /\ (0 <= d < 8 -> u32 d = d).
Proof.
  intros Hd. unfold trunc. split.
  - destruct (Z.leb_spec 0 d).
    + rewrite Z.mod_small by lia. destruct (Z.ltb_spec d 8); destruct (Z.leb_spec 8 d); cbn; lia.
    + replace (d mod 2 ^ 32) with (d + 2 ^ 32)
        by (rewrite <- Z.mod_add with (b := 1) by lia; rewrite Z.mod_small; lia).
      destruct (Z.leb_spec 8 (d + 2 ^ 32)); cbn; lia.
  - intros. apply Z.mod_small. lia.
Qed.

Lemma land3_small z : u8 (z .& 3) = z .& 3.
Proof. apply trunc_small. mask_to_mod. pose proof (Z.mod_pos_bound z (2 ^ 2)). lia. Qed.

Lemma sprite_step_overlay x pixel attr s :
  0 <= x <= 340 -> 0 <= s.(Oam.x) < 256 ->
  sprite_step x pixel attr s = overlay x pixel attr s <$> sprite_opaque x s.
Proof.
  intros Hx Hs. unfold sprite_step, sprite_opaque, sprite_column.
  destruct (u32_window (x - s.(Oam.x)) ltac:(lia)) as [Hw Hsmall].
  rewrite Hw. destruct (Z.leb_spec 0 (x - s.(Oam.x))), (Z.ltb_spec (x - s.(Oam.x)) 8);
    cbn [andb negb]; try reflexivity.
  rewrite Hsmall by lia. cbn. rewrite land3_small. unfold overlay.
  destruct (Z.shiftr (Oam.pattern s) _ .& 3 =? 0); [reflexivity|].
  destruct ((Oam.attr s .& 32 =? 0) || (pixel =? 0)); reflexivity.
Qed.

(** C21: for beats of a scanline and sprites at byte positions, the loop
    over [OAM3[0..sprrenpos)] with its unsigned [xdiff] test, [continue]
    and [break] computes the contract: the first sprite whose pixel under
    [x] is opaque decides the pixel, the palette half and the sprite-0 hit. *)
Theorem sprite_scan_spec x pixel attr l :
  0 <= x <= 340 -> Forall (fun s => 0 <= s.(Oam.x) < 256) l ->
  sprite_scan x pixel attr l = sprite_spec x pixel attr l.
Proof.
  intros Hx Hl. unfold sprite_spec. induction Hl as [|s l Hs Hl IH]; [reflexivity|].
  cbn [sprite_scan omap list_omap]. rewrite sprite_step_overlay by auto.
  destruct (sprite_opaque x s) as [px|]; [reflexivity | exact IH].
Qed.

Definition sprite_scan_example : list Oam.t :=
  [Oam.mk 3 10 0 0 200 0xFFFF; Oam.mk 0 10 0 0x20 98 0x5555; Oam.mk 1 10 0 1 100 0xAAAA].

Lemma sprite_scan_spec_witness :
  (0 <= 100 <= 340 /\ Forall (fun s => 0 <= s.(Oam.x) < 256) sprite_scan_example) /\
  sprite_scan 100 2 1 sprite_scan_example = sprite_spec 100 2 1 sprite_scan_example.
Proof.
  assert (H : 0 <= 100 <= 340 /\ Forall (fun s => 0 <= s.(Oam.x) < 256) sprite_scan_example)
    by (split; [lia | repeat constructor; cbn; lia]).
  split; [exact H | apply sprite_scan_spec; apply H].
Defined.

(** The colour [palette[..] & (gray ? 0x30 : 0x3F) | (EmpRGB << 6)] of a
    register word [r]: nine bits, emphasis in bits 6-8, and in grayscale
    mode no hue bits. *)
Lemma colour_bits v (g : bool) r :
  let c := (v .& (if g then 0x30 else 0x3F)) .| (r.[EmpRGB] << 6) in
  c mod 2 ^ 9 = c /\ c >> 6 = r.[EmpRGB] /\ (g = true -> c .& 0x0F = 0).
Proof.
  cbv zeta. unfold_fields. repeat split; [destruct g; zbits | destruct g; zbits | intros ->; zbits].
Qed.

Lemma compose_pixel_unfold p :
  exists (hit : bool) (v : Z), compose_pixel p =
    let q := if hit then upd_reg SP0hit 1 p else p in
    (q, (v .& (if flag q Grayscale then 0x30 else 0x3F)) .| (rg q EmpRGB << 6)).
Proof.
  unfold compose_pixel. destruct (bg_sample p) as [px a].
  destruct (if show_sp p then _ else _) as [[hit px'] a'].
  eexists hit, _. reflexivity.
Qed.

(** C22: the colour [render_pixel] hands to [IO::PutPixel] is a 9-bit
    value: the palette entry masked to 6 bits, with the three emphasis bits
    of dispctrl in bits 6-8; in grayscale mode its low four (hue) bits are
    zero. *)
Theorem compose_pixel_colour p :
  0 <= snd (compose_pixel p) < 512 /\ snd (compose_pixel p) >> 6 = rg p EmpRGB /\
  (flag p Grayscale = true -> snd (compose_pixel p) .& 0x0F = 0).
Proof.
  destruct (compose_pixel_unfold p) as (hit & v & ->). cbv zeta. cbn [snd].
  assert (E : rg (if hit then upd_reg SP0hit 1 p else p) EmpRGB = rg p EmpRGB /\
              flag (if hit then upd_reg SP0hit 1 p else p) Grayscale = flag p Grayscale)
    by (destruct hit; autorewrite with fields; auto).
  destruct E as [-> ->]. unfold rg.
  destruct (colour_bits v (flag p Grayscale) p.(lt).(reg)) as (Hm & Hs & Hg).
  split; [|split; [exact Hs | exact Hg]].
  rewrite <- Hm. apply Z.mod_pos_bound. lia.
Qed.

Lemma edge_check :
  forallb (fun x => Bool.eqb (edge x) ((x <? 8) || (248 <=? x))) (zseq 256) = true.
Proof. vm_compute. reflexivity. Qed.

(** C25: on the 256 visible columns the left/right mask window
    [uint8_t(x+8) < 16] is exactly the columns 0..7 and 248..255, the only
    columns where the ShowBG8/ShowSP8 bits matter. *)
Theorem edge_window x :
  0 <= x < 256 -> edge x = true <-> x < 8 \/ 248 <= x.
Proof.
  intros Hx. pose proof (forallb_zseq _ 256 edge_check x ltac:(lia)) as H.
  apply Bool.eqb_prop in H. rewrite H, orb_true_iff, Z.ltb_lt, Z.leb_le. tauto.
Qed.

Lemma edge_window_witness : 0 <= 250 < 256 /\ (edge 250 = true <-> 250 < 8 \/ 248 <= 250).
Proof. split; [lia | apply edge_window; lia]. Defined.

Lemma sprite_scan_hit x pixel attr l :
  fst (fst (sprite_scan x pixel attr l)) = true -> x < 255 /\ pixel <> 0.
Proof.
  induction l as [|s l IH]; cbn [sprite_scan]; [discriminate|].
  unfold sprite_step. destruct_ifs; cbn; auto;
    rewrite !andb_true_iff, negb_true_iff, Z.ltb_lt, Z.eqb_neq; tauto.
Qed.


(** A scanline beat where an opaque sprite 0 meets an opaque background. *)
Definition pixel_scenario : Ppu :=
  let p := upd_reg dispctrl 0x1E ppu_powered in
  let p := with_tm (fun t => set_x 100 (set_scanline 50 t)) p in
  let p := with_bg (set_bg_shift_pat 0xFFFFFFFF) p in
  let p := with_mm (set_OAM3 (<[0 := Oam.mk 0 49 0 0 100 0xFFFF]> ∅)) p in
  with_sp (set_sprrenpos 1) p.


Section FrameBuffer.
Context `{PixelOut}.

Lemma fb_index_in_frame p :
  0 <= ppu_scanline p < 240 -> 0 <= ppu_x p < 256 ->
  fb_index p = ppu_scanline p * 256 + ppu_x p /\ 0 <= fb_index p < 256 * 240.
Proof. intros. unfold fb_index. rewrite Z.shiftl_mul_pow2 by lia. lia. Qed.

(** C24: a visible beat (scanline 0..239, x 0..255) stores
    [0xff000000 | PutPixel(x, scanline, colour, cycle_counter)] at
    [scanline*256 + x], inside the 256x240 frame, and leaves every other
    slot of the frame buffer as it was. *)
Theorem render_pixel_frame_buffer p :
  0 <= ppu_scanline p < 240 -> 0 <= ppu_x p < 256 ->
  0 <= fb_index p < 256 * 240 /\ fb_index p = ppu_scanline p * 256 + ppu_x p /\
  (render_pixel p).(nes_).(frame_buffer) =
    <[ppu_scanline p * 256 + ppu_x p :=
       u32 (0xff000000 .| PutPixel (ppu_x p) (ppu_scanline p) (snd (compose_pixel p)) p.(tm).(cycle_counter))]>
      p.(nes_).(frame_buffer).
Proof.
  intros Hs Hx. destruct (fb_index_in_frame p Hs Hx) as [Ei Hb].
  split; [exact Hb | split; [exact Ei|]]. rewrite <- Ei.
  unfold render_pixel. destruct (compose_pixel_unfold p) as (hit & v & ->).
  destruct hit; reflexivity.
Qed.

End FrameBuffer.

#[local] Instance pixel_out_identity : PixelOut := fun _ _ c _ => c.

Lemma render_pixel_frame_buffer_witness :
  (0 <= ppu_scanline pixel_scenario < 240 /\ 0 <= ppu_x pixel_scenario < 256) /\
  (0 <= fb_index pixel_scenario < 256 * 240 /\
   fb_index pixel_scenario = ppu_scanline pixel_scenario * 256 + ppu_x pixel_scenario /\
   (render_pixel pixel_scenario).(nes_).(frame_buffer) =
    <[ppu_scanline pixel_scenario * 256 + ppu_x pixel_scenario :=
       u32 (0xff000000 .| PutPixel (ppu_x pixel_scenario) (ppu_scanline pixel_scenario)
              (snd (compose_pixel pixel_scenario)) pixel_scenario.(tm).(cycle_counter))]>
      pixel_scenario.(nes_).(frame_buffer)).
Proof.
  assert (H : 0 <= ppu_scanline pixel_scenario < 240 /\ 0 <= ppu_x pixel_scenario < 256)
    by (vm_compute; split; split; congruence).
  split; [exact H | apply render_pixel_frame_buffer; apply H].
Defined.
