(* ===== verification/Tick.v ===== *)
(** The beat driver: [Ppu::TickNTSC], [Ppu::TickPAL] and [Ppu::Tick]
    (src/ppu.cpp, lines 340-479).

    One iteration of the [for] loop of [TickNTSC]/[TickPAL] is a beat:
    the VBlank state machine ([vblank_service]), the open-bus decay
    ([decay_open_bus]), the graphics of the beat ([graphics]: the fetch
    pipeline of [Render.v] and the compositor of [Pixel.v]), the NTSC colour
    phase and SP0hit hack, the move to the next column or line
    ([end_of_line]), the mapper hook and the beat counter.  NTSC runs three
    beats per call, PAL three or four.  The callbacks [on_render] and
    [on_vertical_blank] are logged as events; what they do on the emulator
    object is outside [src/].

    The beam position is abstracted by [frame_pos], the index of the beat
    in the frame raster; [beat_frame_pos] is the refinement of the beat
    driver by a counter that advances by one position per beat modulo the
    frame, skipping the last position of the shortened pre-render line. *)

From S2P Require Import Prelude Regs State Mmap Lifecycle Bus Render Pixel.

(** [if (VBlankState != 0) VBlankState += (VBlankState < 0 ? 1 : -1);] *)
Definition vblank_count (t : Timing) : Timing :=
  let vs := t.(VBlankState) in
  if vs =? 0 then t else set_VBlankState (vs + (if vs <? 0 then 1 else -1)) t.

(** [switch (VBlankState)] and the step of [VBlankState] towards 0. *)
Definition vblank_service (p : Ppu) : Ppu :=
  let vs := p.(tm).(VBlankState) in
  let p := if vs =? -5 then upd_reg status 0 p
           else if vs =? 2 then upd_reg InVBlank 1 p
           else if vs =? 0 then with_nes (set_nmi (flag p InVBlank && flag p NMIenabled)) p
           else p in
  with_tm vblank_count p.

(** [if (open_bus_decay_timer) if (!--open_bus_decay_timer) open_bus_ = 0;] *)
Definition decay_open_bus (p : Ppu) : Ppu :=
  let t := p.(lt).(open_bus_decay_timer) in
  if t =? 0 then p else
  let p := with_lt (set_open_bus_decay_timer (t - 1)) p in
  if t - 1 =? 0 then with_lt (set_open_bus 0) p else p.

(** [++cycle_counter], wrapped at 3 (NTSC only). *)
Definition cc_step (t : Timing) : Timing :=
  let c := t.(cycle_counter) + 1 in set_cycle_counter (if c =? 3 then 0 else c) t.

Definition step_cycle_counter (p : Ppu) : Ppu := with_tm cc_step p.

(** The NTSC timing hack: SP0hit cleared at scanline 260, x 328..339. *)
Definition sp0hit_hack (p : Ppu) : Ppu :=
  if (ppu_scanline p =? 260) && (328 <=? ppu_x p) && (ppu_x p <=? 339)
  then upd_reg SP0hit 0 p else p.

(** [if (scanline == 239) nes_->on_render();] *)
Definition fire_on_render (p : Ppu) : Ppu :=
  if ppu_scanline p =? 239 then with_nes (push_event OnRender) p else p.

(** [if (++x == scanline_end) { ... switch (scanline += 1) { ... } }],
    with [last] the line that wraps to the pre-render line -1 (261 for
    NTSC, 311 for PAL). *)
Definition end_of_line (last : Z) (p : Ppu) : Ppu :=
  let p := with_tm (fun t => set_x (t.(x) + 1) t) p in
  if negb (ppu_x p =? p.(tm).(scanline_end)) then p else
  let p := fire_on_render p in
  let p := with_tm (fun t => set_x 0 (set_scanline_end 341 t)) p in
  let p := with_tm (fun t => set_scanline (t.(scanline) + 1) t) p in
  if ppu_scanline p =? last then
    with_tm (fun t => set_VBlankState (-5) (set_even_odd_toggle (negb t.(even_odd_toggle)) (set_scanline (-1) t))) p
  else if ppu_scanline p =? 241 then
    with_tm (set_VBlankState 2) (with_nes (push_event OnVerticalBlank) p)
  else p.

(** [nes_->gamepak().mapper->PpuTick(); ++cycles;] *)
Definition end_beat (p : Ppu) : Ppu :=
  let p := with_nes (fun n => set_mapper_ticks (n.(mapper_ticks) + 1) n) p in
  with_tm (fun t => set_cycles (t.(cycles) + 1) t) p.

Section Beats.
Context `{PixelOut}.

(** [if (scanline < 240) { if (reg.ShowBGSP) rendering_tick();
    if (scanline >= 0 && x < 256) render_pixel(); }] *)
Definition graphics (p : Ppu) : Ppu :=
  if ppu_scanline p <? 240 then
    let p := if flag p ShowBGSP then rendering_tick p else p in
    if (0 <=? ppu_scanline p) && (ppu_x p <? 256) then render_pixel p else p
  else p.

Definition beat_ntsc (p : Ppu) : Ppu :=
  let p := vblank_service p in
  let p := decay_open_bus p in
  let p := graphics p in
  let p := step_cycle_counter p in
  let p := sp0hit_hack p in
  let p := end_of_line 261 p in
  end_beat p.

Definition beat_pal (p : Ppu) : Ppu :=
  let p := vblank_service p in
  let p := decay_open_bus p in
  let p := graphics p in
  let p := end_of_line 311 p in
  end_beat p.

Definition TickNTSC (p : Ppu) : Ppu := Nat.iter 3 beat_ntsc p.

(** [tick_count = 3, plus one when nes_->cpu().cycles % 5 == 4]. *)
Definition pal_beats (p : Ppu) : nat :=
  if p.(nes_).(cpu_cycles) mod 5 =? 4 then 4 else 3.

Definition TickPAL (p : Ppu) : Ppu := Nat.iter (pal_beats p) beat_pal p.

(** [(this->*(tick_array[mode_]))()]. *)
Definition Tick (p : Ppu) : Ppu :=
  match p.(mode_) with NTSC => TickNTSC p | PAL => TickPAL p end.

(** The beat of the current mode. *)
Definition beat (p : Ppu) : Ppu :=
  match p.(mode_) with NTSC => beat_ntsc p | PAL => beat_pal p end.

End Beats.

(** ** The beat counter as a machine of its own *)

(** Lines of the frame: 262 (NTSC) or 312 (PAL), the line [last] wraps to -1. *)
Definition last_line (m : Mode) : Z := match m with NTSC => 261 | PAL => 311 end.

(** The counter part of [end_of_line]. *)
Definition advance_beam (last : Z) (t : Timing) : Timing :=
  let t := set_x (t.(x) + 1) t in
  if negb (t.(x) =? t.(scanline_end)) then t else
  let t := set_scanline (t.(scanline) + 1) (set_x 0 (set_scanline_end 341 t)) in
  if t.(scanline) =? last then
    set_VBlankState (-5) (set_even_odd_toggle (negb t.(even_odd_toggle)) (set_scanline (-1) t))
  else if t.(scanline) =? 241 then set_VBlankState 2 t
  else t.

(** A beat seen on the counters alone; [short] is the shortening of the
    pre-render line by the pipeline ([case 1] at x = 337). *)
Definition timing_step (m : Mode) (short : bool) (t : Timing) : Timing :=
  let t := vblank_count t in
  let t := if short then set_scanline_end 340 t else t in
  let t := match m with NTSC => cc_step t | PAL => t end in
  let t := advance_beam (last_line m) t in
  set_cycles (t.(cycles) + 1) t.

(** Invariant of the counters: the line in [-1, last), the column before
    the end of the line, which is 341 except on the shortened NTSC
    pre-render line, the VBlank countdown in [-5, 2], the colour phase in
    [0, 3). *)
Definition timing_wf (m : Mode) (t : Timing) : Prop :=
  -1 <= t.(scanline) < last_line m /\ 0 <= t.(x) < t.(scanline_end) /\
  (t.(scanline_end) = 341 \/ (t.(scanline_end) = 340 /\ t.(scanline) = -1 /\ m = NTSC)) /\
  -5 <= t.(VBlankState) <= 2 /\ 0 <= t.(cycle_counter) < 3.

Definition tick_wf (p : Ppu) : Prop := timing_wf p.(mode_) p.(tm).

(** Index of the beat in the frame raster of [last_line + 1] lines of 341. *)
Definition frame_pos (t : Timing) : Z := (t.(scanline) + 1) * 341 + t.(x).

Definition frame_len (m : Mode) : Z := (last_line m + 1) * 341.

(** ** Each stage of a beat on the counters *)

#[local] Arguments set_x _ _ /.
#[local] Arguments set_scanline _ _ /.
#[local] Arguments set_scanline_end _ _ /.
#[local] Arguments set_VBlankState _ _ /.
#[local] Arguments set_even_odd_toggle _ _ /.
#[local] Arguments set_cycle_counter _ _ /.
#[local] Arguments set_cycles _ _ /.
#[local] Arguments with_tm _ _ /.
#[local] Arguments with_nes _ _ /.
#[local] Arguments push_event _ _ /.

Lemma vblank_service_tm p :
  (vblank_service p).(tm) = vblank_count p.(tm) /\ (vblank_service p).(mode_) = p.(mode_).
Proof. unfold vblank_service. destruct_ifs; split; reflexivity. Qed.

Lemma decay_open_bus_tm p :
  (decay_open_bus p).(tm) = p.(tm) /\ (decay_open_bus p).(mode_) = p.(mode_).
Proof. unfold decay_open_bus. destruct_ifs; split; reflexivity. Qed.

Lemma sp0hit_hack_tm p : (sp0hit_hack p).(tm) = p.(tm) /\ (sp0hit_hack p).(mode_) = p.(mode_).
Proof. unfold sp0hit_hack. destruct_ifs; split; reflexivity. Qed.

(** The events [end_of_line] fires do not touch the counters. *)
Lemma fire_on_render_tm p :
  (fire_on_render p).(tm) = p.(tm) /\ (fire_on_render p).(mode_) = p.(mode_).
Proof. unfold fire_on_render. case_match; split; reflexivity. Qed.

Lemma end_of_line_tm last p :
  (end_of_line last p).(tm) = advance_beam last p.(tm) /\ (end_of_line last p).(mode_) = p.(mode_).
Proof.
  unfold end_of_line, advance_beam, ppu_x, ppu_scanline. cbn -[Z.eqb Z.add fire_on_render].
  repeat match goal with |- context [fire_on_render ?r] =>
    destruct (fire_on_render_tm r) as [E M]; rewrite ?E, ?M; clear E M end.
  cbn -[Z.eqb Z.add fire_on_render].
  repeat (case_match; cbn -[Z.eqb Z.add]); split; reflexivity.
Qed.

Lemma render_pixel_tm `{PixelOut} p :
  (render_pixel p).(tm) = p.(tm) /\ (render_pixel p).(mode_) = p.(mode_).
Proof.
  unfold render_pixel. destruct (compose_pixel_unfold p) as (hit & v & ->).
  destruct hit; split; reflexivity.
Qed.

Section BeatTiming.
Context `{PixelOut}.

Lemma graphics_tm p : exists b : bool,
  (graphics p).(tm) = (if b then set_scanline_end 340 p.(tm) else p.(tm)) /\
  (graphics p).(mode_) = p.(mode_) /\
  (b = true -> ppu_x p = 337 /\ ppu_scanline p = -1 /\ p.(mode_) = NTSC).
Proof.
  unfold graphics.
  destruct (ppu_scanline p <? 240); [|exists false; split; [|split; [|discriminate]]; reflexivity].
  destruct (rendering_tick_tm p) as (b & Eb & Mb & Hb).
  set (q := if flag p ShowBGSP then rendering_tick p else p).
  assert (Hq : exists b' : bool, q.(tm) = (if b' then set_scanline_end 340 p.(tm) else p.(tm)) /\
                          q.(mode_) = p.(mode_) /\
                          (b' = true -> ppu_x p = 337 /\ ppu_scanline p = -1 /\ p.(mode_) = NTSC)).
  { subst q. destruct (flag p ShowBGSP); [exists b; auto|].
    exists false; split; [|split; [|discriminate]]; reflexivity. }
  destruct Hq as (b' & Eq & Mq & Hq). exists b'.
  destruct (_ && _); [destruct (render_pixel_tm q) as [-> ->]|]; auto.
Qed.

Lemma beat_ntsc_stages p :
  beat_ntsc p = end_beat (end_of_line 261 (sp0hit_hack (step_cycle_counter
                  (graphics (decay_open_bus (vblank_service p)))))).
Proof. reflexivity. Qed.

Lemma beat_pal_stages p :
  beat_pal p = end_beat (end_of_line 311 (graphics (decay_open_bus (vblank_service p)))).
Proof. reflexivity. Qed.

Lemma end_beat_tm q :
  (end_beat q).(tm) = set_cycles (q.(tm).(cycles) + 1) q.(tm) /\ (end_beat q).(mode_) = q.(mode_).
Proof. split; reflexivity. Qed.

Lemma vblank_count_beam t : (vblank_count t).(x) = t.(x) /\ (vblank_count t).(scanline) = t.(scanline).
Proof. unfold vblank_count. destruct_ifs; split; reflexivity. Qed.

(** The counters of a beat are those of [timing_step], the one bit they
    receive from the pipeline being the shortening of the pre-render line
    at x = 337. *)
Lemma beat_tm p : exists b : bool,
  (beat p).(tm) = timing_step p.(mode_) b p.(tm) /\ (beat p).(mode_) = p.(mode_) /\
  (b = true -> p.(tm).(x) = 337 /\ p.(tm).(scanline) = -1 /\ p.(mode_) = NTSC).
Proof.
  destruct (vblank_service_tm p) as [E1 M1].
  destruct (decay_open_bus_tm (vblank_service p)) as [E2 M2].
  destruct (graphics_tm (decay_open_bus (vblank_service p))) as (b & E3 & M3 & Hb).
  exists b. unfold ppu_x, ppu_scanline in Hb. rewrite E2, E1, M2, M1 in Hb.
  destruct (vblank_count_beam p.(tm)) as [Hx Hs]. rewrite Hx, Hs in Hb.
  set (g := graphics (decay_open_bus (vblank_service p))) in *.
  assert (Eg : g.(tm) = (if b then set_scanline_end 340 (vblank_count p.(tm)) else vblank_count p.(tm)))
    by (rewrite E3, E2, E1; reflexivity).
  assert (Mg : g.(mode_) = p.(mode_)) by (rewrite M3, M2, M1; reflexivity).
  unfold beat. destruct (mode_ p) eqn:Em.
  - rewrite beat_ntsc_stages. change (graphics (decay_open_bus (vblank_service p))) with g.
    destruct (end_beat_tm (end_of_line 261 (sp0hit_hack (step_cycle_counter g)))) as [-> ->].
    destruct (end_of_line_tm 261 (sp0hit_hack (step_cycle_counter g))) as [-> ->].
    destruct (sp0hit_hack_tm (step_cycle_counter g)) as [-> ->].
    change ((step_cycle_counter g).(tm)) with (cc_step g.(tm)).
    change ((step_cycle_counter g).(mode_)) with g.(mode_).
    rewrite Eg, Mg. split; [unfold timing_step; destruct b; reflexivity | auto].
  - rewrite beat_pal_stages. change (graphics (decay_open_bus (vblank_service p))) with g.
    destruct (end_beat_tm (end_of_line 311 g)) as [-> ->].
    destruct (end_of_line_tm 311 g) as [-> ->].
    rewrite Eg, Mg. split; [unfold timing_step; destruct b; reflexivity | auto].
Qed.

End BeatTiming.

(** ** The counter machine: invariant and refinement of the raster *)

Ltac tm_simpl :=
  repeat (progress (cbn -[Z.eqb Z.add Z.ltb Z.leb Z.mul Z.modulo] in *; destruct_ifs)).

Lemma timing_step_wf m b t :
  timing_wf m t -> (b = true -> t.(x) = 337 /\ t.(scanline) = -1 /\ m = NTSC) ->
  timing_wf m (timing_step m b t).
Proof.
  unfold timing_wf. intros (Hs & Hx & He & Hv & Hc) Hb.
  unfold timing_step, vblank_count, cc_step, advance_beam.
  destruct m, b; tm_simpl; try (destruct Hb as (? & ? & ?); [reflexivity|]);
    repeat split; try lia; intuition (try lia; try discriminate).
Qed.

Lemma timing_step_cycles m b t : (timing_step m b t).(cycles) = t.(cycles) + 1.
Proof. unfold timing_step, vblank_count, cc_step, advance_beam. destruct m, b; tm_simpl; lia. Qed.

Lemma timing_step_frame_pos m b t :
  timing_wf m t -> (b = true -> t.(x) = 337 /\ t.(scanline) = -1 /\ m = NTSC) ->
  frame_pos (timing_step m b t) =
  (frame_pos t + (if (t.(scanline_end) =? 340) && (t.(x) =? 339) then 2 else 1)) mod frame_len m.
Proof.
  unfold timing_wf, frame_pos, frame_len. intros (Hs & Hx & He & Hv & Hc) Hb.
  unfold timing_step, vblank_count, cc_step, advance_beam.
  destruct m, b; tm_simpl; try (destruct Hb as (? & ? & ?); [reflexivity|]);
    cbn [last_line] in *; zmod_lia.
Qed.

(** C26: the beat driver keeps its counters well formed: the scanline in
    [-1, 261) (NTSC) or [-1, 311) (PAL), the column below the line end,
    which is 341 except on the shortened NTSC pre-render line (340), the
    VBlank countdown in [-5, 2] and the NTSC colour phase in [0, 3). *)
Theorem beat_tick_wf `{PixelOut} p : tick_wf p -> tick_wf (beat p).
Proof.
  intros Hp. destruct (beat_tm p) as (b & Et & Em & Hb). unfold tick_wf.
  rewrite Et, Em. apply timing_step_wf; auto.
Qed.

(** C27: refinement of the beat driver by the frame raster: each beat
    advances the beam position [(scanline + 1) * 341 + x] by one modulo the
    frame ([262 * 341] NTSC, [312 * 341] PAL), and by two from column 339 of
    the shortened pre-render line, whose column 340 is skipped. *)
Theorem beat_frame_pos `{PixelOut} p :
  tick_wf p ->
  frame_pos (beat p).(tm) =
  (frame_pos p.(tm) + (if (p.(tm).(scanline_end) =? 340) && (p.(tm).(x) =? 339) then 2 else 1))
    mod frame_len p.(mode_).
Proof.
  intros Hp. destruct (beat_tm p) as (b & Et & Em & Hb).
  rewrite Et. apply timing_step_frame_pos; auto.
Qed.

(** ** Open-bus decay *)

Lemma stages_ob `{PixelOut} p :
  let same f := (f p).(lt).(open_bus_) = p.(lt).(open_bus_) /\
                (f p).(lt).(open_bus_decay_timer) = p.(lt).(open_bus_decay_timer) in
  same vblank_service /\ same graphics /\ same step_cycle_counter /\ same sp0hit_hack /\
  same (end_of_line 261) /\ same (end_of_line 311) /\ same end_beat.
Proof.
  cbv zeta. repeat split;
    try (unfold vblank_service, sp0hit_hack, step_cycle_counter, end_beat; destruct_ifs; reflexivity);
    try (unfold end_of_line, fire_on_render; repeat case_match; reflexivity).
  all: unfold graphics; case_match; [|reflexivity];
    destruct (rendering_tick_ob p) as [Ho Ht];
    set (q := if flag p ShowBGSP then rendering_tick p else p);
    assert (Hq : q.(lt).(open_bus_) = p.(lt).(open_bus_) /\
                 q.(lt).(open_bus_decay_timer) = p.(lt).(open_bus_decay_timer))
      by (subst q; destruct (flag p ShowBGSP); auto);
    destruct Hq as [Hq1 Hq2];
    (case_match; [|assumption]);
    unfold render_pixel; destruct (compose_pixel_unfold q) as (hit & v & ->);
    destruct hit; assumption.
Qed.

Lemma decay_open_bus_ob p :
  let t := p.(lt).(open_bus_decay_timer) in
  (decay_open_bus p).(lt).(open_bus_decay_timer) = (if t =? 0 then 0 else t - 1) /\
  (decay_open_bus p).(lt).(open_bus_) = (if t =? 1 then 0 else p.(lt).(open_bus_)).
Proof.
  cbv zeta. unfold decay_open_bus.
  destruct (Z.eqb_spec (open_bus_decay_timer (lt p)) 0) as [E|E];
    [rewrite E; split; reflexivity|].
  destruct (Z.eqb_spec (open_bus_decay_timer (lt p) - 1) 0);
    destruct (Z.eqb_spec (open_bus_decay_timer (lt p)) 1); cbn; split; lia || reflexivity.
Qed.

(** One beat counts the open-bus countdown down, clearing the latch when
    it reaches 0. *)
Lemma beat_open_bus `{PixelOut} p :
  let t := p.(lt).(open_bus_decay_timer) in
  (beat p).(lt).(open_bus_decay_timer) = (if t =? 0 then 0 else t - 1) /\
  (beat p).(lt).(open_bus_) = (if t =? 1 then 0 else p.(lt).(open_bus_)).
Proof.
  cbv zeta. destruct (decay_open_bus_ob (vblank_service p)) as [D1 D2]. cbv zeta in D1, D2.
  destruct (stages_ob p) as ((V1 & V2) & _). rewrite V1, V2 in *.
  set (q := decay_open_bus (vblank_service p)) in *.
  destruct (stages_ob q) as (_ & (G1 & G2) & _).
  set (g := graphics q) in *.
  unfold beat. destruct (mode_ p).
  - rewrite beat_ntsc_stages. change (graphics (decay_open_bus (vblank_service p))) with g.
    destruct (stages_ob g) as (_ & _ & (C1 & C2) & _).
    destruct (stages_ob (step_cycle_counter g)) as (_ & _ & _ & (S1 & S2) & _).
    destruct (stages_ob (sp0hit_hack (step_cycle_counter g))) as (_ & _ & _ & _ & (L1 & L2) & _).
    destruct (stages_ob (end_of_line 261 (sp0hit_hack (step_cycle_counter g)))) as (_ & _ & _ & _ & _ & _ & (B1 & B2)).
    rewrite B1, B2, L1, L2, S1, S2, C1, C2, G1, G2, D1, D2. split; reflexivity.
  - rewrite beat_pal_stages. change (graphics (decay_open_bus (vblank_service p))) with g.
    destruct (stages_ob g) as (_ & _ & _ & _ & _ & (L1 & L2) & _).
    destruct (stages_ob (end_of_line 311 g)) as (_ & _ & _ & _ & _ & _ & (B1 & B2)).
    rewrite B1, B2, L1, L2, G1, G2, D1, D2. split; reflexivity.
Qed.

(** C28: with no register access in between, the open-bus latch keeps its
    value for [open_bus_decay_timer - 1] beats and reads 0 from the beat
    that counts the timer down to 0 (77777 beats after a refresh). *)
Theorem open_bus_decay `{PixelOut} p (k : nat) :
  0 < p.(lt).(open_bus_decay_timer) -> Z.of_nat k <= p.(lt).(open_bus_decay_timer) ->
  (Nat.iter k beat p).(lt).(open_bus_decay_timer) = p.(lt).(open_bus_decay_timer) - Z.of_nat k /\
  (Nat.iter k beat p).(lt).(open_bus_) =
    (if Z.of_nat k <? p.(lt).(open_bus_decay_timer) then p.(lt).(open_bus_) else 0).
Proof.
  intros Hpos. induction k as [|k IH]; intros Hk.
  - change (Nat.iter 0 beat p) with p. change (Z.of_nat 0) with 0. split; [lia|].
    destruct (Z.ltb_spec 0 (open_bus_decay_timer (lt p))); [reflexivity | lia].
  - destruct IH as [IH1 IH2]; [lia|]. change (Nat.iter (S k) beat p) with (beat (Nat.iter k beat p)).
    destruct (beat_open_bus (Nat.iter k beat p)) as [B1 B2]. cbv zeta in B1, B2.
    rewrite B1, B2, IH1, IH2.
    destruct (Z.eqb_spec (open_bus_decay_timer (lt p) - Z.of_nat k) 0); [lia|].
    destruct (Z.eqb_spec (open_bus_decay_timer (lt p) - Z.of_nat k) 1);
      destruct (Z.ltb_spec (Z.of_nat k) (open_bus_decay_timer (lt p)));
      destruct (Z.ltb_spec (Z.of_nat (S k)) (open_bus_decay_timer (lt p))); split; lia || reflexivity.
Qed.

(** ** VBlank flag and NMI *)

Lemma end_of_line_no_wrap last p :
  ppu_x p + 1 <> p.(tm).(scanline_end) ->
  end_of_line last p = with_tm (fun t => set_x (t.(x) + 1) t) p.
Proof.
  intros Hx. unfold end_of_line. cbv zeta.
  change (ppu_x (with_tm (fun t => set_x (x t + 1) t) p)) with (ppu_x p + 1).
  change (scanline_end (tm (with_tm (fun t => set_x (x t + 1) t) p))) with p.(tm).(scanline_end).
  destruct (Z.eqb_spec (ppu_x p + 1) p.(tm).(scanline_end)); [contradiction | reflexivity].
Qed.

Lemma sp0hit_hack_off p : ppu_scanline p <> 260 -> sp0hit_hack p = p.
Proof. intros Hs. unfold sp0hit_hack. destruct (Z.eqb_spec (ppu_scanline p) 260); [contradiction | reflexivity]. Qed.

(** A beat outside the rendered lines, off the SP0hit-hack line and not at
    the end of its line: VBlank service, open-bus decay, colour phase and the
    next column, nothing else. *)
Lemma quiet_beat_ntsc `{PixelOut} p :
  240 <= ppu_scanline p -> ppu_scanline p <> 260 -> ppu_x p + 1 <> p.(tm).(scanline_end) ->
  beat_ntsc p =
  end_beat (with_tm (fun t => set_x (t.(x) + 1) t) (step_cycle_counter (decay_open_bus (vblank_service p)))).
Proof.
  intros Hs H260 Hx. rewrite beat_ntsc_stages.
  destruct (vblank_service_tm p) as [E1 _].
  destruct (decay_open_bus_tm (vblank_service p)) as [E2 _].
  destruct (vblank_count_beam p.(tm)) as [Bx Bs].
  set (q := decay_open_bus (vblank_service p)).
  assert (Qx : ppu_x q = ppu_x p /\ ppu_scanline q = ppu_scanline p /\
               q.(tm).(scanline_end) = p.(tm).(scanline_end)).
  { unfold ppu_x, ppu_scanline. subst q. rewrite E2, E1.
    unfold vblank_count. destruct_ifs; auto. }
  destruct Qx as (Qx & Qs & Qe).
  assert (Qx' : ppu_x (step_cycle_counter q) + 1 <> (step_cycle_counter q).(tm).(scanline_end))
    by (change (ppu_x q + 1 <> q.(tm).(scanline_end)); rewrite Qx, Qe; exact Hx).
  assert (Qs' : ppu_scanline (step_cycle_counter q) <> 260)
    by (change (ppu_scanline q <> 260); rewrite Qs; exact H260).
  assert (G : graphics q = q).
  { unfold graphics. rewrite Qs. destruct (Z.ltb_spec (ppu_scanline p) 240); [lia | reflexivity]. }
  rewrite G, sp0hit_hack_off, end_of_line_no_wrap; [reflexivity| |].
  - exact Qx'.
  - exact Qs'.
Qed.

Lemma decay_open_bus_keeps p :
  (decay_open_bus p).(lt).(reg) = p.(lt).(reg) /\ (decay_open_bus p).(nes_) = p.(nes_).
Proof. unfold decay_open_bus. destruct_ifs; split; reflexivity. Qed.

Lemma quiet_beat_fields `{PixelOut} p :
  240 <= ppu_scanline p -> ppu_scanline p <> 260 -> ppu_x p + 1 <> p.(tm).(scanline_end) ->
  ppu_scanline (beat_ntsc p) = ppu_scanline p /\ ppu_x (beat_ntsc p) = ppu_x p + 1 /\
  (beat_ntsc p).(tm).(scanline_end) = p.(tm).(scanline_end) /\
  (beat_ntsc p).(tm).(VBlankState) = (vblank_count p.(tm)).(VBlankState) /\
  (beat_ntsc p).(lt).(reg) = (vblank_service p).(lt).(reg) /\
  (beat_ntsc p).(nes_).(nmi) = (vblank_service p).(nes_).(nmi).
Proof.
  intros Hs H260 Hx. rewrite quiet_beat_ntsc by assumption.
  destruct (vblank_service_tm p) as [E1 _].
  destruct (decay_open_bus_tm (vblank_service p)) as [E2 _].
  destruct (decay_open_bus_keeps (vblank_service p)) as [R N].
  destruct (vblank_count_beam p.(tm)) as [Bx Bs].
  unfold ppu_scanline, ppu_x. cbn [end_beat with_tm with_nes tm lt nes_ step_cycle_counter].
  cbn [x scanline scanline_end VBlankState set_x set_cycles set_cycle_counter cc_step nmi set_mapper_ticks].
  rewrite E2, E1, R, N, Bx, Bs.
  assert (Ee : scanline_end (vblank_count (tm p)) = scanline_end (tm p))
    by (unfold vblank_count; destruct_ifs; reflexivity).
  rewrite Ee. repeat split; reflexivity.
Qed.

(** The VBlank service on each value of the countdown. *)
Lemma vblank_service_at p :
  (p.(tm).(VBlankState) = 2 -> (vblank_service p).(lt).(reg) = p.(lt).(reg).[InVBlank := 1] /\
     (vblank_service p).(nes_).(nmi) = p.(nes_).(nmi) /\ (vblank_count p.(tm)).(VBlankState) = 1) /\
  (p.(tm).(VBlankState) = 1 -> (vblank_service p).(lt).(reg) = p.(lt).(reg) /\
     (vblank_service p).(nes_).(nmi) = p.(nes_).(nmi) /\ (vblank_count p.(tm)).(VBlankState) = 0) /\
  (p.(tm).(VBlankState) = 0 -> (vblank_service p).(lt).(reg) = p.(lt).(reg) /\
     (vblank_service p).(nes_).(nmi) = flag p InVBlank && flag p NMIenabled /\
     (vblank_count p.(tm)).(VBlankState) = 0).
Proof.
  unfold vblank_service, vblank_count. split; [|split]; intros Hv; rewrite Hv; (split; [|split]); first [reflexivity | exact Hv].
Qed.

#[local] Instance host_colour_identity : PixelOut := fun _ _ c _ => c.

Lemma ppu_powered_tick_wf : tick_wf ppu_powered.
Proof.
  assert (E : ppu_powered.(tm) = mkTiming 241 0 341 0 0 false 0 /\ ppu_powered.(mode_) = NTSC)
    by (split; vm_compute; reflexivity).
  unfold tick_wf, timing_wf. destruct E as [-> ->]. cbn. lia.
Qed.

Lemma beat_tick_wf_witness : tick_wf ppu_powered /\ tick_wf (beat ppu_powered).
Proof. split; [exact ppu_powered_tick_wf | apply beat_tick_wf, ppu_powered_tick_wf]. Defined.

Lemma beat_frame_pos_witness :
  tick_wf ppu_powered /\
  frame_pos (beat ppu_powered).(tm) =
  (frame_pos ppu_powered.(tm) +
   (if (ppu_powered.(tm).(scanline_end) =? 340) && (ppu_powered.(tm).(x) =? 339) then 2 else 1))
    mod frame_len ppu_powered.(mode_).
Proof. split; [exact ppu_powered_tick_wf | apply beat_frame_pos, ppu_powered_tick_wf]. Defined.

Lemma open_bus_decay_witness :
  let p := Write 0x2001 0x1E ppu_powered in
  let k := Z.to_nat 77777 in
  (0 < p.(lt).(open_bus_decay_timer) /\ Z.of_nat k <= p.(lt).(open_bus_decay_timer)) /\
  (Nat.iter k beat p).(lt).(open_bus_decay_timer) = p.(lt).(open_bus_decay_timer) - Z.of_nat k /\
  (Nat.iter k beat p).(lt).(open_bus_) =
    (if Z.of_nat k <? p.(lt).(open_bus_decay_timer) then p.(lt).(open_bus_) else 0).
Proof.
  intros p k. assert (H : 0 < p.(lt).(open_bus_decay_timer) /\ Z.of_nat k <= p.(lt).(open_bus_decay_timer)).
  { assert (E : p.(lt).(open_bus_decay_timer) = 77777 /\ Z.of_nat k = 77777)
      by (split; vm_compute; reflexivity).
    destruct E as [-> ->]. lia. }
  split; [exact H | apply open_bus_decay; apply H].
Defined.


Lemma read_status_fields p :
  p.(tm).(VBlankState) <> -5 ->
  let q := snd (read_status p) in
  ppu_scanline q = ppu_scanline p /\ ppu_x q = ppu_x p /\
  q.(tm).(scanline_end) = p.(tm).(scanline_end) /\ q.(tm).(VBlankState) = 0 /\
  q.(lt).(reg) = p.(lt).(reg).[InVBlank := 0] /\ q.(nes_) = p.(nes_).
Proof.
  intros Hv. unfold read_status. cbv zeta. cbn [snd].
  destruct (decide (VBlankState (tm (with_lt (set_offset_toggle false) (upd_reg InVBlank 0 p))) = -5))
    as [E|_]; [contradiction|].
  repeat split; reflexivity.
Qed.

(** Bit 7 of the status byte read back after the flag is raised. *)
Lemma raise_bit7_check : forallb (fun v => regbit_set 7 1 1 v .& 0x80 =? 0x80) (zseq 256) = true.
Proof. vm_compute. reflexivity. Qed.
Lemma status_raised r ob : ((r.[InVBlank := 1]).[status] .| (ob .& 0x1F)) .& 0x80 = 0x80.
Proof.
  rewrite Z.land_lor_distr_l, <- Z.land_assoc. change (0x1F .& 0x80) with 0.
  rewrite Z.land_0_r, Z.lor_0_r, fget_fset_outside by reflexivity.
  cbn [fst snd layout regfield_layout regfield_pos].
  pose proof (fget_range status r) as Hr. cbn in Hr.
  apply Z.eqb_eq, (forallb_zseq _ 256 raise_bit7_check). lia.
Qed.

(** C30: a status read ([Read(0x2002)]) that falls between the beat
    raising InVBlank and the beat driving the NMI line reports the flag
    (bit 7 of the result) but clears it and cancels the countdown, so the
    NMI line is driven low and InVBlank stays clear: the read race of the
    VBlank flag. *)
Theorem status_read_cancels_nmi `{PixelOut} p :
  p.(tm).(VBlankState) = 2 -> 240 <= ppu_scanline p -> ppu_scanline p <> 260 ->
  0 <= ppu_x p -> ppu_x p + 3 < p.(tm).(scanline_end) ->
  let r := Read 0x2002 (beat_ntsc p) in
  let p3 := beat_ntsc (beat_ntsc (snd r)) in
  fst r .& 0x80 = 0x80 /\ p3.(nes_).(nmi) = false /\ flag p3 InVBlank = false.
Proof.
  intros Hv Hs H260 Hx0 Hx. cbv zeta.
  change (Read 0x2002 (beat_ntsc p)) with (read_status (beat_ntsc p)).
  destruct (quiet_beat_fields p) as (S1 & X1 & E1 & V1 & R1 & N1); try lia.
  destruct (proj1 (vblank_service_at p) Hv) as (R1' & N1' & V1').
  set (p1 := beat_ntsc p) in *.
  destruct (read_status_fields p1) as (S2 & X2 & E2 & V2 & R2 & N2); [lia|].
  split.
  { unfold read_status, rg. cbn [fst]. rewrite R1, R1'. apply status_raised. }
  set (p2 := snd (read_status p1)) in *.
  destruct (quiet_beat_fields p2) as (S3 & X3 & E3 & V3 & R3 & N3); try lia.
  destruct (proj2 (proj2 (vblank_service_at p2)) V2) as (R3' & N3' & V3').
  set (p3 := beat_ntsc p2) in *.
  destruct (quiet_beat_fields p3) as (S4 & X4 & E4 & V4 & R4 & N4); try lia.
  destruct (proj2 (proj2 (vblank_service_at p3)) (eq_trans V3 V3')) as (R4' & N4' & V4').
  rewrite N4, N4'. unfold flag, rg in *. rewrite R4, R4', R3, R3', R2.
  rewrite fget_fset_small by (cbn; lia). split; reflexivity.
Qed.

(** The first beat of line 241 with NMIs enabled. *)
Definition vblank_scenario : Ppu :=
  upd_reg NMIenabled 1
    (with_tm (fun t => set_VBlankState 2 (set_x 0 (set_scanline 241 t))) ppu_powered).

Lemma vblank_scenario_facts :
  vblank_scenario.(tm).(VBlankState) = 2 /\ ppu_scanline vblank_scenario = 241 /\
  ppu_x vblank_scenario = 0 /\ vblank_scenario.(tm).(scanline_end) = 341 /\
  flag vblank_scenario NMIenabled = true.
Proof. vm_compute. repeat split; reflexivity. Qed.


Lemma status_read_cancels_nmi_witness :
  (vblank_scenario.(tm).(VBlankState) = 2 /\ 240 <= ppu_scanline vblank_scenario /\
   ppu_scanline vblank_scenario <> 260 /\ 0 <= ppu_x vblank_scenario /\
   ppu_x vblank_scenario + 3 < vblank_scenario.(tm).(scanline_end)) /\
  let r := Read 0x2002 (beat_ntsc vblank_scenario) in
  let p3 := beat_ntsc (beat_ntsc (snd r)) in
  fst r .& 0x80 = 0x80 /\ p3.(nes_).(nmi) = false /\ flag p3 InVBlank = false.
Proof.
  assert (H : vblank_scenario.(tm).(VBlankState) = 2 /\ 240 <= ppu_scanline vblank_scenario /\
              ppu_scanline vblank_scenario <> 260 /\ 0 <= ppu_x vblank_scenario /\
              ppu_x vblank_scenario + 3 < vblank_scenario.(tm).(scanline_end)).
  { destruct vblank_scenario_facts as (A & B & C & D & E). rewrite B, C, D. repeat split; auto; lia. }
  destruct H as (A & B & C & D & E).
  split; [tauto | apply status_read_cancels_nmi; assumption].
Defined.
