(* ===== verification/Frame.v ===== *)
(** Frame-level behaviour of the beat driver of [Tick.v]: how many beats a
    frame takes, and how many beats one [Tick] call runs.

    The cadence argument is generic: any sequence of raster positions that
    starts at 0 and advances by one modulo [L], or by two from position 339,
    returns to 0 after exactly [L] or [L - 1] steps (Section [Raster]).  The
    beat driver is such a sequence by the refinement lemmas of [Tick.v]. *)

From S2P Require Import Prelude Regs State Mmap Lifecycle Bus Render Pixel Tick.

(** ** Raster sequences *)

Section Raster.
Variable f : nat -> Z.
Variable d : nat -> Z.
Variable L : Z.
Hypothesis HL : 341 < L.
Hypothesis Hf0 : f 0%nat = 0.
Hypothesis Hstep : forall k, f (S k) = (f k + d k) mod L.
Hypothesis Hskip : forall k, d k = 1 \/ (d k = 2 /\ f k = 339).

(** Before the wrap the position is the step count, or one more after the
    skip at 339. *)
Lemma raster_prefix k :
  Z.of_nat k <= L - 2 -> f k = Z.of_nat k \/ (f k = Z.of_nat k + 1 /\ 340 <= Z.of_nat k).
Proof.
  induction k as [|k IH]; intros Hk; [left; exact Hf0|].
  rewrite Hstep. destruct IH as [E | [E Hk']]; [lia | |];
    destruct (Hskip k) as [D | [D F]]; rewrite D, ?Z.mod_small by lia; lia.
Qed.

Lemma raster_next k : f k <> 339 -> f (S k) = (f k + 1) mod L.
Proof. intros Hk. rewrite Hstep. destruct (Hskip k) as [-> | [_ F]]; [reflexivity | contradiction]. Qed.

Lemma raster_return :
  exists n : nat, (Z.of_nat n = L \/ Z.of_nat n = L - 1) /\ f n = 0 /\
                  forall k, (0 < k < n)%nat -> f k <> 0.
Proof.
  set (k0 := Z.to_nat (L - 2)).
  assert (Hpos : forall k, (0 < k)%nat -> (k <= k0)%nat -> f k <> 0).
  { intros k Hk Hk0. destruct (raster_prefix k) as [E | [E _]]; lia. }
  destruct (raster_prefix k0) as [E | [E _]]; [lia | |].
  - assert (E1 : f (S k0) = L - 1)
      by (rewrite raster_next, E, Z.mod_small by lia; lia).
    exists (S (S k0)). split; [lia|]. split.
    + rewrite raster_next by lia. rewrite E1, Z.sub_add, Z.mod_same; lia.
    + intros k Hk. destruct (Nat.eq_dec k (S k0)) as [-> | Hne]; [lia | apply Hpos; lia].
  - exists (S k0). split; [lia|]. split.
    + rewrite raster_next by lia. rewrite E. replace (Z.of_nat k0 + 1 + 1) with L by lia.
      apply Z.mod_same. lia.
    + intros k Hk. apply Hpos; lia.
Qed.
(** Every position past the skipped one and before the wrap is visited,
    at a step no later than the position itself. *)
Lemma raster_hits P :
  340 < P <= L - 2 -> exists k : nat, Z.of_nat k <= P /\ f k = P.
Proof.
  intros HP. destruct (raster_prefix (Z.to_nat P)) as [E | [E _]]; [lia | exists (Z.to_nat P); lia |].
  destruct (raster_prefix (Z.to_nat (P - 1))) as [E' | [E' _]]; [lia | | exists (Z.to_nat (P - 1)); lia].
  exfalso. rewrite Z2Nat.id in E' by lia.
  assert (Hn : f (S (Z.to_nat (P - 1))) = P) by (rewrite raster_next, E', Z.mod_small by lia; lia).
  replace (S (Z.to_nat (P - 1))) with (Z.to_nat P) in Hn by lia. lia.
Qed.
End Raster.

(** ** The beat driver as a raster sequence *)

Section Driver.
Context `{PixelOut}.

Lemma iter_beat_wf p k :
  tick_wf p -> tick_wf (Nat.iter k beat p) /\ (Nat.iter k beat p).(mode_) = p.(mode_).
Proof.
  intros Hp. induction k as [|k [IH IM]]; [auto|].
  change (Nat.iter (S k) beat p) with (beat (Nat.iter k beat p)).
  destruct (beat_tm (Nat.iter k beat p)) as (b & Et & Em & Hb).
  unfold tick_wf in *. rewrite Et, Em, IM. rewrite IM in IH, Hb.
  split; [apply timing_step_wf; auto | reflexivity].
Qed.

(** The raster advance of one beat, with its skip. *)
Definition raster_skip (t : Timing) : Z :=
  if (t.(scanline_end) =? 340) && (t.(x) =? 339) then 2 else 1.

Lemma beat_raster p :
  tick_wf p ->
  frame_pos (beat p).(tm) = (frame_pos p.(tm) + raster_skip p.(tm)) mod frame_len p.(mode_) /\
  (raster_skip p.(tm) = 1 \/ (raster_skip p.(tm) = 2 /\ frame_pos p.(tm) = 339)).
Proof.
  intros Hp. destruct (beat_tm p) as (b & Et & Em & Hb). rewrite Et. split.
  - apply timing_step_frame_pos; auto.
  - unfold raster_skip, frame_pos. unfold tick_wf, timing_wf in Hp.
    destruct (Z.eqb_spec (scanline_end (tm p)) 340), (Z.eqb_spec (x (tm p)) 339); cbn; lia.
Qed.

(** The raster sequence of the beats from [p]. *)
Lemma iter_raster p k :
  tick_wf p ->
  frame_pos (Nat.iter (S k) beat p).(tm) =
    (frame_pos (Nat.iter k beat p).(tm) + raster_skip (Nat.iter k beat p).(tm)) mod frame_len p.(mode_) /\
  (raster_skip (Nat.iter k beat p).(tm) = 1 \/
   (raster_skip (Nat.iter k beat p).(tm) = 2 /\ frame_pos (Nat.iter k beat p).(tm) = 339)).
Proof.
  intros Hp. destruct (iter_beat_wf p k Hp) as [W M].
  rewrite Nat.iter_succ, <- M. apply beat_raster, W.
Qed.

Lemma frame_len_bound m : 341 < frame_len m.
Proof. unfold frame_len. destruct m; cbn; lia. Qed.

End Driver.

(** ** Beats per [Tick] call *)

(** The number of beats of one [Tick] call. *)
Definition tick_beats (p : Ppu) : nat :=
  match p.(mode_) with NTSC => 3 | PAL => pal_beats p end.

Section Beats.
Context `{PixelOut}.

Lemma iter_beat_mode p k : (Nat.iter k beat p).(mode_) = p.(mode_).
Proof.
  induction k as [|k IH]; [reflexivity|].
  change (Nat.iter (S k) beat p) with (beat (Nat.iter k beat p)).
  destruct (beat_tm (Nat.iter k beat p)) as (b & _ & -> & _). exact IH.
Qed.

Lemma iter_beat_cycles p k :
  (Nat.iter k beat p).(tm).(cycles) = p.(tm).(cycles) + Z.of_nat k.
Proof.
  induction k as [|k IH]; [cbn; lia|].
  change (Nat.iter (S k) beat p) with (beat (Nat.iter k beat p)).
  destruct (beat_tm (Nat.iter k beat p)) as (b & -> & _ & _).
  rewrite timing_step_cycles, IH. lia.
Qed.

(** The mode-specific loops iterate the beat of the object's mode. *)
Lemma iter_mode_beat p k :
  Nat.iter k (match p.(mode_) with NTSC => beat_ntsc | PAL => beat_pal end) p = Nat.iter k beat p.
Proof.
  induction k as [|k IH]; [reflexivity|]. rewrite !Nat.iter_succ, IH.
  unfold beat at 2. rewrite iter_beat_mode. destruct (mode_ p); reflexivity.
Qed.

Lemma Tick_iter p : Tick p = Nat.iter (tick_beats p) beat p.
Proof.
  rewrite <- iter_mode_beat. unfold Tick, tick_beats, TickNTSC, TickPAL.
  destruct (mode_ p); reflexivity.
Qed.

End Beats.

(** ** Frame cadence and beats per call *)

Section Claims.
Context `{PixelOut}.

(** C31: a frame ends: from the first beat of a frame (scanline -1,
    x = 0) the beam comes back to the first beat after exactly
    [frame_len] beats (89342 NTSC, 106392 PAL) or one fewer when the
    pre-render line is shortened, and not before. *)
Theorem frame_cadence p :
  tick_wf p -> frame_pos p.(tm) = 0 ->
  exists n : nat,
    (Z.of_nat n = frame_len p.(mode_) \/ Z.of_nat n = frame_len p.(mode_) - 1) /\
    frame_pos (Nat.iter n beat p).(tm) = 0 /\
    forall k, (0 < k < n)%nat -> frame_pos (Nat.iter k beat p).(tm) <> 0.
Proof.
  intros Hp H0.
  apply (raster_return (fun k => frame_pos (Nat.iter k beat p).(tm))
                       (fun k => raster_skip (Nat.iter k beat p).(tm))).
  - apply frame_len_bound.
  - exact H0.
  - intros k. apply (iter_raster p k Hp).
  - intros k. apply (iter_raster p k Hp).
Qed.

(** C32: one [Tick] call runs three beats in NTSC mode and, in PAL mode,
    three beats plus one when the CPU cycle count is 4 modulo 5, so that
    five consecutive CPU cycles get 16 beats (3.2 per cycle); [cycles]
    counts them and the mode is kept. *)
Theorem tick_beats_count p :
  (Tick p).(tm).(cycles) = p.(tm).(cycles) + Z.of_nat (tick_beats p) /\
  (Tick p).(mode_) = p.(mode_) /\
  (p.(mode_) = NTSC -> tick_beats p = 3%nat) /\
  (forall ps : nat -> Ppu,
     (forall i, (ps i).(mode_) = PAL /\ (ps i).(nes_).(cpu_cycles) = p.(nes_).(cpu_cycles) + Z.of_nat i) ->
     list_sum (map (fun i => tick_beats (ps i)) (seq 0 5)) = 16%nat).
Proof.
  rewrite Tick_iter. split; [apply iter_beat_cycles|]. split; [apply iter_beat_mode|].
  split; [unfold tick_beats; intros ->; reflexivity|].
  intros ps Hps. unfold tick_beats, pal_beats. cbn [seq map list_sum foldr].
  rewrite !(proj1 (Hps _)), !(proj2 (Hps _)).
  set (c := cpu_cycles (nes_ p)). cbn [Z.of_nat].
  assert (Hc : 0 <= c mod 5 < 5) by (apply Z.mod_pos_bound; lia).
  assert (E : forall i, 0 <= i < 5 -> (c + i) mod 5 = (c mod 5 + i) mod 5)
    by (intros; rewrite Z.add_mod_idemp_l; lia).
  rewrite !E by lia.
  destruct (Z.eq_dec (c mod 5) 0) as [-> | ?]; [reflexivity|].
  destruct (Z.eq_dec (c mod 5) 1) as [-> | ?]; [reflexivity|].
  destruct (Z.eq_dec (c mod 5) 2) as [-> | ?]; [reflexivity|].
  destruct (Z.eq_dec (c mod 5) 3) as [-> | ?]; [reflexivity|].
  replace (c mod 5) with 4 by lia. reflexivity.
Qed.

End Claims.

#[local] Instance host_colour_frame : PixelOut := fun _ _ c _ => c.

(** The first beat of a frame, after power-on. *)
Definition frame_start : Ppu := with_tm (fun t => set_x 0 (set_scanline (-1) t)) ppu_powered.

Lemma frame_start_wf : tick_wf frame_start /\ frame_pos frame_start.(tm) = 0.
Proof.
  assert (E : frame_start.(tm) = mkTiming (-1) 0 341 0 0 false 0 /\ frame_start.(mode_) = NTSC)
    by (split; vm_compute; reflexivity).
  unfold tick_wf, timing_wf, frame_pos. destruct E as [-> ->]. cbn. lia.
Qed.

Lemma frame_cadence_witness :
  (tick_wf frame_start /\ frame_pos frame_start.(tm) = 0) /\
  exists n : nat,
    (Z.of_nat n = frame_len frame_start.(mode_) \/ Z.of_nat n = frame_len frame_start.(mode_) - 1) /\
    frame_pos (Nat.iter n beat frame_start).(tm) = 0 /\
    forall k, (0 < k < n)%nat -> frame_pos (Nat.iter k beat frame_start).(tm) <> 0.
Proof. split; [exact frame_start_wf | apply frame_cadence; apply frame_start_wf]. Defined.

(** Five PAL objects at consecutive CPU cycles 0..4. *)
Definition pal_run (i : nat) : Ppu :=
  let p := ppu_powered in
  mkPpu PAL p.(tm) p.(lt) p.(mm) p.(sp) p.(bg)
    (mkNes p.(nes_).(gamepak) p.(nes_).(nmi) (Z.of_nat i) p.(nes_).(frame_buffer)
           p.(nes_).(events) p.(nes_).(mapper_ticks)).

Lemma tick_beats_count_witness :
  (forall i, (pal_run i).(mode_) = PAL /\
             (pal_run i).(nes_).(cpu_cycles) = (pal_run 0).(nes_).(cpu_cycles) + Z.of_nat i) /\
  list_sum (map (fun i => tick_beats (pal_run i)) (seq 0 5)) = 16%nat.
Proof.
  assert (H : forall i, (pal_run i).(mode_) = PAL /\
             (pal_run i).(nes_).(cpu_cycles) = (pal_run 0).(nes_).(cpu_cycles) + Z.of_nat i)
    by (intros i; split; reflexivity).
  split; [exact H | apply (tick_beats_count (pal_run 0)); exact H].
Defined.
