(* ===== verification/Screen.v ===== *)
(** The frame buffer over a frame: which slots of [nes_->frame_buffer] the
    beats of [Tick.v] write.

    A beat writes at most one slot, [fb_index] of its position, exactly when
    its position is on screen (the guard of [graphics], src/ppu.cpp lines
    342-345); no other stage touches the frame buffer.  With the raster
    argument of [Frame.v] this gives the frame-level contract: the beats
    never write outside the 256x240 screen, and the 241 lines from the
    pre-render line to the last visible line write every one of its 61440
    slots. *)

From S2P Require Import Prelude Regs State Mmap Lifecycle Bus Render Pixel Tick Frame.

(** The guard of [render_pixel] in the beat loop:
    [if (scanline < 240) ... if (scanline >= 0 && x < 256) render_pixel();]. *)
Definition screen_beat (p : Ppu) : bool :=
  (ppu_scanline p <? 240) && ((0 <=? ppu_scanline p) && (ppu_x p <? 256)).

Local Abbreviation fb p := (frame_buffer (nes_ p)).

(** ** One beat on the frame buffer *)

Lemma render_pixel_fb `{PixelOut} p : exists v, fb (render_pixel p) = <[fb_index p := v]> (fb p).
Proof.
  unfold render_pixel. destruct (compose_pixel_unfold p) as (hit & v & ->).
  destruct hit; eexists; reflexivity.
Qed.

(** The stages other than [graphics] leave the frame buffer alone. *)
Lemma stages_fb :
  (forall p, fb (vblank_service p) = fb p) /\ (forall p, fb (decay_open_bus p) = fb p) /\
  (forall p, fb (step_cycle_counter p) = fb p) /\ (forall p, fb (sp0hit_hack p) = fb p) /\
  (forall l p, fb (end_of_line l p) = fb p) /\ (forall p, fb (end_beat p) = fb p).
Proof.
  split; [|split; [|split; [|split; [|split]]]]; intros;
    try (unfold vblank_service, decay_open_bus, sp0hit_hack, step_cycle_counter, end_beat;
         destruct_ifs; reflexivity);
    unfold end_of_line, fire_on_render; repeat case_match; reflexivity.
Qed.

(** The beam position, hence [screen_beat] and [fb_index], is the same at
    [graphics] as at the start of the beat. *)
Lemma beam_at_graphics p :
  let q := decay_open_bus (vblank_service p) in
  ppu_x q = ppu_x p /\ ppu_scanline q = ppu_scanline p.
Proof.
  cbv zeta. unfold ppu_x, ppu_scanline.
  destruct (decay_open_bus_tm (vblank_service p)) as [-> _].
  destruct (vblank_service_tm p) as [-> _]. apply vblank_count_beam.
Qed.

Lemma screen_beat_beam p q :
  ppu_x q = ppu_x p -> ppu_scanline q = ppu_scanline p ->
  screen_beat q = screen_beat p /\ fb_index q = fb_index p.
Proof. unfold screen_beat, fb_index. intros -> ->. split; reflexivity. Qed.

Section Beat.
Context `{PixelOut}.

Lemma graphics_fb q :
  dom (fb (graphics q)) = dom (fb q) ∪ (if screen_beat q then {[fb_index q]} else ∅).
Proof.
  unfold graphics, screen_beat. cbv zeta.
  set (r := if flag q ShowBGSP then rendering_tick q else q).
  assert (Er : fb r = fb q /\ ppu_x r = ppu_x q /\ ppu_scanline r = ppu_scanline q).
  { subst r. destruct (flag q ShowBGSP); [|auto].
    destruct (rendering_tick_tm q) as (b & E & _). destruct (rendering_tick_mem q) as (_ & _ & En & _).
    unfold ppu_x, ppu_scanline. rewrite E, En. destruct b; auto. }
  destruct Er as (Ef & Ex & Es). destruct (screen_beat_beam q r Ex Es) as [_ Ei].
  rewrite <- Ex, <- Es, <- Ei.
  destruct (ppu_scanline r <? 240); cbn [andb]; [|set_solver].
  destruct (_ && _); [|rewrite Ef; set_solver].
  destruct (render_pixel_fb r) as [v ->]. rewrite dom_insert_L, Ef. set_solver.
Qed.

(** A beat adds the slot of its position to the frame buffer when the
    position is on screen, and nothing else. *)
Lemma beat_fb_dom p :
  dom (fb (beat p)) = dom (fb p) ∪ (if screen_beat p then {[fb_index p]} else ∅).
Proof.
  destruct stages_fb as (F1 & F2 & F3 & F4 & F5 & F6).
  destruct (beam_at_graphics p) as [Ex Es].
  destruct (screen_beat_beam _ _ Ex Es) as [Eb Ei].
  unfold beat. destruct (mode_ p);
    rewrite ?beat_ntsc_stages, ?beat_pal_stages, F6, F5, ?F4, ?F3, graphics_fb, F2, F1, Eb, Ei;
    reflexivity.
Qed.

(** The slots written by [k] beats are those of the on-screen beats among them. *)
Lemma iter_fb_dom p k j :
  j ∈ dom (fb (Nat.iter k beat p)) <->
  j ∈ dom (fb p) \/
  exists i : nat, (i < k)%nat /\ screen_beat (Nat.iter i beat p) = true /\ j = fb_index (Nat.iter i beat p).
Proof.
  induction k as [|k IH]; [split; [tauto | intros [? | (? & ? & _)]; [assumption | lia]]|].
  rewrite Nat.iter_succ, beat_fb_dom, elem_of_union, IH.
  destruct (screen_beat (Nat.iter k beat p)) eqn:Es;
    rewrite ?elem_of_singleton, ?elem_of_empty; split.
  - intros [[? | (i & ? & ? & ?)] | ->]; [left | right; exists i | right; exists k]; auto with lia.
  - intros [? | (i & ? & ? & ->)]; [left; left; assumption|].
    destruct (Nat.eq_dec i k) as [-> | ?]; [right; reflexivity | left; right; exists i; auto with lia].
  - intros [[? | (i & ? & ? & ?)] | []]; [left | right; exists i]; auto with lia.
  - intros [? | (i & ? & ? & ->)]; [left; left; assumption|].
    destruct (Nat.eq_dec i k) as [-> | ?]; [congruence | left; right; exists i; auto with lia].
Qed.

(** An on-screen beat of a well-formed object writes a slot of the screen. *)
Lemma screen_beat_slot p :
  tick_wf p -> screen_beat p = true -> 0 <= fb_index p < 256 * 240.
Proof.
  unfold tick_wf, timing_wf, screen_beat. intros (_ & Hx & _) Hs.
  rewrite !andb_true_iff, Z.ltb_lt, Z.leb_le, Z.ltb_lt in Hs.
  apply fb_index_in_frame; unfold ppu_x, ppu_scanline in *; lia.
Qed.

(** The beat at raster position [(s+1)*341 + c] of a well-formed object is
    at scanline [s], column [c]. *)
Lemma frame_pos_beam p s c :
  tick_wf p -> 0 <= c < 341 -> -1 <= s -> frame_pos p.(tm) = (s + 1) * 341 + c ->
  ppu_scanline p = s /\ ppu_x p = c.
Proof. unfold tick_wf, timing_wf, frame_pos, ppu_scanline, ppu_x. intros (? & ? & ? & _) ? ? ?. lia. Qed.

End Beat.

(** ** The frame-level contract *)

Section Claims.
Context `{PixelOut}.

(** C37: the beats paint exactly the screen.  From a well-formed object
    every slot the beats add to [nes_->frame_buffer] is one of the 256x240
    slots of the screen; from the first beat of a frame (scanline -1,
    x = 0), the [241 * 341] beats of the pre-render line and the 240
    visible lines write every one of those slots. *)
Theorem frame_paints_screen p n :
  tick_wf p -> frame_pos p.(tm) = 0 ->
  (forall j, j ∈ dom (fb (Nat.iter n beat p)) -> j ∈ dom (fb p) \/ 0 <= j < 256 * 240) /\
  ((Z.to_nat (241 * 341) <= n)%nat -> forall j, 0 <= j < 256 * 240 -> j ∈ dom (fb (Nat.iter n beat p))).
Proof.
  intros Hp H0. split.
  - intros j Hj. apply iter_fb_dom in Hj as [? | (i & _ & Hs & ->)]; [left; assumption | right].
    apply screen_beat_slot; [apply iter_beat_wf, Hp | exact Hs].
  - intros Hn j Hj. apply iter_fb_dom. right.
    assert (Hsc : 0 <= j / 256 < 240 /\ 0 <= j mod 256 < 256 /\ j = j / 256 * 256 + j mod 256)
      by (Z.div_mod_to_equations; lia).
    set (s := j / 256) in *. set (c := j mod 256) in *. clearbody s c.
    destruct (raster_hits (fun k => frame_pos (Nat.iter k beat p).(tm))
                          (fun k => raster_skip (Nat.iter k beat p).(tm)) (frame_len p.(mode_))
                          (frame_len_bound _) H0 (fun k => proj1 (iter_raster p k Hp))
                          (fun k => proj2 (iter_raster p k Hp)) ((s + 1) * 341 + c))
      as (k & Hk & Ek); [unfold frame_len; destruct (mode_ p); cbn; lia|].
    destruct (iter_beat_wf p k Hp) as [Wk _].
    destruct (frame_pos_beam _ s c Wk) as [Es Ex]; [lia | lia | exact Ek |].
    exists k. split; [lia|]. split.
    + unfold screen_beat. rewrite Es, Ex.
      apply andb_true_iff; split; [|apply andb_true_iff; split]; [apply Z.ltb_lt | apply Z.leb_le | apply Z.ltb_lt]; lia.
    + unfold fb_index. rewrite Es, Ex, Z.shiftl_mul_pow2 by lia. lia.
Qed.

End Claims.

#[local] Instance host_colour_screen : PixelOut := fun _ _ c _ => c.

Lemma frame_paints_screen_witness :
  (tick_wf frame_start /\ frame_pos frame_start.(tm) = 0 /\ (Z.to_nat (241 * 341) <= Z.to_nat (241 * 341))%nat) /\
  forall j, 0 <= j < 256 * 240 -> j ∈ dom (fb (Nat.iter (Z.to_nat (241 * 341)) beat frame_start)).
Proof.
  destruct frame_start_wf as [W F].
  split; [split; [exact W | split; [exact F | lia]] |].
  apply (frame_paints_screen frame_start (Z.to_nat (241 * 341)) W F). lia.
Defined.
