(* ===== verification/SpriteEval.v ===== *)
(** Sprite evaluation over a scanline (the second [switch] of
    [Ppu::rendering_tick], src/ppu.cpp lines 226-250, run by the beats of
    [Tick.v]).

    One beat does one step of a round-robin walk over primary OAM: on odd
    beats 64..255 the step selected by [OAMaddr++ & 3], on the other beats
    the read [sprtmp = OAM[OAMaddr]].  No single beat selects sprites; the
    line does.  This file gives the walk as a machine of its own on the
    evaluation state ([eval_beat] on [Eval]: [OAMaddr], [sprinpos],
    [sproutpos], [sprtmp], [OAM2], [SPoverflow]), analyses it one sprite at
    a time (one beat pair for a sprite off the line, four for a sprite on
    it), and proves that the 96 beat pairs of a line copy the first eight
    sprites on the line into [OAM2] and raise [SPoverflow] exactly when
    there is a ninth. *)

From S2P Require Import Prelude Regs State Mmap Lifecycle Bus Render Pixel Tick Frame.

(** ** The evaluation state *)

Record Eval := mkEval {
  e_addr : Z; e_in : Z; e_out : Z; e_tmp : Z; e_oam2 : gmap Z Oam.t; e_ovf : Z
}.

Definition set_addr v (e : Eval) := mkEval v e.(e_in) e.(e_out) e.(e_tmp) e.(e_oam2) e.(e_ovf).
Definition set_in v (e : Eval) := mkEval e.(e_addr) v e.(e_out) e.(e_tmp) e.(e_oam2) e.(e_ovf).
Definition set_out v (e : Eval) := mkEval e.(e_addr) e.(e_in) v e.(e_tmp) e.(e_oam2) e.(e_ovf).
Definition set_tmp v (e : Eval) := mkEval e.(e_addr) e.(e_in) e.(e_out) v e.(e_oam2) e.(e_ovf).
Definition set_ovf v (e : Eval) := mkEval e.(e_addr) e.(e_in) e.(e_out) e.(e_tmp) e.(e_oam2) v.

(** The fields evaluation copies into [OAM2]: sprite number, y, tile,
    attributes, x. *)
Definition entry_of (o : Oam.t) : Z * Z * Z * Z * Z :=
  (o.(Oam.sprindex), o.(Oam.y), o.(Oam.index), o.(Oam.attr), o.(Oam.x)).

Section Machine.
(** The scanline, [reg.SPsize] and primary OAM, fixed over a line. *)
Variables (s : Z) (sz : bool) (oam : gmap Z Z).

(** [scanline >= y1 && scanline < y2] with [y2 = y1 + (SPsize ? 16 : 8)]. *)
Definition in_range (y : Z) : bool := (y <=? s) && (s <? y + (if sz then 16 else 8)).

(** [if (sproutpos < 8) OAM2[sproutpos].f = v;] *)
Definition pub (set : Z -> Oam.t -> Oam.t) (v : Z) (e : Eval) : Eval :=
  let k := e.(e_out) in
  if k <? 8 then mkEval e.(e_addr) e.(e_in) k e.(e_tmp) (<[k := set v (e.(e_oam2) !!! k)]> e.(e_oam2)) e.(e_ovf)
  else e.

(** The step of an odd beat 64..255: [switch (reg.OAMaddr++ & 3)], with
    [OAMaddr] an 8-bit field. *)
Definition eval_step (e : Eval) : Eval :=
  let sel := e.(e_addr) .& 3 in
  let e := set_addr ((e.(e_addr) + 1) mod 256) e in
  let t := e.(e_tmp) in
  match sel with
  | 0 =>
      if 64 <=? e.(e_in) then set_addr 0 e else
      let e := set_in (e.(e_in) + 1) e in
      let e := pub Oam.set_y t e in
      let e := pub Oam.set_sprindex (e.(e_addr) >> 2) e in
      if in_range t then e
      else set_addr (if negb (e.(e_in) =? 2) then (e.(e_addr) + 3) mod 256 else 8) e
  | 1 => pub Oam.set_index t e
  | 2 => pub Oam.set_attr t e
  | _ =>
      let e := pub Oam.set_x t e in
      let e := if e.(e_out) <? 8 then set_out (e.(e_out) + 1) e else set_ovf 1 e in
      if e.(e_in) =? 2 then set_addr 8 e else e
  end.

(** [sprite_eval] on the evaluation state: the step on odd beats 64..255,
    [sprtmp = OAM[reg.OAMaddr]] on the others. *)
Definition eval_beat (x : Z) (e : Eval) : Eval :=
  if (64 <=? x) && (x <? 256) && (x mod 2 =? 1) then eval_step e
  else set_tmp (oam !!! e.(e_addr)) e.

(** An even beat and the odd beat after it, inside 64..255. *)
Definition eval_pair (e : Eval) : Eval := eval_beat 65 (eval_beat 64 e).

(** Sprite [k] of primary OAM as evaluation copies it. *)
Definition oam_sprite (k : Z) : Z * Z * Z * Z * Z :=
  (k, oam !!! (4 * k), oam !!! (4 * k + 1), oam !!! (4 * k + 2), oam !!! (4 * k + 3)).

(** The sprites among [0 .. n-1] that are on the line, in OAM order. *)
Definition found (n : nat) : list Z := List.filter (fun k => in_range (oam !!! (4 * k))) (zseq n).

(** Beat pairs the walk spends on sprite [k]. *)
Definition cost (k : Z) : nat := if in_range (oam !!! (4 * k)) then 4 else 1.

(** Walk position: [OAMaddr] at sprite [k], [k] sprites examined. *)
Definition aligned (k : Z) (e : Eval) : Prop :=
  e.(e_addr) = (4 * k) mod 256 /\ e.(e_in) = k /\ 0 <= e.(e_out) <= 8.

(** [n] beats from column [x] on the evaluation state. *)
Fixpoint eval_run (x : Z) (n : nat) (e : Eval) : Eval :=
  match n with O => e | S n => eval_run (x + 1) n (eval_beat x e) end.

(** Beat pairs the walk spends on sprites [0 .. K-1]. *)
Definition walk_cost (K : nat) : nat := (K + 3 * length (found K))%nat.

(** After the walk over sprites [0 .. K-1] from the reset state [e0]. *)
Definition walked (K : nat) (e0 e : Eval) : Prop :=
  aligned (Z.of_nat K) e /\ e.(e_out) = Z.of_nat (Nat.min 8 (length (found K))) /\
  (forall i k, found K !! i = Some k -> (i < 8)%nat -> entry_of (e.(e_oam2) !!! Z.of_nat i) = oam_sprite k) /\
  e.(e_ovf) = (if (9 <=? length (found K))%nat then 1 else e0.(e_ovf)).

End Machine.

(** The evaluation state of the object: [reg.OAMaddr], [sprinpos],
    [sproutpos], [sprtmp], [OAM2], [reg.SPoverflow]. *)
Definition eval_view (p : Ppu) : Eval :=
  mkEval (rg p OAMaddr) p.(sp).(sprinpos) p.(sp).(sproutpos) p.(sp).(sprtmp) p.(mm).(OAM2) (rg p SPoverflow).

(** What a line's sprite evaluation and fetch read and no beat of the line
    writes: primary OAM and the [SPsize]/[ShowBGSP]/[ShowSP]/[ShowBG]/
    [SPaddr] bits. *)
Definition line_frame (p q : Ppu) : Prop :=
  q.(mm).(OAM) = p.(mm).(OAM) /\ rg q SPsize = rg p SPsize /\ rg q ShowBGSP = rg p ShowBGSP /\
  rg q ShowSP = rg p ShowSP /\ rg q ShowBG = rg p ShowBG /\ rg q SPaddr = rg p SPaddr.

(** A stage that leaves the evaluation state and the line frame alone. *)
Definition eval_quiet (f : Ppu -> Ppu) (p : Ppu) : Prop :=
  eval_view (f p) = eval_view p /\ line_frame p (f p).

(** ** The walk, one beat pair and one sprite at a time *)

Lemma pub_fields f v e :
  (pub f v e).(e_addr) = e.(e_addr) /\ (pub f v e).(e_in) = e.(e_in) /\ (pub f v e).(e_out) = e.(e_out) /\
  (pub f v e).(e_tmp) = e.(e_tmp) /\ (pub f v e).(e_ovf) = e.(e_ovf).
Proof. unfold pub. destruct (_ <? 8); repeat split. Qed.

Lemma pub_addr f v e : (pub f v e).(e_addr) = e.(e_addr). Proof. apply pub_fields. Qed.
Lemma pub_in f v e : (pub f v e).(e_in) = e.(e_in). Proof. apply pub_fields. Qed.
Lemma pub_out f v e : (pub f v e).(e_out) = e.(e_out). Proof. apply pub_fields. Qed.
Lemma pub_tmp f v e : (pub f v e).(e_tmp) = e.(e_tmp). Proof. apply pub_fields. Qed.
Lemma pub_ovf f v e : (pub f v e).(e_ovf) = e.(e_ovf). Proof. apply pub_fields. Qed.

Lemma pub_oam2 f v e i :
  (pub f v e).(e_oam2) !!! i =
  if (i =? e.(e_out)) && (e.(e_out) <? 8) then f v (e.(e_oam2) !!! i) else e.(e_oam2) !!! i.
Proof.
  unfold pub. destruct (e_out e <? 8); cbn [e_oam2]; [|rewrite andb_false_r; destruct (i =? e_out e); reflexivity].
  rewrite andb_true_r. destruct (Z.eqb_spec i (e_out e)) as [-> | Hne];
    [rewrite lookup_total_insert_eq | rewrite lookup_total_insert_ne by congruence]; reflexivity.
Qed.

Create Rewrite HintDb eval.
#[export] Hint Rewrite pub_addr pub_in pub_out pub_tmp pub_ovf pub_oam2 : eval.

#[local] Arguments set_addr _ _ /.
#[local] Arguments set_in _ _ /.
#[local] Arguments set_out _ _ /.
#[local] Arguments set_tmp _ _ /.
#[local] Arguments set_ovf _ _ /.

Ltac eval_simpl :=
  cbn [e_addr e_in e_out e_tmp e_oam2 e_ovf set_addr set_in set_out set_tmp set_ovf] in *;
  autorewrite with eval in *.

Lemma addr_facts k j :
  0 <= k < 64 -> 0 <= j < 4 -> (4 * k + j) mod 256 = 4 * k + j /\ (4 * k + j) .& 3 = j /\ (4 * k + j) >> 2 = k.
Proof.
  intros Hk Hj. split; [apply Z.mod_small; lia|]. split.
  - change 3 with (Z.ones 2). rewrite Z.land_ones by lia. zmod_lia.
  - rewrite Z.shiftr_div_pow2 by lia. zmod_lia.
Qed.

Section Walk.
Context (s : Z) (sz : bool) (oam : gmap Z Z).

Lemma eval_pair_unfold e : eval_pair s sz oam e = eval_step s sz (set_tmp (oam !!! e.(e_addr)) e).
Proof. reflexivity. Qed.

(** First beat pair at sprite [k]: [sprinpos] moves on, [y] and the sprite
    number are published, and a sprite off the line is skipped. *)
Lemma pair_0 k e :
  0 <= k < 64 -> e.(e_addr) = 4 * k -> e.(e_in) = k ->
  let y := oam !!! (4 * k) in let r := eval_pair s sz oam e in
  r.(e_addr) = (if in_range s sz y then 4 * k + 1 else (4 * k + 4) mod 256) /\ r.(e_in) = k + 1 /\
  r.(e_out) = e.(e_out) /\ r.(e_ovf) = e.(e_ovf) /\
  forall i, r.(e_oam2) !!! i = if (i =? e.(e_out)) && (e.(e_out) <? 8)
                              then Oam.set_sprindex k (Oam.set_y y (e.(e_oam2) !!! i)) else e.(e_oam2) !!! i.
Proof.
  intros Hk Ha Hi. destruct (addr_facts k 0 Hk ltac:(lia)) as (_ & A0 & _).
  destruct (addr_facts k 1 Hk ltac:(lia)) as (M1 & _ & S1). rewrite Z.add_0_r in A0.
  cbv zeta. rewrite eval_pair_unfold. unfold eval_step. eval_simpl. rewrite Ha, A0, Hi, M1. eval_simpl. rewrite S1.
  assert (Hb : (64 <=? k) = false) by (apply Z.leb_gt; lia). rewrite Hb.
  destruct (in_range s sz (oam !!! (4 * k))); eval_simpl;
    [| replace (if negb (k + 1 =? 2) then (4 * k + 1 + 3) mod 256 else 8) with ((4 * k + 4) mod 256)
         by (destruct (Z.eqb_spec (k + 1) 2); [replace k with 1 by lia; reflexivity | f_equal; lia])];
    (split; [reflexivity|]; split; [reflexivity|]; split; [reflexivity|]; split; [reflexivity|]);
    intros i; eval_simpl; destruct (_ && _); reflexivity.
Qed.

(** Second and third pairs of a sprite on the line: tile and attributes. *)
Lemma pair_12 k j e :
  0 <= k < 64 -> (j = 1 \/ j = 2) -> e.(e_addr) = 4 * k + j ->
  let v := oam !!! (4 * k + j) in let r := eval_pair s sz oam e in
  r.(e_addr) = 4 * k + j + 1 /\ r.(e_in) = e.(e_in) /\ r.(e_out) = e.(e_out) /\ r.(e_ovf) = e.(e_ovf) /\
  forall i, r.(e_oam2) !!! i = if (i =? e.(e_out)) && (e.(e_out) <? 8)
                              then (if j =? 1 then Oam.set_index v else Oam.set_attr v) (e.(e_oam2) !!! i)
                              else e.(e_oam2) !!! i.
Proof.
  intros Hk Hj Ha. destruct (addr_facts k j Hk ltac:(lia)) as (_ & Aj & _).
  destruct (addr_facts k (j + 1) Hk ltac:(lia)) as (Mj & _ & _).
  cbv zeta. rewrite eval_pair_unfold. unfold eval_step. eval_simpl. rewrite Ha, Aj.
  rewrite Z.add_assoc in Mj. rewrite Mj.
  destruct Hj as [-> | ->]; eval_simpl;
    (split; [reflexivity|]; split; [reflexivity|]; split; [reflexivity|]; split; [reflexivity|]);
    intros i; eval_simpl; reflexivity.
Qed.

(** Fourth pair: x, and [sproutpos] moves on or [SPoverflow] is raised. *)
Lemma pair_3 k e :
  0 <= k < 64 -> e.(e_addr) = 4 * k + 3 -> e.(e_in) = k + 1 ->
  let v := oam !!! (4 * k + 3) in let r := eval_pair s sz oam e in
  r.(e_addr) = (4 * k + 4) mod 256 /\ r.(e_in) = k + 1 /\
  r.(e_out) = (if e.(e_out) <? 8 then e.(e_out) + 1 else e.(e_out)) /\
  r.(e_ovf) = (if e.(e_out) <? 8 then e.(e_ovf) else 1) /\
  forall i, r.(e_oam2) !!! i = if (i =? e.(e_out)) && (e.(e_out) <? 8)
                              then Oam.set_x v (e.(e_oam2) !!! i) else e.(e_oam2) !!! i.
Proof.
  intros Hk Ha Hi. destruct (addr_facts k 3 Hk ltac:(lia)) as (_ & A3 & _).
  cbv zeta. rewrite eval_pair_unfold. unfold eval_step. eval_simpl. rewrite Ha, A3. eval_simpl.
  rewrite Hi. replace (4 * k + 3 + 1) with (4 * k + 4) by lia.
  assert (E : forall r : Eval, r.(e_in) = k + 1 -> r.(e_addr) = (4 * k + 4) mod 256 ->
            (if r.(e_in) =? 2 then set_addr 8 r else r) = r).
  { intros r Er Ea. rewrite Er. destruct (Z.eqb_spec (k + 1) 2); [|reflexivity].
    destruct r; cbn in *. f_equal. rewrite Ea. replace k with 1 by lia. reflexivity. }
  destruct (e_out e <? 8) eqn:Eo; rewrite E; eval_simpl; rewrite ?Hi; try reflexivity;
    (split; [reflexivity|]; split; [reflexivity|]; split; [reflexivity|]; split; [reflexivity|]);
    intros i; eval_simpl; eval_simpl; rewrite ?Eo; reflexivity.
Qed.

Lemma aligned_next k r :
  0 <= k < 64 -> r.(e_addr) = (4 * k + 4) mod 256 -> r.(e_in) = k + 1 -> 0 <= r.(e_out) <= 8 ->
  aligned (k + 1) r.
Proof. intros Hk Ha Hi Ho. unfold aligned. rewrite Ha, Hi. split; [f_equal; lia | auto]. Qed.

(** One sprite of the walk: a sprite off the line takes one beat pair and
    only leaves [y] and its number in the free [OAM2] slot; a sprite on the
    line takes four, fills the slot and moves [sproutpos] on, or raises
    [SPoverflow] when the eight slots are taken. *)
Lemma visit k e :
  0 <= k < 64 -> aligned k e ->
  let y := oam !!! (4 * k) in
  let r := Nat.iter (cost s sz oam k) (eval_pair s sz oam) e in
  aligned (k + 1) r /\
  r.(e_out) = (if in_range s sz y && (e.(e_out) <? 8) then e.(e_out) + 1 else e.(e_out)) /\
  r.(e_ovf) = (if in_range s sz y && negb (e.(e_out) <? 8) then 1 else e.(e_ovf)) /\
  (forall i, i <> e.(e_out) -> r.(e_oam2) !!! i = e.(e_oam2) !!! i) /\
  (in_range s sz y = true -> e.(e_out) < 8 -> entry_of (r.(e_oam2) !!! e.(e_out)) = oam_sprite oam k).
Proof.
  intros Hk (Ha & Hi & Ho). rewrite Z.mod_small in Ha by lia. unfold cost. cbv zeta.
  destruct (pair_0 k e Hk Ha Hi) as (A1 & I1 & O1 & F1 & M1). cbv zeta in *.
  destruct (in_range s sz (oam !!! (4 * k))) eqn:Ey; cbn [andb negb] in *.
  - change (Nat.iter 4 (eval_pair s sz oam) e)
      with (eval_pair s sz oam (eval_pair s sz oam (eval_pair s sz oam (eval_pair s sz oam e)))).
    set (e1 := eval_pair s sz oam e) in *.
    destruct (pair_12 k 1 e1 Hk ltac:(lia) A1) as (A2 & I2 & O2 & F2 & M2). cbv zeta in *.
    set (e2 := eval_pair s sz oam e1) in *.
    destruct (pair_12 k 2 e2 Hk ltac:(lia) ltac:(rewrite A2; lia)) as (A3 & I3 & O3 & F3 & M3). cbv zeta in *.
    set (e3 := eval_pair s sz oam e2) in *.
    destruct (pair_3 k e3 Hk ltac:(rewrite A3; lia) ltac:(congruence)) as (A4 & I4 & O4 & F4 & M4).
    cbv zeta in *. rewrite O3, O2, O1 in O4, M4, F4. rewrite F3, F2, F1 in F4.
    split; [apply aligned_next; auto; rewrite O4; destruct (e_out e <? 8) eqn:E; [apply Z.ltb_lt in E|]; lia|].
    split; [exact O4|]. split; [rewrite F4; destruct (e_out e <? 8); reflexivity|]. split.
    + intros i Hne. rewrite M4, M3, M2, M1, ?O3, ?O2, ?O1. apply Z.eqb_neq in Hne. rewrite Hne. reflexivity.
    + intros _ Hlt. rewrite M4, M3, M2, M1, ?O3, ?O2, ?O1, Z.eqb_refl. apply Z.ltb_lt in Hlt. rewrite Hlt.
      reflexivity.
  - change (Nat.iter 1 (eval_pair s sz oam) e) with (eval_pair s sz oam e). split; [apply aligned_next; auto; lia|].
    split; [exact O1|]. split; [exact F1|]. split; [|discriminate].
    intros i Hne. rewrite M1. apply Z.eqb_neq in Hne. rewrite Hne. reflexivity.
Qed.

Lemma found_S K :
  found s sz oam (S K) =
  found s sz oam K ++ (if in_range s sz (oam !!! (4 * Z.of_nat K)) then [Z.of_nat K] else []).
Proof.
  unfold found, zseq. rewrite seq_S, map_app, List.filter_app. cbn [map List.filter].
  destruct (in_range _ _ _); reflexivity.
Qed.

Lemma found_prefix K d : exists l, found s sz oam (d + K) = found s sz oam K ++ l.
Proof.
  induction d as [|d [l IH]]; [exists []; rewrite app_nil_r; reflexivity|].
  rewrite Nat.add_succ_l, found_S, IH, <- app_assoc. eexists; reflexivity.
Qed.

(** Every count up to the number of sprites on the line is reached. *)
Lemma found_reach n K :
  (n <= length (found s sz oam K))%nat -> exists K', (K' <= K)%nat /\ length (found s sz oam K') = n.
Proof.
  induction K as [|K IH]; intros Hn.
  - exists 0%nat. cbn in *. lia.
  - rewrite found_S, length_app in Hn.
    destruct (Nat.eq_dec n (length (found s sz oam (S K)))) as [E | Ne]; [exists (S K); auto|].
    rewrite found_S, length_app in Ne.
    destruct IH as (K' & HK & E); [destruct (in_range _ _ _); cbn in *; lia|]. exists K'. split; [lia | exact E].
Qed.

Lemma walk_cost_S K : walk_cost s sz oam (S K) = (cost s sz oam (Z.of_nat K) + walk_cost s sz oam K)%nat.
Proof.
  unfold walk_cost, cost. rewrite found_S, length_app.
  destruct (in_range _ _ _); cbn [length]; lia.
Qed.

Lemma walked_S K e0 e :
  (K < 64)%nat -> walked s sz oam K e0 e -> walked s sz oam (S K) e0 (Nat.iter (cost s sz oam (Z.of_nat K)) (eval_pair s sz oam) e).
Proof.
  intros HK (Al & Ho & Hs & Hv).
  destruct (visit (Z.of_nat K) e ltac:(lia) Al) as (Al' & Ho' & Hv' & Hkeep & Hnew). cbv zeta in *.
  unfold walked. rewrite found_S, length_app. rewrite Nat2Z.inj_succ, <- Z.add_1_r.
  set (n := length (found s sz oam K)) in *.
  destruct (in_range s sz (oam !!! (4 * Z.of_nat K))) eqn:Ey; cbn [andb negb length] in *.
  - rewrite Ho in Ho', Hv', Hkeep, Hnew.
    destruct (Z.ltb_spec (Z.of_nat (Nat.min 8 n)) 8) as [Hlt | Hge].
    + split; [exact Al'|]. split; [rewrite Ho'; lia|]. split.
      * intros i k Hi Hi8. destruct (Nat.lt_ge_cases i n) as [Hin | Hin].
        -- rewrite lookup_app_l in Hi by lia. rewrite Hkeep by lia. apply Hs; auto.
        -- rewrite lookup_app_r in Hi by lia. apply list_lookup_singleton_Some in Hi as [Hi0 <-].
           replace (Z.of_nat i) with (Z.of_nat (Nat.min 8 n)) by lia. apply Hnew; auto.
      * rewrite Hv', Hv. destruct (Nat.leb_spec 9 n), (Nat.leb_spec 9 (n + 1)); lia || reflexivity.
    + split; [exact Al'|]. split; [rewrite Ho'; lia|]. split.
      * intros i k Hi Hi8. rewrite lookup_app_l in Hi by lia. rewrite Hkeep by lia. apply Hs; auto.
      * rewrite Hv'. destruct (Nat.leb_spec 9 (n + 1)); [reflexivity | lia].
  - rewrite app_nil_r, Nat.add_0_r. split; [exact Al'|]. split; [rewrite Ho'; exact Ho|]. split; [|rewrite Hv'; exact Hv].
    intros i k Hi Hi8. assert (i < n)%nat by (apply lookup_lt_Some in Hi; exact Hi).
    rewrite Hkeep by lia. apply Hs; auto.
Qed.

Lemma walk K e0 :
  (K <= 64)%nat -> e0.(e_addr) = 0 -> e0.(e_in) = 0 -> e0.(e_out) = 0 ->
  walked s sz oam K e0 (Nat.iter (walk_cost s sz oam K) (eval_pair s sz oam) e0).
Proof.
  intros HK Ha Hi Ho. induction K as [|K IH].
  - unfold walked, aligned. cbn. rewrite Ha, Hi, Ho. repeat split; try lia.
    intros i k Hk. rewrite lookup_nil in Hk. discriminate.
  - rewrite walk_cost_S, Nat.iter_add. apply walked_S; [lia | apply IH; lia].
Qed.

(** With all 64 sprites examined the walk only rereads [OAM[0]]. *)
Lemma pair_done e :
  e.(e_addr) = 0 -> e.(e_in) = 64 -> eval_pair s sz oam e = set_tmp (oam !!! 0) e.
Proof.
  intros Ha Hi. rewrite eval_pair_unfold. unfold eval_step. eval_simpl. rewrite Ha. eval_simpl.
  rewrite Hi. destruct e; cbn in *. subst. reflexivity.
Qed.

Lemma walked_done e0 e n :
  walked s sz oam 64 e0 e -> walked s sz oam 64 e0 (Nat.iter n (eval_pair s sz oam) e).
Proof.
  induction n as [|n IH]; intros Hw; [exact Hw|].
  rewrite Nat.iter_succ. destruct (IH Hw) as ((Ha & Hi & Ho) & Rest).
  rewrite pair_done; [| exact Ha | exact Hi]. exact (conj (conj Ha (conj Hi Ho)) Rest).
Qed.

(** With the eight slots taken and the overflow raised, no step changes
    [OAM2], [sproutpos] or [SPoverflow]. *)
Lemma pub_full f v e : e.(e_out) = 8 -> pub f v e = e.
Proof. intros Ho. unfold pub. rewrite Ho. reflexivity. Qed.

Lemma pair_full e :
  e.(e_out) = 8 -> e.(e_ovf) = 1 ->
  let r := eval_pair s sz oam e in r.(e_out) = 8 /\ r.(e_ovf) = 1 /\ r.(e_oam2) = e.(e_oam2).
Proof.
  intros Ho Hv. cbv zeta. rewrite eval_pair_unfold. unfold eval_step.
  rewrite !pub_full by (eval_simpl; exact Ho). eval_simpl. rewrite Ho.
  rewrite Z.ltb_irrefl. eval_simpl. repeat (case_match; eval_simpl); auto.
Qed.

Lemma iter_full e n :
  e.(e_out) = 8 -> e.(e_ovf) = 1 ->
  let r := Nat.iter n (eval_pair s sz oam) e in r.(e_out) = 8 /\ r.(e_ovf) = 1 /\ r.(e_oam2) = e.(e_oam2).
Proof.
  intros Ho Hv. induction n as [|n (IHo & IHv & IHm)]; [auto|].
  cbv zeta in *. rewrite Nat.iter_succ. destruct (pair_full _ IHo IHv) as (O & V & M).
  rewrite M. auto.
Qed.

(** The 96 beat pairs of a line, from the reset state: [OAM2] holds the
    first eight sprites on the line, [sproutpos] counts them, and
    [SPoverflow] is raised exactly when there is a ninth. *)
Lemma eval_line e0 :
  e0.(e_addr) = 0 -> e0.(e_in) = 0 -> e0.(e_out) = 0 ->
  let e := Nat.iter 96 (eval_pair s sz oam) e0 in
  let m := length (found s sz oam 64) in
  e.(e_out) = Z.of_nat (Nat.min 8 m) /\
  (forall i k, found s sz oam 64 !! i = Some k -> (i < 8)%nat ->
               entry_of (e.(e_oam2) !!! Z.of_nat i) = oam_sprite oam k) /\
  e.(e_ovf) = (if (9 <=? m)%nat then 1 else e0.(e_ovf)).
Proof.
  intros Ha Hi Ho. cbv zeta.
  destruct (Nat.le_gt_cases (length (found s sz oam 64)) 8) as [Hm | Hm].
  - assert (Hc : (walk_cost s sz oam 64 <= 96)%nat) by (unfold walk_cost; lia).
    replace 96%nat with ((96 - walk_cost s sz oam 64) + walk_cost s sz oam 64)%nat by lia.
    rewrite Nat.iter_add. destruct (walked_done e0 _ (96 - walk_cost s sz oam 64) (walk 64 e0 ltac:(lia) Ha Hi Ho))
      as (_ & Ho' & Hs & Hv). auto.
  - destruct (found_reach 9 64 ltac:(lia)) as (K & HK & HK9).
    assert (Hc : (walk_cost s sz oam K <= 96)%nat) by (unfold walk_cost; lia).
    destruct (walk K e0 HK Ha Hi Ho) as (_ & Ho' & Hs & Hv). rewrite HK9 in Ho', Hv. cbn in Ho', Hv.
    replace 96%nat with ((96 - walk_cost s sz oam K) + walk_cost s sz oam K)%nat by lia. rewrite Nat.iter_add.
    destruct (iter_full _ (96 - walk_cost s sz oam K) Ho' Hv) as (Ho'' & Hv'' & Hm'').
    destruct (found_prefix K (64 - K)) as [l Hl]. replace (64 - K + K)%nat with 64%nat in Hl by lia.
    split; [rewrite Ho''; lia|]. split; [|rewrite Hv''; destruct (Nat.leb_spec 9 (length (found s sz oam 64))); [reflexivity | lia]].
    intros i k Hik Hi8. rewrite Hm''. apply Hs; [|exact Hi8].
    rewrite Hl in Hik. rewrite lookup_app_l in Hik by lia. exact Hik.
Qed.
End Walk.

Lemma if_distr {A B} (f : A -> B) (c : bool) a b : f (if c then a else b) = if c then f a else f b.
Proof. destruct c; reflexivity. Qed.

Lemma rg_OAMindex v p : rg (upd_reg OAMaddr v p) OAMindex = (v mod 256) >> 2.
Proof.
  unfold rg, upd_reg. cbn [lt with_lt reg set_reg]. rewrite fget_fset_inside by reflexivity.
  unfold regbit_get. cbn.
  rewrite !Z.shiftr_div_pow2, Z.land_ones by lia. zmod_lia.
Qed.

Section View.
Lemma rg_upd_OAMaddr v p : rg (upd_reg OAMaddr v p) OAMaddr = v mod 256.
Proof. apply rg_upd_same. Qed.
Lemma view_upd_OAMaddr v p : eval_view (upd_reg OAMaddr v p) = set_addr (v mod 256) (eval_view p).
Proof. unfold eval_view. rewrite rg_upd_same, rg_upd_other by reflexivity. reflexivity. Qed.
Lemma view_upd_SPoverflow v p : eval_view (upd_reg SPoverflow v p) = set_ovf (v mod 2) (eval_view p).
Proof. unfold eval_view. rewrite rg_upd_same, rg_upd_other by reflexivity. reflexivity. Qed.
Lemma view_sprinpos g p : eval_view (with_sp (fun s => set_sprinpos (g s) s) p) = set_in (g p.(sp)) (eval_view p).
Proof. reflexivity. Qed.
Lemma view_sproutpos g p : eval_view (with_sp (fun s => set_sproutpos (g s) s) p) = set_out (g p.(sp)) (eval_view p).
Proof. reflexivity. Qed.
Lemma view_sprtmp v p : eval_view (with_sp (set_sprtmp v) p) = set_tmp v (eval_view p).
Proof. reflexivity. Qed.
Lemma view_publish f v p : eval_view (publish f v p) = pub f v (eval_view p).
Proof. unfold publish, pub. destruct (_ <? 8); reflexivity. Qed.
End View.

Lemma view_if (c : bool) a b : eval_view (if c then a else b) = if c then eval_view a else eval_view b.
Proof. apply if_distr. Qed.
Lemma sp_if (c : bool) a b : (if c then a else b).(sp) = if c then a.(sp) else b.(sp).
Proof. apply if_distr. Qed.
Lemma sprinpos_if (c : bool) a b : (if c then a else b).(sprinpos) = if c then a.(sprinpos) else b.(sprinpos).
Proof. apply if_distr. Qed.
Lemma sp_with_sp f p : (with_sp f p).(sp) = f p.(sp). Proof. reflexivity. Qed.
Lemma tm_with_sp f p : (with_sp f p).(tm) = p.(tm). Proof. reflexivity. Qed.
Lemma rg_with_sp f p g : rg (with_sp f p) g = rg p g. Proof. reflexivity. Qed.
Lemma sp_publish f v p : (publish f v p).(sp) = p.(sp). Proof. unfold publish. destruct (_ <? 8); reflexivity. Qed.
Lemma tm_publish f v p : (publish f v p).(tm) = p.(tm). Proof. unfold publish. destruct (_ <? 8); reflexivity. Qed.
Lemma rg_publish f v p g : rg (publish f v p) g = rg p g. Proof. unfold publish. destruct (_ <? 8); reflexivity. Qed.
Lemma sp_upd_reg f v p : (upd_reg f v p).(sp) = p.(sp). Proof. reflexivity. Qed.
Lemma tm_upd_reg f v p : (upd_reg f v p).(tm) = p.(tm). Proof. reflexivity. Qed.
Lemma sprinpos_set_sprinpos v s : (set_sprinpos v s).(sprinpos) = v. Proof. reflexivity. Qed.
Lemma sprinpos_set_sproutpos v s : (set_sproutpos v s).(sprinpos) = s.(sprinpos). Proof. reflexivity. Qed.
Lemma sproutpos_set_sprinpos v s : (set_sprinpos v s).(sproutpos) = s.(sproutpos). Proof. reflexivity. Qed.

Create Rewrite HintDb view.
#[export] Hint Rewrite view_if view_upd_OAMaddr view_upd_SPoverflow view_sprinpos view_sproutpos view_sprtmp
  view_publish sp_if sprinpos_if sp_with_sp tm_with_sp rg_with_sp sp_publish tm_publish rg_publish
  sp_upd_reg tm_upd_reg rg_OAMindex rg_upd_OAMaddr sprinpos_set_sprinpos sprinpos_set_sproutpos sproutpos_set_sprinpos : view.
#[export] Hint Rewrite rg_upd_other using reflexivity : view.


Lemma sprite_eval_view p :
  eval_view (sprite_eval p) = eval_beat (ppu_scanline p) (flag p SPsize) p.(mm).(OAM) (ppu_x p) (eval_view p).
Proof.
  unfold sprite_eval, eval_beat. destruct (_ && _ && _); [|reflexivity].
  unfold eval_step, in_range, flag, ppu_scanline. cbn zeta. cbn [eval_view e_addr].
  destruct (rg p OAMaddr .& 3) as [|[[]|[]|]|]; autorewrite with view;
    unfold eval_view; do 3 eval_simpl;
    rewrite ?Zmod_0_l, ?(Z.mod_small 8 256), ?(Z.mod_small 1 2) by lia; try destruct (sproutpos (sp p) <? 8); do 2 eval_simpl; repeat case_match; eval_simpl; try reflexivity.
Qed.

(** ** The beats on the evaluation state *)

Lemma tile_decode_visible x : 0 <= x < 256 -> tile_decode_mode x = true.
Proof.
  apply (forallb_zseq (fun x => tile_decode_mode x) 256). vm_compute. reflexivity.
Qed.

(** On beats 1..255 the fetch phase touches only the background pipeline
    and [vaddr]. *)
Lemma fetch_phase_keeps p :
  0 < ppu_x p < 256 ->
  (fetch_phase p).(sp) = p.(sp) /\ (fetch_phase p).(mm) = p.(mm) /\
  (fetch_phase p).(lt).(reg) = p.(lt).(reg) /\ (fetch_phase p).(tm) = p.(tm).
Proof.
  intros Hx. pose proof (tile_decode_visible (ppu_x p) ltac:(lia)) as Ht.
  destruct (fetch_phase_cases p) as [E|[E|[E|[E|[E|[E|E]]]]]]; rewrite E; clear E.
  - unfold phase1. cbn zeta.
    destruct ((ppu_x p =? 337) && _ && _ && _ && _) eqn:E337; [rewrite !andb_true_iff, Z.eqb_eq in E337; lia|].
    change (ppu_x (with_bg _ p)) with (ppu_x p). rewrite Ht. repeat split.
  - unfold phase0. change (ppu_x (with_bg _ p)) with (ppu_x p).
    destruct (Z.eqb_spec (ppu_x p) 0); [lia|]. cbn zeta.
    repeat case_match; repeat split;
      match goal with H : (_ =? 256)%Z = true |- _ => apply Z.eqb_eq in H; unfold ppu_x in H, Hx; cbn in H; lia end.
  - unfold phase2. change (ppu_x (with_bg _ p)) with (ppu_x p). rewrite Ht. repeat split.
  - unfold phase3. rewrite Ht. unfold incr_xcoarse, incr_y. repeat case_match; repeat split.
  - repeat split.
  - unfold phase7. change (ppu_x (with_bg _ p)) with (ppu_x p). rewrite Ht. repeat split.
  - repeat split.
Qed.

Lemma eval_view_ext p q :
  rg q OAMaddr = rg p OAMaddr -> rg q SPoverflow = rg p SPoverflow -> q.(sp) = p.(sp) ->
  q.(mm).(OAM2) = p.(mm).(OAM2) -> eval_view q = eval_view p.
Proof. intros Ea Eo Es Em. unfold eval_view. rewrite Ea, Eo, Es, Em. reflexivity. Qed.


Lemma line_frame_refl p : line_frame p p.
Proof. repeat split. Qed.

Lemma line_frame_trans p q r : line_frame p q -> line_frame q r -> line_frame p r.
Proof. unfold line_frame. intros (? & ? & ? & ? & ? & ?) (? & ? & ? & ? & ? & ?). repeat split; congruence. Qed.


Lemma rg_with_nes f p g : rg (with_nes f p) g = rg p g.
Proof. reflexivity. Qed.

Ltac quiet_tac :=
  repeat case_match; (split; [apply eval_view_ext | unfold line_frame]); rewrite ?rg_with_nes; autorewrite with fields;
  repeat split.

Lemma stages_quiet `{PixelOut} p :
  eval_quiet decay_open_bus p /\ eval_quiet step_cycle_counter p /\ eval_quiet sp0hit_hack p /\
  (forall l, eval_quiet (end_of_line l) p) /\ eval_quiet end_beat p /\ eval_quiet render_pixel p.
Proof.
  split; [unfold eval_quiet, decay_open_bus; quiet_tac|].
  split; [unfold eval_quiet, step_cycle_counter; quiet_tac|].
  split; [unfold eval_quiet, sp0hit_hack; quiet_tac|].
  split; [intros l; unfold eval_quiet, end_of_line, fire_on_render; quiet_tac|].
  split; [unfold eval_quiet, end_beat; quiet_tac|].
  unfold eval_quiet, render_pixel. destruct (compose_pixel_unfold p) as (hit & v & ->). cbv zeta.
  destruct hit; quiet_tac.
Qed.

Lemma vblank_service_quiet p : p.(tm).(VBlankState) = 0 -> eval_quiet vblank_service p.
Proof. intros Hv. unfold eval_quiet, vblank_service. rewrite Hv. cbn [Z.eqb Pos.eqb]. quiet_tac. Qed.

Lemma rg_if (c : bool) a b g : rg (if c then a else b) g = if c then rg a g else rg b g.
Proof. destruct c; reflexivity. Qed.
Lemma mm_if (c : bool) a b : (if c then a else b).(mm) = if c then a.(mm) else b.(mm).
Proof. destruct c; reflexivity. Qed.
Lemma if_same_branch {A} (c : bool) (a : A) : (if c then a else a) = a.
Proof. destruct c; reflexivity. Qed.

Lemma mm_upd_reg f v p : (upd_reg f v p).(mm) = p.(mm).
Proof. reflexivity. Qed.
Lemma mm_with_sp f p : (with_sp f p).(mm) = p.(mm).
Proof. reflexivity. Qed.
Lemma OAM_publish f v p : (publish f v p).(mm).(OAM) = p.(mm).(OAM).
Proof. unfold publish. destruct (_ <? 8); reflexivity. Qed.

Lemma sprite_eval_frame p : line_frame p (sprite_eval p).
Proof.
  unfold line_frame, sprite_eval. destruct (_ && _ && _); [|repeat split].
  cbv zeta. repeat case_match; autorewrite with view fields;
    repeat rewrite ?mm_upd_reg, ?mm_with_sp, ?OAM_publish; repeat split.
Qed.

Lemma rg_upd_vaddr f v p g : rg (upd_vaddr f v p) g = rg p g.
Proof. reflexivity. Qed.
Lemma rg_with_bg f p g : rg (with_bg f p) g = rg p g.
Proof. reflexivity. Qed.

(** [reg.ShowSP] is the high bit of [reg.ShowBGSP]. *)
Lemma ShowSP_ShowBGSP p : flag p ShowSP = true -> flag p ShowBGSP = true.
Proof.
  unfold flag, rg, fget, regbit_get. cbn. rewrite !negb_true_iff, !Z.eqb_neq.
  rewrite !Z.shiftr_div_pow2, !Z.land_ones by lia. intros H. zmod_lia.
Qed.

(** Column 0 resets the walk: [sprinpos = sproutpos = 0], and [OAMaddr = 0]
    when sprites are shown. *)
Lemma fetch_phase_reset q :
  ppu_x q = 0 -> flag q ShowSP = true ->
  let f := fetch_phase q in
  f.(sp).(sprinpos) = 0 /\ f.(sp).(sproutpos) = 0 /\ rg f OAMaddr = 0 /\ rg f SPoverflow = rg q SPoverflow /\
  f.(mm) = q.(mm) /\ line_frame q f /\ f.(tm) = q.(tm).
Proof.
  intros Hx Hf. cbv zeta. replace (fetch_phase q) with (phase0 q) by (unfold fetch_phase; rewrite Hx; reflexivity).
  unfold phase0. change (ppu_x (with_bg _ q)) with (ppu_x q). rewrite Hx, Z.eqb_refl. cbv zeta.
  change (flag (with_sp _ (with_bg _ q)) ShowSP) with (flag q ShowSP). rewrite Hf.
  repeat case_match;
    try (match goal with H : (_ =? _)%Z = true |- _ => apply Z.eqb_eq in H; unfold ppu_x in H, Hx; cbn in H; lia end);
    unfold line_frame; rewrite ?rg_upd_vaddr, ?rg_with_sp, ?rg_with_bg; autorewrite with fields;
    repeat split.
Qed.

Section BeatEval.
Context `{PixelOut}.

(** The graphics stage of a beat on columns 1..255 of a rendered line. *)
Lemma graphics_eval q :
  0 < ppu_x q < 256 -> -1 <= ppu_scanline q < 240 -> flag q ShowBGSP = true ->
  eval_view (graphics q) = eval_beat (ppu_scanline q) (flag q SPsize) q.(mm).(OAM) (ppu_x q) (eval_view q) /\
  line_frame q (graphics q) /\ (graphics q).(tm) = q.(tm).
Proof.
  intros Hx Hs Hf. unfold graphics. destruct (Z.ltb_spec (ppu_scanline q) 240); [|lia]. rewrite Hf.
  destruct (fetch_phase_keeps q Hx) as (Es & Em & Er & Et).
  change (rendering_tick q) with (sprite_eval (fetch_phase q)).
  pose proof (sprite_eval_view (fetch_phase q)) as V. pose proof (sprite_eval_frame (fetch_phase q)) as F.
  destruct (phases_tm (fetch_phase q)) as (_ & _ & _ & Tr & _).
  assert (Vf : eval_view (fetch_phase q) = eval_view q)
    by (apply eval_view_ext; unfold rg; rewrite ?Er, ?Es, ?Em; reflexivity).
  assert (Ff : line_frame q (fetch_phase q)) by (unfold line_frame, rg; rewrite Em, Er; repeat split).
  unfold ppu_scanline, ppu_x, flag, rg in V. rewrite Vf, Et, Er, Em in V. fold (rg q SPsize) in V.
  set (r := sprite_eval (fetch_phase q)) in *. rewrite Et in Tr.
  assert (Fr : line_frame q r) by (eapply line_frame_trans; eauto).
  destruct (_ && _).
  - destruct (stages_quiet r) as (_ & _ & _ & _ & _ & [Vp Fp]). destruct (render_pixel_tm r) as [Tp _].
    split; [rewrite Vp; exact V|]. split; [eapply line_frame_trans; eauto | congruence].
  - auto.
Qed.

Lemma timing_step_quiet m t :
  t.(VBlankState) = 0 -> t.(x) + 1 <> t.(scanline_end) ->
  let t' := timing_step m false t in
  t'.(x) = t.(x) + 1 /\ t'.(scanline) = t.(scanline) /\ t'.(VBlankState) = 0.
Proof.
  intros Hv Hx. unfold timing_step, vblank_count, advance_beam, cc_step. rewrite Hv. cbn zeta.
  rewrite Z.eqb_refl. destruct m; cbn [x scanline VBlankState set_x set_cycles set_cycle_counter scanline_end];
    destruct (Z.eqb_spec (x t + 1) (scanline_end t)); try contradiction; cbn; auto.
Qed.

Lemma line_frame_flag p q f :
  line_frame p q -> f = SPsize \/ f = ShowBGSP \/ f = ShowSP \/ f = ShowBG -> flag q f = flag p f.
Proof. unfold line_frame, flag. intros (_ & E1 & E2 & E3 & E4 & _) [-> | [-> | [-> | ->]]]; congruence. Qed.

(** The stages of a beat around [graphics], outside the VBlank countdown,
    touch neither the evaluation state nor the line frame. *)
Lemma beat_graphics p :
  p.(tm).(VBlankState) = 0 ->
  let q := decay_open_bus (vblank_service p) in
  q.(tm) = p.(tm) /\ eval_view q = eval_view p /\ line_frame p q /\
  eval_view (beat p) = eval_view (graphics q) /\ line_frame (graphics q) (beat p).
Proof.
  intros Hv. cbv zeta.
  destruct (vblank_service_quiet p Hv) as [V1 F1].
  destruct (stages_quiet (vblank_service p)) as ([V2 F2] & _).
  split; [rewrite (proj1 (decay_open_bus_tm _)), (proj1 (vblank_service_tm _));
          unfold vblank_count; rewrite Hv; reflexivity|].
  split; [congruence|]. split; [eapply line_frame_trans; eauto|].
  set (q3 := graphics (decay_open_bus (vblank_service p))).
  destruct (stages_quiet q3) as (_ & [V4 F4] & _ & E6' & _).
  destruct (stages_quiet (step_cycle_counter q3)) as (_ & _ & [V5 F5] & _).
  destruct (stages_quiet (sp0hit_hack (step_cycle_counter q3))) as (_ & _ & _ & E6 & _).
  unfold beat; destruct (mode_ p); [rewrite beat_ntsc_stages | rewrite beat_pal_stages]; fold q3.
  - destruct (E6 261) as [V6 F6].
    destruct (stages_quiet (end_of_line 261 (sp0hit_hack (step_cycle_counter q3)))) as (_ & _ & _ & _ & [V7 F7] & _).
    split; [congruence|].
    exact (line_frame_trans _ _ _ F4 (line_frame_trans _ _ _ F5 (line_frame_trans _ _ _ F6 F7))).
  - destruct (E6' 311) as [V6 F6].
    destruct (stages_quiet (end_of_line 311 q3)) as (_ & _ & _ & _ & [V7 F7] & _).
    split; [congruence|]. exact (line_frame_trans _ _ _ F6 F7).
Qed.

(** On columns 0..336 of a line, outside the VBlank countdown, a beat moves
    the beam one column right. *)
Lemma beat_beam p :
  0 <= ppu_x p < 337 -> p.(tm).(VBlankState) = 0 -> tick_wf p ->
  ppu_x (beat p) = ppu_x p + 1 /\ ppu_scanline (beat p) = ppu_scanline p /\ (beat p).(tm).(VBlankState) = 0.
Proof.
  intros Hx Hv Hw. destruct (beat_tm p) as (b & Et & _ & Hb).
  assert (Hb0 : b = false) by (destruct b; [destruct (Hb eq_refl) as (E & _); unfold ppu_x in Hx; lia | reflexivity]).
  subst b. unfold tick_wf, timing_wf in Hw. unfold ppu_x in Hx.
  destruct (timing_step_quiet (mode_ p) (tm p) Hv ltac:(lia)) as (Tx & Ts & Tv).
  unfold ppu_x, ppu_scanline. rewrite Et. auto.
Qed.

(** A beat on columns 1..255 of a rendered line, outside the VBlank
    countdown, is one step of the evaluation machine. *)
Lemma beat_eval p :
  0 < ppu_x p < 256 -> -1 <= ppu_scanline p < 240 -> flag p ShowBGSP = true -> p.(tm).(VBlankState) = 0 ->
  eval_view (beat p) = eval_beat (ppu_scanline p) (flag p SPsize) p.(mm).(OAM) (ppu_x p) (eval_view p) /\
  line_frame p (beat p).
Proof.
  intros Hx Hs Hf Hv. destruct (beat_graphics p Hv) as (T2 & V2 & F2 & V & F).
  set (q2 := decay_open_bus (vblank_service p)) in *.
  destruct (graphics_eval q2) as (V3 & F3 & T3);
    [unfold ppu_x; rewrite T2; exact Hx | unfold ppu_scanline; rewrite T2; exact Hs
    | rewrite (line_frame_flag p q2) by auto; exact Hf |].
  split; [|eapply line_frame_trans; [exact F2|]; eapply line_frame_trans; eauto].
  rewrite V, V3, V2. unfold ppu_x, ppu_scanline. rewrite T2, (line_frame_flag p q2) by auto.
  destruct F2 as (-> & _). reflexivity.
Qed.

(** The beat at column 0: the walk is reset and [OAM[0]] read. *)
Lemma beat_eval0 p :
  ppu_x p = 0 -> -1 <= ppu_scanline p < 240 -> flag p ShowSP = true -> p.(tm).(VBlankState) = 0 ->
  let e := eval_view (beat p) in
  e.(e_addr) = 0 /\ e.(e_in) = 0 /\ e.(e_out) = 0 /\ e.(e_ovf) = rg p SPoverflow /\ line_frame p (beat p).
Proof.
  intros Hx Hs Hf Hv. destruct (beat_graphics p Hv) as (T2 & V2 & F2 & V & F). cbv zeta. rewrite V.
  set (q2 := decay_open_bus (vblank_service p)) in *.
  assert (Hx2 : ppu_x q2 = 0) by (unfold ppu_x; rewrite T2; exact Hx).
  assert (Hf2 : flag q2 ShowSP = true) by (rewrite (line_frame_flag p q2) by auto; exact Hf).
  unfold graphics in F |- *. destruct (Z.ltb_spec (ppu_scanline q2) 240) as [_ | Hn]; [|unfold ppu_scanline in *; rewrite T2 in Hn; lia].
  rewrite (ShowSP_ShowBGSP q2 Hf2) in F |- *.
  change (rendering_tick q2) with (sprite_eval (fetch_phase q2)) in F |- *.
  destruct (fetch_phase_reset q2 Hx2 Hf2) as (I0 & O0 & A0 & S0 & M0 & F0 & T0). cbv zeta in *.
  pose proof (sprite_eval_view (fetch_phase q2)) as Ve. pose proof (sprite_eval_frame (fetch_phase q2)) as Fe.
  replace (ppu_x (fetch_phase q2)) with 0 in Ve by (unfold ppu_x in *; rewrite T0; lia).
  set (r := sprite_eval (fetch_phase q2)) in *.
  assert (Fr : line_frame p r) by (eapply line_frame_trans; [exact F2|]; eapply line_frame_trans; eauto).
  assert (Er : let e := eval_view r in
               e.(e_addr) = 0 /\ e.(e_in) = 0 /\ e.(e_out) = 0 /\ e.(e_ovf) = rg p SPoverflow).
  { cbv zeta. rewrite Ve. cbn [eval_beat]. unfold eval_view in V2 |- *. injection V2 as _ _ _ _ _ Eo.
    cbn. rewrite I0, O0, A0, S0, Eo. repeat split. }
  destruct (_ && _); [|split; [exact (proj1 Er) | exact (conj (proj1 (proj2 Er)) (conj (proj1 (proj2 (proj2 Er))) (conj (proj2 (proj2 (proj2 Er))) (line_frame_trans _ _ _ Fr F))))]].
  destruct (stages_quiet r) as (_ & _ & _ & _ & _ & [Vp Fp]). rewrite Vp.
  destruct Er as (? & ? & ? & ?). do 4 (split; [assumption|]).
  eapply line_frame_trans; [|exact F]. eapply line_frame_trans; eauto.
Qed.

(** Beats [x .. x+n-1] of a line, [0 < x], refine [n] steps of the machine. *)
Lemma line_run n p :
  0 < ppu_x p -> ppu_x p + Z.of_nat n <= 256 -> -1 <= ppu_scanline p < 240 -> flag p ShowBGSP = true ->
  p.(tm).(VBlankState) = 0 -> tick_wf p ->
  eval_view (Nat.iter n beat p) =
    eval_run (ppu_scanline p) (flag p SPsize) p.(mm).(OAM) (ppu_x p) n (eval_view p) /\
  line_frame p (Nat.iter n beat p).
Proof.
  revert p. induction n as [|n IH]; intros p Hx Hn Hs Hf Hv Hw; [split; [reflexivity | apply line_frame_refl]|].
  rewrite Nat.iter_succ_r.
  destruct (beat_eval p ltac:(lia) Hs Hf Hv) as [V F].
  destruct (beat_beam p ltac:(lia) Hv Hw) as (Bx & Bs & Bv).
  destruct (iter_beat_wf p 1 Hw) as [W _].
  destruct (IH (beat p)) as [V' F']; [lia | lia | rewrite Bs; exact Hs
    | rewrite (line_frame_flag p (beat p)) by auto; exact Hf | exact Bv | exact W |].
  split; [|eapply line_frame_trans; eauto].
  rewrite V', Bs, Bx, V, (line_frame_flag p (beat p)) by auto. destruct F as (-> & _). reflexivity.
Qed.
End BeatEval.


Section Run.
Context (s : Z) (sz : bool) (oam : gmap Z Z).

Lemma eval_run_add x n m e :
  eval_run s sz oam x (n + m) e = eval_run s sz oam (x + Z.of_nat n) m (eval_run s sz oam x n e).
Proof.
  revert x e. induction n as [|n IH]; intros x e; [cbn; rewrite Z.add_0_r; reflexivity|].
  cbn [Nat.add eval_run]. rewrite IH. f_equal. lia.
Qed.

(** Columns before 64 only reread [OAM[OAMaddr]]. *)
Lemma eval_run_reads x n e :
  0 <= x -> x + Z.of_nat n <= 64 ->
  let r := eval_run s sz oam x n e in
  r.(e_addr) = e.(e_addr) /\ r.(e_in) = e.(e_in) /\ r.(e_out) = e.(e_out) /\ r.(e_ovf) = e.(e_ovf).
Proof.
  revert x e. induction n as [|n IH]; intros x e Hx Hn; [repeat split|].
  cbn [eval_run]. destruct (IH (x + 1) (eval_beat s sz oam x e)) as (A & I & O & V); [lia | lia |].
  unfold eval_beat in *. destruct (Z.leb_spec 64 x); [lia|]. cbn [andb] in *. rewrite A, I, O, V. repeat split.
Qed.

Lemma eval_beat_pair x e :
  64 <= x < 255 -> x mod 2 = 0 -> eval_beat s sz oam (x + 1) (eval_beat s sz oam x e) = eval_pair s sz oam e.
Proof.
  intros Hx Hm. unfold eval_pair, eval_beat.
  assert (E1 : (x + 1) mod 2 = 1) by (rewrite Z.add_mod, Hm by lia; reflexivity).
  rewrite Hm, E1. destruct (Z.leb_spec 64 x), (Z.ltb_spec x 256), (Z.leb_spec 64 (x + 1)), (Z.ltb_spec (x + 1) 256); try lia.
  reflexivity.
Qed.

(** Columns 64..255 are 96 beat pairs. *)
Lemma eval_run_pairs k x e :
  64 <= x -> x + 2 * Z.of_nat k <= 256 -> x mod 2 = 0 ->
  eval_run s sz oam x (2 * k) e = Nat.iter k (eval_pair s sz oam) e.
Proof.
  revert x e. induction k as [|k IH]; intros x e Hx Hk Hm; [reflexivity|].
  replace (2 * S k)%nat with (S (S (2 * k))) by lia. cbn [eval_run].
  rewrite <- Z.add_assoc. change (1 + 1) with 2.
  rewrite eval_beat_pair by lia. rewrite Nat.iter_succ_r. apply IH; [lia | lia |].
  rewrite Z.add_mod, Hm by lia. reflexivity.
Qed.
End Run.

(** Any object whose evaluation state is that of the 255 beats after the
    reset has the outcome of [eval_line]. *)
Lemma line_outcome s sz oam e0 q :
  eval_view q = eval_run s sz oam 1 255 e0 -> e0.(e_addr) = 0 -> e0.(e_in) = 0 -> e0.(e_out) = 0 ->
  let l := found s sz oam 64 in
  q.(sp).(sproutpos) = Z.of_nat (Nat.min 8 (length l)) /\
  (forall i k, l !! i = Some k -> (i < 8)%nat -> entry_of (q.(mm).(OAM2) !!! Z.of_nat i) = oam_sprite oam k) /\
  rg q SPoverflow = (if (9 <=? length l)%nat then 1 else e0.(e_ovf)).
Proof.
  intros V A0 I0 O0. cbv zeta.
  rewrite (eval_run_add s sz oam 1 63 (2 * 96)), eval_run_pairs in V by (vm_compute; congruence).
  destruct (eval_run_reads s sz oam 1 63 e0) as (A1 & I1 & O1 & V1); [lia | lia |].
  destruct (eval_line s sz oam (eval_run s sz oam 1 63 e0) ltac:(congruence) ltac:(congruence) ltac:(congruence))
    as (Ho & Hslots & Hovf).
  rewrite <- V in Ho, Hslots, Hovf. unfold eval_view in Ho, Hslots, Hovf. cbn [e_out e_oam2 e_ovf] in Ho, Hslots, Hovf.
  split; [exact Ho|]. split; [exact Hslots|]. rewrite Hovf, V1. reflexivity.
Qed.

Section Line.
Context `{PixelOut}.

(** On columns [x .. x+n-1] up to 336, outside the VBlank countdown, the
    beam moves [n] columns right on the same line. *)
Lemma iter_beam n : forall p,
  0 <= ppu_x p -> ppu_x p + Z.of_nat n <= 337 -> p.(tm).(VBlankState) = 0 -> tick_wf p ->
  ppu_x (Nat.iter n beat p) = ppu_x p + Z.of_nat n /\ ppu_scanline (Nat.iter n beat p) = ppu_scanline p /\
  (Nat.iter n beat p).(tm).(VBlankState) = 0.
Proof.
  induction n as [|n IH]; intros p Hx Hn Hv Hw; [cbn; lia|].
  destruct (beat_beam p ltac:(lia) Hv Hw) as (Bx & Bs & Bv).
  destruct (iter_beat_wf p 1 Hw) as [W _].
  destruct (IH (beat p)) as (Ix & Is & Iv); [lia | lia | exact Bv | exact W |].
  rewrite Nat.iter_succ_r. split; [lia|]. split; [congruence | exact Iv].
Qed.

(** The 256 beats of columns 0..255: the evaluation outcome, and what the
    line's sprite fetch starts from at column 256. *)
Lemma eval_line_run p :
  tick_wf p -> ppu_x p = 0 -> -1 <= ppu_scanline p < 240 -> flag p ShowSP = true ->
  p.(tm).(VBlankState) = 0 ->
  let q := Nat.iter 256 beat p in
  let l := found (ppu_scanline p) (flag p SPsize) p.(mm).(OAM) 64 in
  (q.(sp).(sproutpos) = Z.of_nat (Nat.min 8 (length l)) /\
   (forall i k, l !! i = Some k -> (i < 8)%nat ->
      entry_of (q.(mm).(OAM2) !!! Z.of_nat i) = oam_sprite p.(mm).(OAM) k) /\
   rg q SPoverflow = (if (9 <=? length l)%nat then 1 else rg p SPoverflow)) /\
  line_frame p q /\ ppu_x q = 256 /\ ppu_scanline q = ppu_scanline p /\ q.(tm).(VBlankState) = 0.
Proof.
  intros Hw Hx Hs Hf Hv. cbv zeta.
  destruct (beat_eval0 p Hx Hs Hf Hv) as (A0 & I0 & O0 & V0 & F0).
  destruct (beat_beam p ltac:(lia) Hv Hw) as (Bx & Bs & Bv).
  destruct (iter_beat_wf p 1 Hw) as [W _].
  destruct (line_run 255 (beat p)) as [V F]; [lia | lia | rewrite Bs; exact Hs
    | rewrite (line_frame_flag p (beat p)) by auto; apply ShowSP_ShowBGSP, Hf | exact Bv | exact W |].
  destruct (iter_beam 255 (beat p)) as (Ix & Is & Iv); [lia | lia | exact Bv | exact W |].
  pose proof (line_frame_trans _ _ _ F0 F) as Fp.
  rewrite Bs, Bx, Hx, (line_frame_flag p (beat p)) in V by auto. destruct F0 as (Eo & _). rewrite Eo in V.
  rewrite Nat.iter_succ_r, <- V0.
  split; [exact (line_outcome _ _ _ _ _ V A0 I0 O0)|].
  split; [exact Fp|]. split; [rewrite Ix, Bx, Hx; reflexivity|]. split; [congruence | exact Iv].
Qed.

End Line.

Section Claims.
Context `{PixelOut}.

(** C38: sprite evaluation over a scanline.  From column 0 of a rendered
    line (scanline -1..239) with sprites shown and no VBlank countdown
    running, the 256 beats up to column 255 leave in [OAM2[0..7]] the sprite
    number, y, tile, attributes and x of the first eight sprites of primary
    OAM whose rows cover the scanline (8 or 16 rows by [reg.SPsize]), in OAM
    order; [sproutpos] counts them, and [reg.SPoverflow] is raised exactly
    when a ninth sprite covers the line (otherwise it keeps its value). *)
Theorem sprite_eval_line p :
  tick_wf p -> ppu_x p = 0 -> -1 <= ppu_scanline p < 240 -> flag p ShowSP = true ->
  p.(tm).(VBlankState) = 0 ->
  let q := Nat.iter 256 beat p in
  let l := found (ppu_scanline p) (flag p SPsize) p.(mm).(OAM) 64 in
  q.(sp).(sproutpos) = Z.of_nat (Nat.min 8 (length l)) /\
  (forall i k, l !! i = Some k -> (i < 8)%nat ->
     entry_of (q.(mm).(OAM2) !!! Z.of_nat i) = oam_sprite p.(mm).(OAM) k) /\
  rg q SPoverflow = (if (9 <=? length l)%nat then 1 else rg p SPoverflow).
Proof.
  intros Hw Hx Hs Hf Hv. exact (proj1 (eval_line_run p Hw Hx Hs Hf Hv)).
Qed.
End Claims.

#[local] Instance host_colour_sprites : PixelOut := fun _ _ c _ => c.

(** Ten sprites at y = 5 in primary OAM: all cover scanline 10. *)
Definition oam_ten : gmap Z Z := list_to_map (map (fun k => (4 * k, 5)) (zseq 10)).

(** Column 0 of scanline 10 after power-on, sprites shown, OAM [oam_ten]. *)
Definition line_scenario : Ppu :=
  upd_reg ShowSP 1 (with_mm (set_OAM oam_ten) (with_tm (fun t => set_x 0 (set_scanline 10 t)) ppu_powered)).

Lemma sprite_eval_line_witness :
  (tick_wf line_scenario /\ ppu_x line_scenario = 0 /\ -1 <= ppu_scanline line_scenario < 240 /\
   flag line_scenario ShowSP = true /\ line_scenario.(tm).(VBlankState) = 0) /\
  length (found (ppu_scanline line_scenario) (flag line_scenario SPsize) line_scenario.(mm).(OAM) 64) = 10%nat /\
  let q := Nat.iter 256 beat line_scenario in
  let l := found (ppu_scanline line_scenario) (flag line_scenario SPsize) line_scenario.(mm).(OAM) 64 in
  q.(sp).(sproutpos) = Z.of_nat (Nat.min 8 (length l)) /\
  (forall i k, l !! i = Some k -> (i < 8)%nat ->
     entry_of (q.(mm).(OAM2) !!! Z.of_nat i) = oam_sprite line_scenario.(mm).(OAM) k) /\
  rg q SPoverflow = (if (9 <=? length l)%nat then 1 else rg line_scenario SPoverflow).
Proof.
  assert (T : line_scenario.(tm) = mkTiming 10 0 341 0 0 false 0 /\ line_scenario.(mode_) = NTSC)
    by (split; vm_compute; reflexivity).
  assert (H : tick_wf line_scenario /\ ppu_x line_scenario = 0 /\ -1 <= ppu_scanline line_scenario < 240 /\
              flag line_scenario ShowSP = true /\ line_scenario.(tm).(VBlankState) = 0).
  { unfold tick_wf, timing_wf, ppu_x, ppu_scanline. destruct T as [-> ->]. cbn.
    split; [lia|]. split; [reflexivity|]. split; [lia|]. split; [vm_compute; reflexivity | reflexivity]. }
  split; [exact H|]. split; [vm_compute; reflexivity|].
  destruct H as (H1 & H2 & H3 & H4 & H5). exact (sprite_eval_line line_scenario H1 H2 H3 H4 H5).
Defined.
