(* ===== verification/System.v ===== *)
(** The PPU as a system: the beat driver of [Tick.v] interleaved, in any
    order, with the CPU's register accesses of [Bus.v] and with [Reset].

    [sys_step] is one operation of the emulator loop on the PPU object
    ([Ppu::Tick]'s beat, [Ppu::Read], [Ppu::Write], [Ppu::Reset]);
    [reachable] closes the object after [Initialize] and [Power] under any
    sequence of them.  [sys_inv] gathers the invariants of the components
    (beat counters, byte typing, sprite counters and OAM2/OAM3 bounds) and
    [reachable_sys_inv] proves it of every reachable object by rule
    induction: the invariants of the components hold together under every
    interleaving the emulator can produce. *)

From S2P Require Import Prelude Regs State Mmap Lifecycle Bus Bytes Render Pixel Tick Frame.

(** One operation on the PPU object. *)
Inductive Op :=
  | OBeat                 (** one iteration of the loop of [TickNTSC]/[TickPAL] *)
  | ORead (a : Z)         (** [Ppu::Read(a)] *)
  | OWrite (a d : Z)      (** [Ppu::Write(a, d)] *)
  | OReset.               (** [Ppu::Reset()] *)

(** What the object's memories hold before [Initialize] and [Power]:
    bytes in the PPU's and the cartridge's arrays, and sprite counters in
    their bounds (the source never initialises them). *)
Definition init_ok (n : Nes) (p0 : Ppu) : Prop :=
  bytes_map p0.(mm).(palette) /\ bytes_map p0.(mm).(OAM) /\
  bytes_map n.(gamepak).(chr) /\ bytes_map n.(gamepak).(NRAM) /\ spr_wf p0.

Definition sys_inv (p : Ppu) : Prop := tick_wf p /\ bytes_wf p /\ spr_wf p.

(** The parts of the object the invariants read. *)
Definition mem_view (p : Ppu) := (p.(mm).(palette), p.(mm).(OAM), p.(nes_).(gamepak), p.(lt).(read_buffer)).
Definition spr_view (p : Ppu) := (p.(sp), p.(mm).(OAM2), p.(mm).(OAM3)).

Section System.
Context `{PixelOut}.

Definition sys_step (o : Op) (p : Ppu) : Ppu :=
  match o with
  | OBeat => beat p
  | ORead a => snd (Read a p)
  | OWrite a d => Write a d p
  | OReset => Reset p
  end.

Definition run (os : list Op) (p : Ppu) : Ppu := fold_left (fun p o => sys_step o p) os p.

Inductive reachable : Ppu -> Prop :=
  | reach_power n p0 : init_ok n p0 -> reachable (Power (Initialize n p0))
  | reach_step o p : reachable p -> reachable (sys_step o p).

End System.

(** ** The stages of a beat and the parts the invariants read *)

Lemma spr_wf_view p q : spr_view q = spr_view p -> spr_wf p -> spr_wf q.
Proof. unfold spr_view, spr_wf. intros E. injection E as -> -> ->. auto. Qed.

Lemma stages_views p :
  let same f := mem_view (f p) = mem_view p /\ spr_view (f p) = spr_view p in
  same vblank_service /\ same decay_open_bus /\ same step_cycle_counter /\ same sp0hit_hack /\
  same (end_of_line 261) /\ same (end_of_line 311) /\ same end_beat.
Proof.
  cbv zeta. unfold mem_view, spr_view.
  split; [|split; [|split; [|split; [|split; [|split]]]]];
    try (unfold vblank_service, decay_open_bus, sp0hit_hack, step_cycle_counter, end_beat;
         destruct_ifs; split; reflexivity);
    unfold end_of_line, fire_on_render; repeat case_match; split; reflexivity.
Qed.

Lemma render_pixel_views `{PixelOut} p :
  mem_view (render_pixel p) = mem_view p /\ spr_view (render_pixel p) = spr_view p.
Proof.
  unfold render_pixel. destruct (compose_pixel_unfold p) as (hit & v & ->).
  destruct hit; split; reflexivity.
Qed.

Lemma rendering_tick_view p : mem_view (rendering_tick p) = mem_view p.
Proof.
  destruct (rendering_tick_mem p) as (E1 & E2 & E3 & E4).
  unfold mem_view. rewrite E1, E2, E3, E4. reflexivity.
Qed.

Lemma rendering_tick_spr p : spr_wf p -> spr_wf (rendering_tick p).
Proof. intros Hp. apply sprite_eval_spr_wf, fetch_phase_spr_wf, Hp. Qed.

Lemma graphics_views `{PixelOut} p :
  mem_view (graphics p) = mem_view p /\ (spr_wf p -> spr_wf (graphics p)).
Proof.
  unfold graphics. destruct (ppu_scanline p <? 240); [|auto].
  set (q := if flag p ShowBGSP then rendering_tick p else p).
  assert (Hq : mem_view q = mem_view p /\ (spr_wf p -> spr_wf q)).
  { subst q. destruct (flag p ShowBGSP); [split; [apply rendering_tick_view | apply rendering_tick_spr] | auto]. }
  destruct Hq as [Mq Sq]. destruct (_ && _); [|auto].
  destruct (render_pixel_views q) as [M S]. rewrite M. split; [exact Mq|].
  intros Hp. apply (spr_wf_view q); auto.
Qed.

Lemma bytes_wf_view p q :
  mem_view q = mem_view p -> q.(lt).(open_bus_) = p.(lt).(open_bus_) \/ q.(lt).(open_bus_) = 0 ->
  bytes_wf p -> bytes_wf q.
Proof.
  unfold mem_view. intros E Ho (H1 & H2 & H3 & H4 & H5 & H6). injection E as E1 E2 E3 E4.
  bytes_split; rewrite ?E1, ?E2, ?E3, ?E4; auto.
  destruct Ho as [-> | ->]; [exact H6 | unfold byte; lia].
Qed.

Section BeatInv.
Context `{PixelOut}.

(** Chaining the stages of [beat_ntsc]/[beat_pal]. *)
Lemma beat_views p : mem_view (beat p) = mem_view p /\ (spr_wf p -> spr_wf (beat p)).
Proof.
  destruct (stages_views p) as ((V1 & S1) & _).
  set (q1 := vblank_service p) in *.
  destruct (stages_views q1) as (_ & (V2 & S2) & _).
  set (q2 := decay_open_bus q1) in *.
  destruct (graphics_views q2) as [V3 S3].
  set (q3 := graphics q2) in *.
  unfold beat. destruct (mode_ p).
  - rewrite beat_ntsc_stages. fold q1 q2 q3.
    destruct (stages_views q3) as (_ & _ & (V4 & S4) & _).
    destruct (stages_views (step_cycle_counter q3)) as (_ & _ & _ & (V5 & S5) & _).
    destruct (stages_views (sp0hit_hack (step_cycle_counter q3))) as (_ & _ & _ & _ & (V6 & S6) & _).
    destruct (stages_views (end_of_line 261 (sp0hit_hack (step_cycle_counter q3))))
      as (_ & _ & _ & _ & _ & _ & (V7 & S7)).
    split; [congruence|].
    intros Hp. apply (spr_wf_view q3); [congruence|]. apply S3. apply (spr_wf_view p); [congruence | exact Hp].
  - rewrite beat_pal_stages. fold q1 q2 q3.
    destruct (stages_views q3) as (_ & _ & _ & _ & _ & (V6 & S6) & _).
    destruct (stages_views (end_of_line 311 q3)) as (_ & _ & _ & _ & _ & _ & (V7 & S7)).
    split; [congruence|].
    intros Hp. apply (spr_wf_view q3); [congruence|]. apply S3. apply (spr_wf_view p); [congruence | exact Hp].
Qed.

Lemma beat_sys_inv p : sys_inv p -> sys_inv (beat p).
Proof.
  intros (Ht & Hb & Hs). destruct (beat_views p) as [V S].
  split; [|split; [|exact (S Hs)]].
  - destruct (beat_tm p) as (b & Et & Em & Hsh). unfold tick_wf in *.
    rewrite Et, Em. apply timing_step_wf; auto.
  - apply (bytes_wf_view p); [exact V| |exact Hb].
    destruct (beat_open_bus p) as [_ O]. cbv zeta in O. rewrite O.
    destruct (_ =? 1); auto.
Qed.

End BeatInv.

(** ** Register accesses, [Reset] and power-on *)

Lemma memset_bytes m v n : bytes_map m -> byte v -> bytes_map (memset m v n).
Proof. intros Hm Hv. induction n as [|n IH]; cbn; auto with ppu. Qed.

Lemma memcpy_bytes m base arr : bytes_map m -> Forall byte arr -> bytes_map (memcpy m base arr).
Proof.
  intros Hm Ha. revert m base Hm. induction Ha as [|v arr Hv Ha IH]; intros m base Hm; cbn; auto with ppu.
Qed.

Lemma power_palette_bytes : Forall byte power_palette.
Proof. unfold power_palette, byte. repeat constructor; lia. Qed.

#[local] Hint Resolve memset_bytes memcpy_bytes power_palette_bytes : ppu.
#[local] Hint Extern 1 (byte (Zpos _)) => (unfold byte; lia) : ppu.
#[local] Hint Extern 1 (byte Z0) => (unfold byte; lia) : ppu.

Lemma port_cases a :
  a .& 7 = 0 \/ a .& 7 = 1 \/ a .& 7 = 2 \/ a .& 7 = 3 \/
  a .& 7 = 4 \/ a .& 7 = 5 \/ a .& 7 = 6 \/ a .& 7 = 7.
Proof. assert (0 <= a .& 7 < 8) by (mask_to_mod; apply Z.mod_pos_bound; lia). lia. Qed.

Lemma Read_frame p a :
  let q := snd (Read a p) in
  (q.(tm) = p.(tm) \/ q.(tm) = set_VBlankState 0 p.(tm)) /\ q.(mode_) = p.(mode_) /\
  spr_view q = spr_view p.
Proof.
  cbv zeta. unfold Read.
  destruct (port_cases a) as [E|[E|[E|[E|[E|[E|[E|E]]]]]]]; rewrite E; cbn [snd];
    try (split; [left|split]; reflexivity).
  - unfold read_status. cbv zeta. case_decide; cbn [snd]; (split; [|split]); auto.
  - unfold read_data. cbv zeta. destruct (_ =? 0x3F00); (split; [left|split]); reflexivity.
Qed.

Lemma Write_frame p a d :
  (Write a d p).(tm) = p.(tm) /\ (Write a d p).(mode_) = p.(mode_) /\
  spr_view (Write a d p) = spr_view p.
Proof.
  rewrite write_port. cbv zeta.
  destruct (port_cases a) as [E|[E|[E|[E|[E|[E|[E|E]]]]]]]; rewrite E;
    try (split; [|split]; reflexivity).
  - unfold write_scroll. destruct (offset_toggle_ _); (split; [|split]); reflexivity.
  - unfold write_vaddr. destruct (offset_toggle_ _); (split; [|split]); reflexivity.
  - unfold write_data. cbv zeta. destruct (mmap_loc _ _); (split; [|split]); reflexivity.
Qed.

Lemma Reset_sys_inv p : sys_inv p -> sys_inv (Reset p).
Proof.
  intros (Ht & (H1 & H2 & H3 & H4 & H5 & H6) & Hs).
  split; [|split].
  - unfold tick_wf, timing_wf in *. cbn -[memset memcpy]. exact Ht.
  - bytes_split; cbn -[memset memcpy bytes_map byte]; auto with ppu.
  - apply (spr_wf_view p); [reflexivity | exact Hs].
Qed.

Lemma power_on_sys_inv n p0 : init_ok n p0 -> sys_inv (Power (Initialize n p0)).
Proof.
  intros (H1 & H2 & H3 & H4 & Hs). split; [|split].
  - unfold tick_wf, timing_wf. cbn -[memset memcpy].
    destruct (mode_ p0); cbn; lia.
  - bytes_split; cbn -[memset memcpy bytes_map byte]; auto with ppu.
  - apply (spr_wf_view p0); [reflexivity | exact Hs].
Qed.

Lemma sys_step_inv `{PixelOut} o p : sys_inv p -> sys_inv (sys_step o p).
Proof.
  intros Hp. destruct o as [|a|a d|]; cbn [sys_step].
  - apply beat_sys_inv, Hp.
  - destruct Hp as (Ht & Hb & Hs). destruct (Read_frame p a) as (Et & Em & Es).
    split; [|split; [apply Read_bytes, Hb | apply (spr_wf_view p); auto]].
    unfold tick_wf, timing_wf in *. rewrite Em.
    destruct Et as [-> | ->]; [exact Ht|].
    cbn. destruct Ht as (A & B & C & _ & E). split; [exact A | split; [exact B | split; [exact C | split; [lia | exact E]]]].
  - destruct Hp as (Ht & Hb & Hs). destruct (Write_frame p a d) as (Et & Em & Es).
    split; [|split; [apply Write_bytes, Hb | apply (spr_wf_view p); auto]].
    unfold tick_wf. rewrite Et, Em. exact Ht.
  - apply Reset_sys_inv, Hp.
Qed.

(** C36: every object the emulator can produce (power-on, then any
    interleaving of beats, CPU register reads and writes and resets)
    satisfies the invariants of all the components at once: the beat
    counters are in range, the byte arrays and latches hold bytes, and the
    sprite counters and OAM2/OAM3 indices are in bounds. *)
Theorem reachable_sys_inv `{PixelOut} p : reachable p -> sys_inv p.
Proof.
  induction 1 as [n p0 Hi | o p _ IH]; [apply power_on_sys_inv, Hi | apply sys_step_inv, IH].
Qed.

#[local] Instance host_colour_system : PixelOut := fun _ _ c _ => c.

Lemma init_ok_zero : init_ok ppu_zero.(nes_) ppu_zero.
Proof.
  refine (conj _ (conj _ (conj _ (conj _ _)))); try apply map_Forall_empty.
  refine (conj _ (conj _ (conj _ (conj _ _)))); try (cbn; lia);
    intros j [v Hv]; vm_compute in Hv; discriminate.
Qed.

(** Power-on, a status read, a write to PPUCTRL, a beat and a reset. *)
Definition sample_run : list Op := [ORead 0x2002; OWrite 0x2000 0x80; OBeat; OReset].

Lemma reachable_run p os : reachable p -> reachable (run os p).
Proof.
  revert p. induction os as [|o os IH]; intros p Hp; [exact Hp|].
  cbn [run fold_left]. apply IH. apply reach_step, Hp.
Qed.

Lemma reachable_sys_inv_witness :
  reachable (run sample_run (Power (Initialize ppu_zero.(nes_) ppu_zero))) /\
  sys_inv (run sample_run (Power (Initialize ppu_zero.(nes_) ppu_zero))).
Proof.
  assert (H : reachable (run sample_run (Power (Initialize ppu_zero.(nes_) ppu_zero))))
    by (apply reachable_run, reach_power, init_ok_zero).
  split; [exact H | apply reachable_sys_inv, H].
Defined.
