(* ===== verification/Fetch.v ===== *)
(** The sprite fetch of [Ppu::rendering_tick] (src/ppu.cpp, lines
    153-228) over columns 256..319 of a rendered line.

    Outside tile decoding the first [switch (x % 8)] copies the sprites
    that evaluation selected from [OAM2] into [OAM3], one per group of
    eight beats: [case 0] at column 256 resets [sprrenpos]; [case 3] copies
    [OAM2[sprrenpos]] and addresses its pattern row; [cases 5 and 7] read
    the two pattern bytes, interleave them and store the row into the
    [OAM3] entry before moving on.  [fetch_step] is that switch on the
    fetch view [fview] (the render position, [OAM3] and the pattern
    latches); [fetch_run] is a run of beats, the address [case 1] writes
    into [pat_addr] being left free.  [beat_fetch] shows that a whole beat
    on these columns is one [fetch_step]; [fetch_group] runs the eight
    beats of one sprite and [fetch_groups] the eight groups.
    [sprite_fetch_line] (C39) gives the 64 beats: the [sproutpos] selected
    sprites are copied with their rows; [sprite_fetch_no_bg] the same run
    with the background hidden, where [sprrenpos] is not reset; and
    [sprite_line] (C40) composes the evaluation of [SpriteEval.v] with the
    fetch: the 320 beats of columns 0..319 leave in [OAM3] the sprites of
    the line with their pattern rows. *)

From S2P Require Import Prelude Regs State Mmap Lifecycle Bus Bytes Interleave Render Pixel Tick Frame SpriteEval System.

(** What the sprite fetch reads and writes besides the beam: the register
    word, the sprite counters, the memories and the background latches. *)
Definition keeps (f : Ppu -> Ppu) (p : Ppu) : Prop :=
  (f p).(mm) = p.(mm) /\ (f p).(sp) = p.(sp) /\ (f p).(bg) = p.(bg) /\ (f p).(lt).(reg) = p.(lt).(reg).

Record FView := mkFView { f_ren : Z; f_oam3 : gmap Z Oam.t; f_pat : Z; f_tpat : Z }.

Definition fview (p : Ppu) : FView :=
  mkFView p.(sp).(sprrenpos) p.(mm).(OAM3) p.(bg).(pat_addr) p.(bg).(tilepat).

Section FetchMachine.
Variables (out : Z) (oam2 : gmap Z Oam.t) (showbg : bool) (rd : Z -> Z) (row_addr : Oam.t -> Z).

Definition fetch_step (x junk : Z) (v : FView) : FView :=
  match x mod 8 with
  | 0 => if (x =? 256) && showbg then mkFView 0 v.(f_oam3) v.(f_pat) v.(f_tpat) else v
  | 1 => mkFView v.(f_ren) v.(f_oam3) junk v.(f_tpat)
  | 3 =>
      if v.(f_ren) <? out then
        let k := v.(f_ren) .& 0x7 in let o := oam2 !!! k in
        mkFView v.(f_ren) (<[k := o]> v.(f_oam3)) (row_addr o) v.(f_tpat)
      else v
  | 5 => mkFView v.(f_ren) v.(f_oam3) v.(f_pat) (rd (v.(f_pat) .| 0))
  | 7 =>
      let t := u16 (interleave_stages (v.(f_tpat) .| (rd (v.(f_pat) .| 8) << 8))) in
      if v.(f_ren) <? out then
        let k := v.(f_ren) .& 0x7 in
        mkFView (v.(f_ren) + 1) (<[k := Oam.set_pattern t (v.(f_oam3) !!! k)]> v.(f_oam3)) v.(f_pat) t
      else mkFView v.(f_ren) v.(f_oam3) v.(f_pat) t
  | _ => v
  end.

Inductive fetch_run : Z -> nat -> FView -> FView -> Prop :=
  | fetch_run_0 x v : fetch_run x 0 v v
  | fetch_run_S x n junk v v' : fetch_run (x + 1) n (fetch_step x junk v) v' -> fetch_run x (S n) v v'.

(** The pattern row [case 7] stores for sprite [o]: the interleave of the
    two bytes read at [case 5] and [case 7] from its row address. *)
Definition row (o : Oam.t) : Z :=
  u16 (interleave (rd (row_addr o .| 0)) (rd (row_addr o .| 8))).
End FetchMachine.

(** The stages of a beat other than [graphics] on the fetch columns. *)
Lemma fetch_stages p :
  keeps decay_open_bus p /\ keeps step_cycle_counter p /\ (forall l, keeps (end_of_line l) p) /\
  keeps end_beat p /\ (ppu_scanline p <> 260 -> keeps sp0hit_hack p) /\
  (p.(tm).(VBlankState) = 0 -> keeps vblank_service p).
Proof.
  unfold keeps. split; [unfold decay_open_bus; repeat case_match; repeat split|].
  split; [repeat split|]. split; [intros l; unfold end_of_line, fire_on_render; repeat case_match; repeat split|].
  split; [repeat split|]. split.
  - intros Hs. unfold sp0hit_hack. destruct (Z.eqb_spec (ppu_scanline p) 260); [contradiction|]. repeat split.
  - intros Hv. unfold vblank_service. rewrite Hv. cbn [Z.eqb Pos.eqb]. repeat split.
Qed.

Lemma tile_decode_sprites x : 256 <= x < 320 -> tile_decode_mode x = false.
Proof.
  intros Hx. assert (C : forallb (fun y => negb (tile_decode_mode (256 + y))) (zseq 64) = true) by (vm_compute; reflexivity).
  pose proof (forallb_zseq _ 64 C (x - 256) ltac:(lia)) as H. cbv beta in H.
  replace (256 + (x - 256)) with x in H by lia. destruct (tile_decode_mode x); [discriminate | reflexivity].
Qed.

Ltac fsimp := cbn [tm lt mm sp bg with_bg with_sp with_mm upd_reg upd_vaddr with_lt f_ren f_oam3 f_pat f_tpat
  sprrenpos sproutpos OAM2 OAM3 pat_addr tilepat set_ioaddr set_pat_addr set_tilepat set_sprrenpos set_OAM3 reg set_vaddr] in *.

Lemma fetch_phase_sprites r :
  256 <= ppu_x r < 320 ->
  fview (fetch_phase r) =
    fetch_step r.(sp).(sproutpos) r.(mm).(OAM2) (flag r ShowBG) (mmap r) (sprite_pat_addr r) (ppu_x r)
      (fetch_phase r).(bg).(pat_addr) (fview r) /\
  (fetch_phase r).(lt).(reg) = r.(lt).(reg) /\ (fetch_phase r).(sp).(sproutpos) = r.(sp).(sproutpos) /\
  (fetch_phase r).(mm).(OAM2) = r.(mm).(OAM2) /\ (fetch_phase r).(tm) = r.(tm).
Proof.
  intros Hx. pose proof (tile_decode_sprites _ Hx) as Ht.
  unfold fetch_phase, fetch_step.
  assert (Hk : ppu_x r mod 8 = 0 \/ ppu_x r mod 8 = 1 \/ ppu_x r mod 8 = 2 \/ ppu_x r mod 8 = 3 \/
               ppu_x r mod 8 = 4 \/ ppu_x r mod 8 = 5 \/ ppu_x r mod 8 = 6 \/ ppu_x r mod 8 = 7)
    by (pose proof (Z.mod_pos_bound (ppu_x r) 8); lia).
  destruct Hk as [E|[E|[E|[E|[E|[E|[E|E]]]]]]]; rewrite E.
  all: unfold phase2, phase0, phase1, phase3, phase5, phase7, fview, sprite_pat_addr, ppu_x, ppu_scanline, flag, rg in *;
       fsimp.
  all: rewrite ?Ht, ?(proj2 (Z.eqb_neq (x (tm r)) 0)) by lia; cbn [negb andb].
  all: fsimp; destruct (Z.eqb_spec (x (tm r)) 256); destruct ((reg (lt r)).[ShowBG] =? 0); cbn [negb andb].
  all: repeat (case_match; fsimp).
  all: try (split; [exact eq_refl | repeat split]).
  all: exfalso; rewrite ?andb_true_iff, ?andb_false_iff, ?Z.eqb_eq, ?Z.eqb_neq in *; Z.div_mod_to_equations; lia.
Qed.

Lemma ShowBG_ShowBGSP p : flag p ShowBG = true -> flag p ShowBGSP = true.
Proof.
  unfold flag, rg, fget, regbit_get. cbn. rewrite !negb_true_iff, !Z.eqb_neq.
  rewrite !Z.shiftr_div_pow2, !Z.land_ones by lia. intros H. zmod_lia.
Qed.

Lemma sprite_eval_late p :
  256 <= ppu_x p -> sprite_eval p = with_sp (set_sprtmp (p.(mm).(OAM) !!! rg p OAMaddr)) p.
Proof. intros Hx. unfold sprite_eval. destruct (Z.ltb_spec (ppu_x p) 256); [lia|]. rewrite andb_false_r. reflexivity. Qed.



Lemma mmap_view p q : mem_view q = mem_view p -> mmap q = mmap p.
Proof. unfold mem_view. intros E. injection E as E1 _ E2 _. unfold mmap, load. rewrite E1, E2. reflexivity. Qed.

(** The row address of a sprite depends on the scanline and on
    [SPsize]/[SPaddr] only, and not on the pattern stored with it. *)
Lemma sprite_pat_addr_frame p q :
  line_frame p q -> ppu_scanline q = ppu_scanline p -> sprite_pat_addr q = sprite_pat_addr p.
Proof.
  intros (_ & E1 & _ & _ & _ & E2) Es. unfold sprite_pat_addr, flag. rewrite Es, E1, E2. reflexivity.
Qed.

Lemma sprite_pat_addr_set_pattern p t o : sprite_pat_addr p (Oam.set_pattern t o) = sprite_pat_addr p o.
Proof. reflexivity. Qed.

Lemma pattern_set_pattern t o : (Oam.set_pattern t o).(Oam.pattern) = t.
Proof. reflexivity. Qed.

Lemma set_pattern_row p o :
  let o' := Oam.set_pattern (row (mmap p) (sprite_pat_addr p) o) o in
  o'.(Oam.pattern) = row (mmap p) (sprite_pat_addr p) o'.
Proof.
  cbv zeta. rewrite pattern_set_pattern. unfold row. rewrite !sprite_pat_addr_set_pattern. reflexivity.
Qed.

Lemma beat_tail `{PixelOut} p :
  let g := graphics (decay_open_bus (vblank_service p)) in
  ppu_scanline g <> 260 ->
  (beat p).(mm) = g.(mm) /\ (beat p).(sp) = g.(sp) /\ (beat p).(bg) = g.(bg) /\ (beat p).(lt).(reg) = g.(lt).(reg).
Proof.
  intros g Hs. destruct (fetch_stages g) as (_ & (M1 & S1 & B1 & R1) & _).
  destruct (fetch_stages (step_cycle_counter g)) as (_ & _ & _ & _ & K2 & _).
  destruct (K2 Hs) as (M2 & S2 & B2 & R2).
  unfold beat. destruct (mode_ p); [rewrite beat_ntsc_stages | rewrite beat_pal_stages]; fold g.
  - destruct (fetch_stages (sp0hit_hack (step_cycle_counter g))) as (_ & _ & K3 & _).
    destruct (K3 261) as (M3 & S3 & B3 & R3).
    destruct (fetch_stages (end_of_line 261 (sp0hit_hack (step_cycle_counter g)))) as (_ & _ & _ & (M4 & S4 & B4 & R4) & _).
    rewrite M4, M3, M2, M1, S4, S3, S2, S1, B4, B3, B2, B1, R4, R3, R2, R1. repeat split.
  - destruct (fetch_stages g) as (_ & _ & K3 & _). destruct (K3 311) as (M3 & S3 & B3 & R3).
    destruct (fetch_stages (end_of_line 311 g)) as (_ & _ & _ & (M4 & S4 & B4 & R4) & _).
    rewrite M4, M3, S4, S3, B4, B3, R4, R3. repeat split.
Qed.

Section BeatFetch.
Context `{PixelOut}.

Lemma beat_fetch p :
  256 <= ppu_x p < 320 -> -1 <= ppu_scanline p < 240 -> flag p ShowBGSP = true -> p.(tm).(VBlankState) = 0 ->
  fview (beat p) =
    fetch_step p.(sp).(sproutpos) p.(mm).(OAM2) (flag p ShowBG) (mmap p) (sprite_pat_addr p) (ppu_x p)
      (beat p).(bg).(pat_addr) (fview p) /\
  (beat p).(lt).(reg) = p.(lt).(reg) /\ (beat p).(sp).(sproutpos) = p.(sp).(sproutpos) /\
  (beat p).(mm).(OAM2) = p.(mm).(OAM2).
Proof.
  intros Hx Hs Hf Hv.
  destruct (fetch_stages p) as (_ & _ & _ & _ & _ & K1). destruct (K1 Hv) as (M1 & S1 & B1 & R1).
  destruct (fetch_stages (vblank_service p)) as ((M2 & S2 & B2 & R2) & _).
  destruct (stages_views p) as ((V1 & _) & _). destruct (stages_views (vblank_service p)) as (_ & (V2 & _) & _).
  set (q := decay_open_bus (vblank_service p)) in *.
  assert (Tq : q.(tm) = p.(tm))
    by (subst q; rewrite (proj1 (decay_open_bus_tm _)), (proj1 (vblank_service_tm _)); unfold vblank_count; rewrite Hv; reflexivity).
  pose proof (eq_trans M2 M1) as Mq. pose proof (eq_trans S2 S1) as Sq.
  pose proof (eq_trans B2 B1) as Bq. pose proof (eq_trans R2 R1) as Rq.
  pose proof (f_equal (fun v => snd (fst v)) (eq_trans V2 V1)) as Gq. cbn in Gq.
  assert (Hxq : ppu_x q = ppu_x p) by (unfold ppu_x; rewrite Tq; reflexivity).
  assert (Hsq : ppu_scanline q = ppu_scanline p) by (unfold ppu_scanline; rewrite Tq; reflexivity).
  destruct (fetch_phase_sprites q ltac:(lia)) as (Fv & Fr & Fo & F2 & Ft).
  set (f := fetch_phase q) in *.
  assert (Eg : graphics q = with_sp (set_sprtmp (f.(mm).(OAM) !!! rg f OAMaddr)) f).
  { unfold graphics. destruct (Z.ltb_spec (ppu_scanline q) 240); [|lia].
    replace (flag q ShowBGSP) with true by (unfold flag, rg in *; rewrite Rq; symmetry; exact Hf).
    change (rendering_tick q) with (sprite_eval f).
    rewrite sprite_eval_late by (unfold ppu_x in *; rewrite Ft; lia).
    change (ppu_x (with_sp ?g f)) with (ppu_x f). unfold ppu_x at 1. rewrite Ft.
    destruct (Z.ltb_spec (x (tm q)) 256); [unfold ppu_x in *; lia|]. rewrite andb_false_r. reflexivity. }
  destruct (beat_tail p) as (Mb & Sb & Bb & Rb);
    [fold q; rewrite Eg; unfold ppu_scanline in *; cbn [tm with_sp]; rewrite Ft; lia|].
  fold q in Mb, Sb, Bb, Rb. rewrite Eg in Mb, Sb, Bb, Rb. cbn [mm sp bg lt with_sp] in Mb, Sb, Bb, Rb.
  assert (Xf : flag q ShowBG = flag p ShowBG) by (unfold flag, rg; rewrite Rq; reflexivity).
  assert (Xm : mmap q = mmap p) by (unfold mmap, load; rewrite Mq, Gq; reflexivity).
  assert (Xa : sprite_pat_addr q = sprite_pat_addr p)
    by (unfold sprite_pat_addr, ppu_scanline, flag, rg; rewrite Tq, Rq; reflexivity).
  assert (Xv : fview q = fview p) by (unfold fview; rewrite Sq, Mq, Bq; reflexivity).
  rewrite Xf, Xm, Xa, Xv, Hxq, Sq, Mq in Fv. rewrite Sq in Fo. rewrite Mq in F2. rewrite Rq in Fr.
  unfold fview at 1. rewrite Mb, Sb, Bb, Rb. cbn [sp set_sprtmp sprrenpos sproutpos].
  split; [exact Fv|]. split; [exact Fr|]. split; [|exact F2]. cbn. exact Fo.
Qed.

Lemma fetch_line_run n : forall p,
  256 <= ppu_x p -> ppu_x p + Z.of_nat n <= 320 -> -1 <= ppu_scanline p < 240 -> flag p ShowBGSP = true ->
  p.(tm).(VBlankState) = 0 -> tick_wf p ->
  fetch_run p.(sp).(sproutpos) p.(mm).(OAM2) (flag p ShowBG) (mmap p) (sprite_pat_addr p) (ppu_x p) n
    (fview p) (fview (Nat.iter n beat p)) /\
  (Nat.iter n beat p).(sp).(sproutpos) = p.(sp).(sproutpos) /\ (Nat.iter n beat p).(mm).(OAM2) = p.(mm).(OAM2).
Proof.
  induction n as [|n IH]; intros p Hx Hn Hs Hf Hv Hw; [split; [constructor | split; reflexivity]|].
  destruct (beat_fetch p ltac:(lia) Hs Hf Hv) as (Fv & Fr & Fo & F2).
  destruct (beat_beam p ltac:(lia) Hv Hw) as (Bx & Bs & Bv).
  destruct (beat_views p) as [Vw _].
  pose proof (proj1 (iter_beat_wf p 1 Hw)) as Hw1. change (Nat.iter 1 beat p) with (beat p) in Hw1.
  assert (Xf : forall f, flag (beat p) f = flag p f) by (intros f; unfold flag, rg; rewrite Fr; reflexivity).
  pose proof (mmap_view _ _ Vw) as Xm.
  assert (Xa : sprite_pat_addr (beat p) = sprite_pat_addr p)
    by (unfold sprite_pat_addr, flag, rg; rewrite Bs, Fr; reflexivity).
  destruct (IH (beat p)) as (R & Ro & R2); [lia | lia | lia | rewrite Xf; exact Hf | exact Bv | exact Hw1 |].
  rewrite Xf, Xm, Xa, Bx, Fo, F2 in R. rewrite Fo in Ro. rewrite F2 in R2.
  rewrite Nat.iter_succ_r. split; [|split; assumption].
  apply (fetch_run_S _ _ _ _ _ _ _ (beat p).(bg).(pat_addr)). rewrite <- Fv. exact R.
Qed.
End BeatFetch.

Section FetchRuns.
Variables (out : Z) (oam2 : gmap Z Oam.t) (showbg : bool) (rd : Z -> Z) (row_addr : Oam.t -> Z).
Local Abbreviation run := (fetch_run out oam2 showbg rd row_addr).
Local Abbreviation step := (fetch_step out oam2 showbg rd row_addr).

Lemma fetch_run_S_inv x n v v' : run x (S n) v v' -> exists j, run (x + 1) n (step x j v) v'.
Proof. intros H. inversion H; subst. eauto. Qed.

Lemma fetch_run_0_inv x v v' : run x 0 v v' -> v' = v.
Proof. intros H. inversion H; reflexivity. Qed.

Lemma mod8_next x k : x mod 8 = k -> k < 7 -> (x + 1) mod 8 = k + 1.
Proof. intros Hk Hl. pose proof (Z.mod_pos_bound x 8). Z.div_mod_to_equations. lia. Qed.

Ltac fstep H Hk :=
  let j := fresh "j" in
  apply fetch_run_S_inv in H; destruct H as [j H];
  unfold fetch_step at 1 in H; rewrite Hk in H; cbv iota in H; cbn [f_ren f_oam3 f_pat f_tpat] in H.
Ltac fnext H Hk k' :=
  match type of H with
  | fetch_run _ _ _ _ _ ?y _ _ _ => let Hk' := fresh "Hk" in
      assert (Hk' : y mod 8 = k') by (rewrite (mod8_next _ _ Hk) by lia; reflexivity); fstep H Hk'
  end.

Lemma fetch_group x v v' :
  x mod 8 = 0 -> run x 8 v v' ->
  let r := if (x =? 256) && showbg then 0 else v.(f_ren) in
  let k := r .& 0x7 in
  v'.(f_ren) = (if r <? out then r + 1 else r) /\
  v'.(f_oam3) = (if r <? out then <[k := Oam.set_pattern (row rd row_addr (oam2 !!! k)) (oam2 !!! k)]> v.(f_oam3)
                 else v.(f_oam3)).
Proof.
  intros H0 H. destruct v as [ren o pa tp]. cbn [f_ren f_oam3].
  fstep H H0.
  replace (if (x =? 256) && showbg then _ else _) with
    (mkFView (if (x =? 256) && showbg then 0 else ren) o pa tp) in H by (destruct (_ && _); reflexivity).
  set (r := if (x =? 256) && showbg then 0 else ren) in *. clearbody r.
  fnext H H0 1. fnext H Hk 2. fnext H Hk0 3.
  destruct (r <? out) eqn:Hr.
  - fnext H Hk1 4. fnext H Hk2 5. fnext H Hk3 6. fnext H Hk4 7. rewrite Hr in H.
    apply fetch_run_0_inv in H. subst v'. cbn [f_ren f_oam3]. split; [reflexivity|].
    rewrite lookup_total_insert_eq, insert_insert_eq. reflexivity.
  - fnext H Hk1 4. fnext H Hk2 5. fnext H Hk3 6. fnext H Hk4 7. rewrite Hr in H.
    apply fetch_run_0_inv in H. subst v'. split; reflexivity.
Qed.

Lemma fetch_run_app n m : forall x v v'', run x (n + m) v v'' ->
  exists v', run x n v v' /\ run (x + Z.of_nat n) m v' v''.
Proof.
  induction n as [|n IH]; intros x v v'' H.
  - exists v. split; [constructor | rewrite Z.add_0_r; exact H].
  - apply fetch_run_S_inv in H as [j H]. destruct (IH _ _ _ H) as (v' & H1 & H2).
    exists v'. split; [econstructor; exact H1|]. replace (x + Z.of_nat (S n)) with (x + 1 + Z.of_nat n) by lia. exact H2.
Qed.

Lemma land7_small m : 0 <= m < 8 -> m .& 7 = m.
Proof. intros Hm. change 7 with (Z.ones 3). rewrite Z.land_ones by lia. apply Z.mod_small. exact Hm. Qed.

(** [OAM3] [m] holds, at the slots [r0 .. n-1], the sprites of [OAM2] with
    their rows, and at the other slots the entries of [m0]. *)
Definition filled (r0 n : Z) (m0 m : gmap Z Oam.t) : Prop :=
  forall i, m !!! i = if (r0 <=? i) && (i <? n)
                      then Oam.set_pattern (row rd row_addr (oam2 !!! i)) (oam2 !!! i) else m0 !!! i.

Lemma filled_start r0 m0 : filled r0 r0 m0 m0.
Proof. intros i. destruct (Z.leb_spec r0 i), (Z.ltb_spec i r0); cbn [andb]; try reflexivity; lia. Qed.

Lemma filled_group r0 n m0 m :
  0 <= r0 <= n -> n < out -> out <= 8 -> filled r0 n m0 m ->
  let k := n .& 0x7 in
  filled r0 (n + 1) m0 (<[k := Oam.set_pattern (row rd row_addr (oam2 !!! k)) (oam2 !!! k)]> m).
Proof.
  intros Hr Hn Ho F. cbv zeta. rewrite (land7_small n) by lia. intros i.
  destruct (Z.eq_dec i n) as [-> | Hi].
  - rewrite lookup_total_insert_eq. destruct (Z.leb_spec r0 n), (Z.ltb_spec n (n + 1)); cbn [andb]; try reflexivity; lia.
  - rewrite lookup_total_insert_ne by congruence. rewrite F.
    destruct (Z.leb_spec r0 i), (Z.ltb_spec i n), (Z.ltb_spec i (n + 1)); cbn [andb]; try reflexivity; lia.
Qed.

Section Groups.
Hypothesis (Hout : 0 <= out <= 8).

(** After [g+1] groups of eight beats from column 256 the fetch has moved
    from [r0] (0 when the background is shown, the old [sprrenpos]
    otherwise) up to [out], one sprite per group, filling those slots. *)
Lemma fetch_groups g : forall v0 v,
  0 <= v0.(f_ren) -> run 256 (8 * S g) v0 v ->
  let r0 := if showbg then 0 else v0.(f_ren) in
  let n := if r0 <? out then Z.min (r0 + Z.of_nat (S g)) out else r0 in
  v.(f_ren) = n /\ filled r0 n v0.(f_oam3) v.(f_oam3).
Proof.
  induction g as [|g IH]; intros v0 v H0 H; cbv zeta.
  - destruct (fetch_group 256 v0 v eq_refl H) as [Er Eo]. cbv zeta in Er, Eo.
    change ((256 =? 256) && showbg) with showbg in Er, Eo.
    set (r0 := if showbg then 0 else f_ren v0) in *.
    assert (0 <= r0) by (subst r0; destruct showbg; lia).
    rewrite Er, Eo. destruct (Z.ltb_spec r0 out).
    + split; [lia|]. replace (Z.min (r0 + Z.of_nat 1) out) with (r0 + 1) by lia.
      apply filled_group; [lia | lia | lia | apply filled_start].
    + split; [reflexivity | apply filled_start].
  - replace (8 * S (S g))%nat with (8 * S g + 8)%nat in H by lia.
    destruct (fetch_run_app _ _ _ _ _ H) as (v1 & H1 & H2). destruct (IH _ _ H0 H1) as [Er1 Eo1].
    assert (Hm : (256 + Z.of_nat (8 * S g)) mod 8 = 0)
      by (replace (256 + Z.of_nat (8 * S g)) with ((32 + Z.of_nat (S g)) * 8) by lia; apply Z.mod_mul; lia).
    destruct (fetch_group _ _ _ Hm H2) as [Er Eo].
    replace (256 + Z.of_nat (8 * S g) =? 256) with false in Er, Eo by (symmetry; apply Z.eqb_neq; lia).
    cbn [andb] in Er, Eo. cbv zeta in Er, Eo. rewrite Er1 in Er, Eo.
    set (r0 := if showbg then 0 else f_ren v0) in *.
    assert (0 <= r0) by (subst r0; destruct showbg; lia).
    set (n := if r0 <? out then Z.min (r0 + Z.of_nat (S g)) out else r0) in *.
    replace (if r0 <? out then Z.min (r0 + Z.of_nat (S (S g))) out else r0) with (if n <? out then n + 1 else n)
      by (subst n; destruct (Z.ltb_spec r0 out); cbv iota;
          [destruct (Z.ltb_spec (Z.min (r0 + Z.of_nat (S g)) out) out) | destruct (Z.ltb_spec r0 out)]; lia).
    rewrite Er, Eo. destruct (Z.ltb_spec n out).
    + split; [reflexivity|]. apply filled_group; [subst n; destruct (Z.ltb_spec r0 out); lia | lia | lia | exact Eo1].
    + split; [reflexivity | exact Eo1].
Qed.
End Groups.
End FetchRuns.

(** ** The sprite fetch of a line *)

(** The outcome of 64 fetch steps from column 256, read back on the
    object [q] they end in. *)
Lemma fetch_outcome p q (bg : bool) :
  0 <= p.(sp).(sproutpos) <= 8 -> 0 <= p.(sp).(sprrenpos) ->
  fetch_run p.(sp).(sproutpos) p.(mm).(OAM2) bg (mmap p) (sprite_pat_addr p) 256 64 (fview p) (fview q) ->
  let r0 := if bg then 0 else p.(sp).(sprrenpos) in
  let n := Z.max r0 p.(sp).(sproutpos) in
  q.(sp).(sprrenpos) = n /\
  forall i, q.(mm).(OAM3) !!! i =
    if (r0 <=? i) && (i <? n)
    then Oam.set_pattern (row (mmap p) (sprite_pat_addr p) (p.(mm).(OAM2) !!! i)) (p.(mm).(OAM2) !!! i)
    else p.(mm).(OAM3) !!! i.
Proof.
  intros Ho Hr R. destruct (fetch_groups _ _ _ _ _ Ho 7 (fview p) (fview q) Hr R) as [Er Eo].
  unfold filled, fview in Er, Eo. cbn [f_ren f_oam3] in Er, Eo. cbv zeta in *.
  replace (if (if bg then 0 else sprrenpos (sp p)) <? sproutpos (sp p)
           then Z.min ((if bg then 0 else sprrenpos (sp p)) + Z.of_nat 8) (sproutpos (sp p))
           else if bg then 0 else sprrenpos (sp p))
    with (Z.max (if bg then 0 else sprrenpos (sp p)) (sproutpos (sp p))) in Er, Eo
    by (destruct bg; cbv iota; [destruct (Z.ltb_spec 0 (sproutpos (sp p))) | destruct (Z.ltb_spec (sprrenpos (sp p)) (sproutpos (sp p)))]; lia).
  split; [exact Er | exact Eo].
Qed.

Section Line.
Context `{PixelOut}.

(** The 64 beats from column 256 of a rendered line, on the state. *)
Lemma fetch_line p :
  tick_wf p -> ppu_x p = 256 -> -1 <= ppu_scanline p < 240 -> flag p ShowBGSP = true ->
  p.(tm).(VBlankState) = 0 -> 0 <= p.(sp).(sproutpos) <= 8 -> 0 <= p.(sp).(sprrenpos) ->
  let q := Nat.iter 64 beat p in
  let r0 := if flag p ShowBG then 0 else p.(sp).(sprrenpos) in
  let n := Z.max r0 p.(sp).(sproutpos) in
  q.(sp).(sprrenpos) = n /\ q.(sp).(sproutpos) = p.(sp).(sproutpos) /\ q.(mm).(OAM2) = p.(mm).(OAM2) /\
  forall i, q.(mm).(OAM3) !!! i =
    if (r0 <=? i) && (i <? n)
    then Oam.set_pattern (row (mmap p) (sprite_pat_addr p) (p.(mm).(OAM2) !!! i)) (p.(mm).(OAM2) !!! i)
    else p.(mm).(OAM3) !!! i.
Proof.
  intros Hw Hx Hs Hf Hv Ho Hr. cbv zeta.
  destruct (fetch_line_run 64 p ltac:(lia) ltac:(lia) Hs Hf Hv Hw) as (R & Ro & R2).
  rewrite Hx in R. destruct (fetch_outcome p _ _ Ho Hr R) as [Er Eo].
  split; [exact Er|]. split; [exact Ro|]. split; [exact R2 | exact Eo].
Qed.

End Line.

Lemma iter_views `{PixelOut} n p :
  mem_view (Nat.iter n beat p) = mem_view p /\ (spr_wf p -> spr_wf (Nat.iter n beat p)).
Proof.
  induction n as [|n [IV IS]]; [split; auto|]. rewrite Nat.iter_succ.
  destruct (beat_views (Nat.iter n beat p)) as [V S]. split; [congruence | auto].
Qed.

(** The fetch of columns 256..319 on top of the outcome of evaluation:
    [q1] is the object at column 256. *)
Lemma line_compose `{PixelOut} p q1 (l : list Z) :
  line_frame p q1 -> ppu_scanline q1 = ppu_scanline p -> mem_view q1 = mem_view p -> tick_wf q1 ->
  ppu_x q1 = 256 -> q1.(tm).(VBlankState) = 0 -> spr_wf q1 -> -1 <= ppu_scanline p < 240 ->
  flag p ShowBG = true ->
  q1.(sp).(sproutpos) = Z.of_nat (Nat.min 8 (length l)) ->
  (forall i k, l !! i = Some k -> (i < 8)%nat -> entry_of (q1.(mm).(OAM2) !!! Z.of_nat i) = oam_sprite p.(mm).(OAM) k) ->
  let q := Nat.iter 64 beat q1 in
  q.(sp).(sprrenpos) = Z.of_nat (Nat.min 8 (length l)) /\
  forall i k, l !! i = Some k -> (i < 8)%nat ->
    entry_of (q.(mm).(OAM3) !!! Z.of_nat i) = oam_sprite p.(mm).(OAM) k /\
    (q.(mm).(OAM3) !!! Z.of_nat i).(Oam.pattern) =
      row (mmap p) (sprite_pat_addr p) (q.(mm).(OAM3) !!! Z.of_nat i).
Proof.
  intros F Fs Vw W Fx Fv (_ & Ho & Hr & _) Hs Hbg Eo Eslots. cbv zeta.
  assert (Hbg1 : flag q1 ShowBG = true) by (rewrite (line_frame_flag p q1) by auto; exact Hbg).
  destruct (fetch_line q1 W Fx ltac:(rewrite Fs; exact Hs) (ShowBG_ShowBGSP _ Hbg1) Fv Ho ltac:(lia))
    as (Er & _ & _ & E3).
  cbv zeta in Er, E3. rewrite Hbg1, Z.max_r in Er, E3 by lia.
  rewrite (mmap_view _ _ Vw), (sprite_pat_addr_frame p q1 F Fs) in E3.
  rewrite Er, Eo. split; [reflexivity|]. intros i k Hi Hk.
  pose proof (lookup_lt_Some _ _ _ Hi) as Hl.
  rewrite E3, Eo. destruct (Z.leb_spec 0 (Z.of_nat i)); [|lia].
  destruct (Z.ltb_spec (Z.of_nat i) (Z.of_nat (Nat.min 8 (length l)))); [|lia]. cbn [andb].
  split; [exact (Eslots i k Hi Hk) | apply set_pattern_row].
Qed.

Section Claims.
Context `{PixelOut}.

(** C39: the beats of columns 256..319 of a rendered line, with the
    background shown, copy the [sproutpos] sprites that evaluation placed in
    [OAM2] to [OAM3], each with the interleaved pattern row of the line
    ([Oam.set_pattern]), and leave the other [OAM3] entries, [OAM2] and
    [sproutpos] unchanged; [sprrenpos] ends at [sproutpos]. *)
Theorem sprite_fetch_line p :
  tick_wf p -> ppu_x p = 256 -> -1 <= ppu_scanline p < 240 -> flag p ShowBG = true ->
  p.(tm).(VBlankState) = 0 -> 0 <= p.(sp).(sproutpos) <= 8 -> 0 <= p.(sp).(sprrenpos) ->
  let q := Nat.iter 64 beat p in
  let n := p.(sp).(sproutpos) in
  q.(sp).(sprrenpos) = n /\ q.(sp).(sproutpos) = n /\ q.(mm).(OAM2) = p.(mm).(OAM2) /\
  forall i, q.(mm).(OAM3) !!! i =
    if (0 <=? i) && (i <? n)
    then Oam.set_pattern (row (mmap p) (sprite_pat_addr p) (p.(mm).(OAM2) !!! i)) (p.(mm).(OAM2) !!! i)
    else p.(mm).(OAM3) !!! i.
Proof.
  intros Hw Hx Hs Hf Hv Ho Hr.
  destruct (fetch_line p Hw Hx Hs (ShowBG_ShowBGSP p Hf) Hv Ho Hr) as (Er & Eo & E2 & E3).
  rewrite Hf in Er, E3. cbv zeta. rewrite Z.max_r in Er, E3 by lia.
  split; [exact Er|]. split; [exact Eo|]. split; [exact E2 | exact E3].
Qed.

(** With sprites shown and the background hidden, [case 0] at column
    256 does not reset [sprrenpos] (the reset sits behind
    [if(!reg.ShowBG) break;]): the fetch goes on from the [sprrenpos] of
    the previous line up to [sproutpos], and the [OAM3] slots below the old
    [sprrenpos] keep the previous line's sprites. *)
Lemma sprite_fetch_no_bg p :
  tick_wf p -> ppu_x p = 256 -> -1 <= ppu_scanline p < 240 -> flag p ShowBG = false -> flag p ShowSP = true ->
  p.(tm).(VBlankState) = 0 -> 0 <= p.(sp).(sproutpos) <= 8 -> 0 <= p.(sp).(sprrenpos) ->
  let q := Nat.iter 64 beat p in
  let r := p.(sp).(sprrenpos) in
  q.(sp).(sprrenpos) = Z.max r p.(sp).(sproutpos) /\
  forall i, q.(mm).(OAM3) !!! i =
    if (r <=? i) && (i <? p.(sp).(sproutpos))
    then Oam.set_pattern (row (mmap p) (sprite_pat_addr p) (p.(mm).(OAM2) !!! i)) (p.(mm).(OAM2) !!! i)
    else p.(mm).(OAM3) !!! i.
Proof.
  intros Hw Hx Hs Hf Hsp Hv Ho Hr.
  destruct (fetch_line p Hw Hx Hs (ShowSP_ShowBGSP p Hsp) Hv Ho Hr) as (Er & _ & _ & E3).
  rewrite Hf in Er, E3. cbv zeta. split; [exact Er|]. intros i. rewrite E3.
  destruct (Z.leb_spec (sprrenpos (sp p)) i), (Z.ltb_spec i (sproutpos (sp p))),
    (Z.ltb_spec i (Z.max (sprrenpos (sp p)) (sproutpos (sp p)))); cbn [andb]; try reflexivity; lia.
Qed.

(** C40: the sprite pipeline over a line.  From column 0 of a rendered
    line with background and sprites shown, the 320 beats of columns
    0..319 leave [sprrenpos] at the number of sprites selected for the next
    line (at most eight) and, in [OAM3[0..7]], the first eight sprites of
    primary OAM covering the scanline, in OAM order, each with the pattern
    row of its own tile at this scanline as [render_pixel] reads it. *)
Theorem sprite_line p :
  tick_wf p -> spr_wf p -> ppu_x p = 0 -> -1 <= ppu_scanline p < 240 -> flag p ShowBG = true ->
  flag p ShowSP = true -> p.(tm).(VBlankState) = 0 ->
  let q := Nat.iter 320 beat p in
  let l := found (ppu_scanline p) (flag p SPsize) p.(mm).(OAM) 64 in
  q.(sp).(sprrenpos) = Z.of_nat (Nat.min 8 (length l)) /\
  forall i k, l !! i = Some k -> (i < 8)%nat ->
    entry_of (q.(mm).(OAM3) !!! Z.of_nat i) = oam_sprite p.(mm).(OAM) k /\
    (q.(mm).(OAM3) !!! Z.of_nat i).(Oam.pattern) =
      row (mmap p) (sprite_pat_addr p) (q.(mm).(OAM3) !!! Z.of_nat i).
Proof.
  intros Hw Hs0 Hx Hs Hbg Hsp Hv. cbv zeta.
  replace (Nat.iter 320 beat p) with (Nat.iter 64 beat (Nat.iter 256 beat p))
    by (symmetry; exact (Nat.iter_add 64 256 beat p)).
  destruct (eval_line_run p Hw Hx Hs Hsp Hv) as ((Eo & Eslots & _) & F & Fx & Fs & Fv).
  destruct (iter_views 256 p) as [Vw Sw].
  exact (line_compose p _ _ F Fs Vw (proj1 (iter_beat_wf p 256 Hw)) Fx Fv (Sw Hs0) Hs Hbg Eo Eslots).
Qed.

End Claims.

#[local] Instance host_colour_fetch : PixelOut := fun _ _ c _ => c.

(** Two sprites selected in [OAM2] for scanline 10. *)
Definition oam2_two : gmap Z Oam.t :=
  list_to_map [(0, Oam.mk 0 4 0x21 0 16 0); (1, Oam.mk 3 8 0x42 0x80 40 0)].

(** Column 256 of scanline 10 after power-on, two sprites selected, with
    the register bits [bits] set. *)
Definition fetch_scenario (bits : regfield) : Ppu :=
  upd_reg bits 1 (with_sp (set_sproutpos 2) (with_mm (set_OAM2 oam2_two)
    (with_tm (fun t => set_x 256 (set_scanline 10 t)) ppu_powered))).

Lemma fetch_scenario_facts bits :
  tick_wf (fetch_scenario bits) /\ ppu_x (fetch_scenario bits) = 256 /\
  -1 <= ppu_scanline (fetch_scenario bits) < 240 /\ (fetch_scenario bits).(tm).(VBlankState) = 0 /\
  0 <= (fetch_scenario bits).(sp).(sproutpos) <= 8 /\ 0 <= (fetch_scenario bits).(sp).(sprrenpos).
Proof.
  assert (T : (fetch_scenario bits).(tm) = mkTiming 10 256 341 0 0 false 0 /\ (fetch_scenario bits).(mode_) = NTSC)
    by (split; reflexivity).
  unfold tick_wf, timing_wf, ppu_x, ppu_scanline. destruct T as [-> ->]. cbn. lia.
Qed.

Lemma sprite_fetch_line_witness :
  let p := fetch_scenario ShowBG in
  (tick_wf p /\ ppu_x p = 256 /\ -1 <= ppu_scanline p < 240 /\ flag p ShowBG = true /\
   p.(tm).(VBlankState) = 0 /\ 0 <= p.(sp).(sproutpos) <= 8 /\ 0 <= p.(sp).(sprrenpos)) /\
  let q := Nat.iter 64 beat p in
  let n := p.(sp).(sproutpos) in
  q.(sp).(sprrenpos) = n /\ q.(sp).(sproutpos) = n /\ q.(mm).(OAM2) = p.(mm).(OAM2) /\
  forall i, q.(mm).(OAM3) !!! i =
    if (0 <=? i) && (i <? n)
    then Oam.set_pattern (row (mmap p) (sprite_pat_addr p) (p.(mm).(OAM2) !!! i)) (p.(mm).(OAM2) !!! i)
    else p.(mm).(OAM3) !!! i.
Proof.
  destruct (fetch_scenario_facts ShowBG) as (H1 & H2 & H3 & H5 & H6 & H7).
  assert (H4 : flag (fetch_scenario ShowBG) ShowBG = true) by (vm_compute; reflexivity).
  split; [exact (conj H1 (conj H2 (conj H3 (conj H4 (conj H5 (conj H6 H7))))))|].
  exact (sprite_fetch_line (fetch_scenario ShowBG) H1 H2 H3 H4 H5 H6 H7).
Defined.

(** Column 0 of scanline 10 after power-on, background and sprites shown,
    ten sprites on the line ([SpriteEval.line_scenario] with [ShowBG]). *)
Definition pipeline_scenario : Ppu := upd_reg ShowBG 1 line_scenario.

Lemma sprite_line_witness :
  let p := pipeline_scenario in
  (tick_wf p /\ spr_wf p /\ ppu_x p = 0 /\ -1 <= ppu_scanline p < 240 /\ flag p ShowBG = true /\
   flag p ShowSP = true /\ p.(tm).(VBlankState) = 0) /\
  let q := Nat.iter 320 beat p in
  let l := found (ppu_scanline p) (flag p SPsize) p.(mm).(OAM) 64 in
  q.(sp).(sprrenpos) = Z.of_nat (Nat.min 8 (length l)) /\
  forall i k, l !! i = Some k -> (i < 8)%nat ->
    entry_of (q.(mm).(OAM3) !!! Z.of_nat i) = oam_sprite p.(mm).(OAM) k /\
    (q.(mm).(OAM3) !!! Z.of_nat i).(Oam.pattern) =
      row (mmap p) (sprite_pat_addr p) (q.(mm).(OAM3) !!! Z.of_nat i).
Proof.
  assert (T : pipeline_scenario.(tm) = mkTiming 10 0 341 0 0 false 0 /\ pipeline_scenario.(mode_) = NTSC)
    by (split; vm_compute; reflexivity).
  assert (E : pipeline_scenario.(sp) = mkSprEval 0 0 0 0 /\ pipeline_scenario.(mm).(OAM2) = ∅ /\
              pipeline_scenario.(mm).(OAM3) = ∅) by (split; [|split]; vm_compute; reflexivity).
  assert (H1 : tick_wf pipeline_scenario) by (unfold tick_wf, timing_wf; destruct T as [-> ->]; cbn; lia).
  assert (H2 : spr_wf pipeline_scenario).
  { unfold spr_wf. destruct E as (-> & -> & ->). cbn.
    split; [lia|]. split; [lia|]. split; [lia|]. split; intros j [v Hv]; rewrite lookup_empty in Hv; discriminate. }
  assert (H3 : ppu_x pipeline_scenario = 0 /\ -1 <= ppu_scanline pipeline_scenario < 240 /\
               pipeline_scenario.(tm).(VBlankState) = 0)
    by (unfold ppu_x, ppu_scanline; destruct T as [-> _]; cbn; lia).
  destruct H3 as (H3 & H4 & H7).
  assert (H5 : flag pipeline_scenario ShowBG = true) by (vm_compute; reflexivity).
  assert (H6 : flag pipeline_scenario ShowSP = true) by (vm_compute; reflexivity).
  split; [exact (conj H1 (conj H2 (conj H3 (conj H4 (conj H5 (conj H6 H7))))))|].
  exact (sprite_line pipeline_scenario H1 H2 H3 H4 H5 H6 H7).
Defined.
