(* ===== verification/Scroll.v ===== *)
(** The loopy scroll address over a rendered line: what the beats of a
    visible line do to [vaddr] (src/ppu.cpp, [Ppu::rendering_tick] cases
    0 and 3, lines 163-193).

    [Loopy] is the scroll view of the object ([lview]: coarse X, the
    horizontal nametable bit, fine Y, coarse Y, the vertical nametable
    bit).  [lstep] is what one beat at column [x] does to it:
    [++vaddr.xcoarse] on the tile-decoding beats with [x % 8 == 3], the
    fine-Y increment after it at column 251, and the copy of the
    horizontal fields from the scroll latch at column 256 when the
    background is shown; [lrun] runs the columns of a line.  [beat_scroll]
    proves that a beat of a visible line is one [lstep] and [scroll_run]
    that the beats of a line are [lrun].  The schedule of the 341 columns
    is evaluated once ([lrun_line]), the field arithmetic is proved on
    [lincr_x]/[lincr_y], and the line theorems follow: C16 with the
    background shown, C17 with it hidden. *)

From S2P Require Import Prelude Regs State Mmap Lifecycle Bus Bytes Interleave Render Pixel Tick Frame SpriteEval System Fetch.


(** The scroll fields of [vaddr]. *)
Record Loopy := mkLoopy { l_xc : Z; l_nh : Z; l_yf : Z; l_yc : Z; l_nv : Z }.

(** [if(!++vaddr.xcoarse) vaddr.basenta_h = 1-vaddr.basenta_h;] *)
Definition lincr_x (v : Loopy) : Loopy :=
  mkLoopy ((v.(l_xc) + 1) mod 32) (if v.(l_xc) =? 31 then 1 - v.(l_nh) else v.(l_nh)) v.(l_yf) v.(l_yc) v.(l_nv).

(** [if(!++vaddr.yfine && ++vaddr.ycoarse == 30) { vaddr.ycoarse = 0; vaddr.basenta_v = 1-vaddr.basenta_v; }] *)
Definition lincr_y (v : Loopy) : Loopy :=
  let yf := v.(l_yf) in let yc := v.(l_yc) in
  mkLoopy v.(l_xc) v.(l_nh) ((yf + 1) mod 8)
    (if yf =? 7 then (if yc =? 29 then 0 else (yc + 1) mod 32) else yc)
    (if (yf =? 7) && (yc =? 29) then 1 - v.(l_nv) else v.(l_nv)).

(** [vaddr.xcoarse = scroll.xcoarse; vaddr.basenta_h = scroll.basenta_h;] *)
Definition lcopy (sxc snh : Z) (v : Loopy) : Loopy := mkLoopy sxc snh v.(l_yf) v.(l_yc) v.(l_nv).

Section Machine.
Variables (bg : bool) (sxc snh : Z).

(** One beat at column [x] of a visible line, on the scroll fields. *)
Definition lstep (x : Z) (v : Loopy) : Loopy :=
  if tile_decode_mode x && (x mod 8 =? 3) then
    let v := lincr_x v in if x =? 251 then lincr_y v else v
  else if bg && (x =? 256) then lcopy sxc snh v else v.

Fixpoint lrun (x : Z) (n : nat) (v : Loopy) : Loopy :=
  match n with O => v | S n => lrun (x + 1) n (lstep x v) end.
End Machine.

(** The scroll view of the object. *)
Definition lview (p : Ppu) : Loopy :=
  mkLoopy (va p xcoarse) (va p basenta_h) (va p yfine) (va p ycoarse) (va p basenta_v).

(** What the line's scroll updates read and no beat of a rendered line
    writes: the scroll latch and the display bits. *)
Definition scroll_frame (p q : Ppu) : Prop :=
  q.(lt).(scroll) = p.(lt).(scroll) /\ rg q ShowBG = rg p ShowBG /\ rg q ShowSP = rg p ShowSP /\
  rg q ShowBGSP = rg p ShowBGSP.

(** A stage that leaves [vaddr] and the scroll frame alone. *)
Definition scroll_quiet (f : Ppu -> Ppu) (p : Ppu) : Prop :=
  (f p).(lt).(vaddr) = p.(lt).(vaddr) /\ scroll_frame p (f p).


(** The schedule of a line: 32 coarse-X increments, the fine-Y
    increment, the copy (background shown), 2 increments. *)
Lemma lrun_line bg sxc snh v :
  lrun bg sxc snh 0 341 v =
  Nat.iter 2 lincr_x ((if bg then lcopy sxc snh else fun v => v) (lincr_y (Nat.iter 32 lincr_x v))).
Proof. destruct bg; cbv -[lincr_x lincr_y lcopy]; reflexivity. Qed.

Lemma succ_div_mod32 a :
  (a + 1) mod 32 = (a mod 32 + 1) mod 32 /\
  (a + 1) / 32 = a / 32 + (if a mod 32 =? 31 then 1 else 0).
Proof.
  destruct (Z.eqb_spec (a mod 32) 31); split; Z.div_mod_to_equations; lia.
Qed.

(** [k] increments of coarse X: coarse X moves [k] columns modulo 32 and
    the horizontal nametable switches once per wrap. *)
Lemma iter_lincr_x k v :
  0 <= v.(l_xc) < 32 ->
  let w := Nat.iter k lincr_x v in
  w.(l_xc) = (v.(l_xc) + Z.of_nat k) mod 32 /\
  w.(l_nh) = (if Z.even ((v.(l_xc) + Z.of_nat k) / 32) then v.(l_nh) else 1 - v.(l_nh)) /\
  w.(l_yf) = v.(l_yf) /\ w.(l_yc) = v.(l_yc) /\ w.(l_nv) = v.(l_nv).
Proof.
  intros Hx. induction k as [|k IH]; cbv zeta in *.
  - cbn. rewrite Z.add_0_r, Z.mod_small, Z.div_small by lia. auto.
  - destruct IH as (Ex & Eh & Ef & Ec & Ev). rewrite Nat.iter_succ.
    set (w := Nat.iter k lincr_x v) in *. unfold lincr_x. cbn [l_xc l_nh l_yf l_yc l_nv].
    rewrite Ex, Eh, Ef, Ec, Ev, Nat2Z.inj_succ, <- Z.add_1_r, Z.add_assoc.
    destruct (succ_div_mod32 (l_xc v + Z.of_nat k)) as [M D]. rewrite M, D.
    split; [reflexivity|]. split; [|auto].
    destruct (Z.eqb_spec ((l_xc v + Z.of_nat k) mod 32) 31).
    + rewrite Z.even_add. destruct (Z.even _); cbn; lia.
    + rewrite Z.add_0_r. reflexivity.
Qed.

Lemma iter_lincr_x_y k v :
  (Nat.iter k lincr_x v).(l_yf) = v.(l_yf) /\ (Nat.iter k lincr_x v).(l_yc) = v.(l_yc) /\
  (Nat.iter k lincr_x v).(l_nv) = v.(l_nv).
Proof. induction k as [|k IH]; [auto|]. rewrite Nat.iter_succ. exact IH. Qed.

Lemma lincr_y_xc v : (lincr_y v).(l_xc) = v.(l_xc). Proof. reflexivity. Qed.
Lemma lincr_y_nh v : (lincr_y v).(l_nh) = v.(l_nh). Proof. reflexivity. Qed.
Lemma lcopy_xc a b u : (lcopy a b u).(l_xc) = a. Proof. reflexivity. Qed.
Lemma lcopy_nh a b u : (lcopy a b u).(l_nh) = b. Proof. reflexivity. Qed.
Lemma lcopy_yf a b u : (lcopy a b u).(l_yf) = u.(l_yf). Proof. reflexivity. Qed.
Lemma lcopy_yc a b u : (lcopy a b u).(l_yc) = u.(l_yc). Proof. reflexivity. Qed.
Lemma lcopy_nv a b u : (lcopy a b u).(l_nv) = u.(l_nv). Proof. reflexivity. Qed.

Lemma lincr_y_ext v w :
  v.(l_yf) = w.(l_yf) -> v.(l_yc) = w.(l_yc) -> v.(l_nv) = w.(l_nv) ->
  (lincr_y v).(l_yf) = (lincr_y w).(l_yf) /\ (lincr_y v).(l_yc) = (lincr_y w).(l_yc) /\
  (lincr_y v).(l_nv) = (lincr_y w).(l_nv).
Proof. intros E1 E2 E3. unfold lincr_y. cbn. rewrite E1, E2, E3. auto. Qed.

(** Two increments of coarse X. *)
Lemma lincr_x2 u :
  0 <= u.(l_xc) < 32 ->
  let w := Nat.iter 2 lincr_x u in
  w.(l_xc) = (u.(l_xc) + 2) mod 32 /\ w.(l_nh) = (if 30 <=? u.(l_xc) then 1 - u.(l_nh) else u.(l_nh)) /\
  w.(l_yf) = u.(l_yf) /\ w.(l_yc) = u.(l_yc) /\ w.(l_nv) = u.(l_nv).
Proof.
  intros Hs. cbv zeta. change (Nat.iter 2 lincr_x ?x) with (lincr_x (lincr_x x)).
  unfold lincr_x. cbn [l_xc l_nh l_yf l_yc l_nv].
  split; [Z.div_mod_to_equations; lia|]. split; [|auto].
  destruct (Z.eqb_spec (l_xc u) 31) as [E | H31]; [rewrite E; reflexivity|].
  rewrite (Z.mod_small (l_xc u + 1)) by lia.
  destruct (Z.eqb_spec (l_xc u + 1) 31); destruct (Z.leb_spec 30 (l_xc u)); lia.
Qed.

(** Thirty-two increments bring coarse X back and switch the horizontal
    nametable once. *)
Lemma lincr_x32 v :
  0 <= v.(l_xc) < 32 ->
  (Nat.iter 32 lincr_x v).(l_xc) = v.(l_xc) /\ (Nat.iter 32 lincr_x v).(l_nh) = 1 - v.(l_nh).
Proof.
  intros Hx. destruct (iter_lincr_x 32 v Hx) as (Ex & Eh & _). rewrite Ex, Eh.
  replace ((l_xc v + Z.of_nat 32) / 32) with 1 by (Z.div_mod_to_equations; lia).
  split; [Z.div_mod_to_equations; lia | reflexivity].
Qed.

Lemma lincr_y_after_x32 v :
  let u := lincr_y (Nat.iter 32 lincr_x v) in
  u.(l_yf) = (lincr_y v).(l_yf) /\ u.(l_yc) = (lincr_y v).(l_yc) /\ u.(l_nv) = (lincr_y v).(l_nv).
Proof. destruct (iter_lincr_x_y 32 v) as (F1 & F2 & F3). exact (lincr_y_ext _ _ F1 F2 F3). Qed.

(** The line with the background shown: coarse X and the horizontal
    nametable come from the latch, advanced by the two prefetched tiles;
    the vertical fields advance one row. *)
Lemma lrun_line_bg sxc snh v :
  0 <= sxc < 32 ->
  let w := lrun true sxc snh 0 341 v in
  w.(l_xc) = (sxc + 2) mod 32 /\ w.(l_nh) = (if 30 <=? sxc then 1 - snh else snh) /\
  w.(l_yf) = (lincr_y v).(l_yf) /\ w.(l_yc) = (lincr_y v).(l_yc) /\ w.(l_nv) = (lincr_y v).(l_nv).
Proof.
  intros Hs. cbv zeta. rewrite lrun_line. cbv beta iota.
  assert (Hc : 0 <= l_xc (lcopy sxc snh (lincr_y (Nat.iter 32 lincr_x v))) < 32) by (rewrite lcopy_xc; exact Hs).
  destruct (lincr_x2 _ Hc) as (Ex & Eh & Ef & Ec & Ev).
  rewrite Ex, Eh, Ef, Ec, Ev, lcopy_xc, lcopy_nh, lcopy_yf, lcopy_yc, lcopy_nv.
  split; [reflexivity|]. split; [reflexivity | exact (lincr_y_after_x32 v)].
Qed.

(** The line with the background hidden: nothing restores the horizontal
    fields, so coarse X ends two tiles further on. *)
Lemma lrun_line_no_bg sxc snh v :
  0 <= v.(l_xc) < 32 ->
  let w := lrun false sxc snh 0 341 v in
  w.(l_xc) = (v.(l_xc) + 2) mod 32 /\ w.(l_nh) = (if 30 <=? v.(l_xc) then v.(l_nh) else 1 - v.(l_nh)) /\
  w.(l_yf) = (lincr_y v).(l_yf) /\ w.(l_yc) = (lincr_y v).(l_yc) /\ w.(l_nv) = (lincr_y v).(l_nv).
Proof.
  intros Hx. cbv zeta. rewrite lrun_line. cbv beta iota.
  destruct (lincr_x32 v Hx) as [Ex Eh].
  assert (Hu : 0 <= l_xc (lincr_y (Nat.iter 32 lincr_x v)) < 32) by (rewrite lincr_y_xc, Ex; exact Hx).
  destruct (lincr_x2 _ Hu) as (Fx & Fh & Ff & Fc & Fv).
  rewrite Fx, Fh, Ff, Fc, Fv, lincr_y_xc, lincr_y_nh, Ex, Eh.
  split; [reflexivity|]. split; [|exact (lincr_y_after_x32 v)].
  destruct (30 <=? l_xc v); lia.
Qed.


Lemma scroll_frame_refl p : scroll_frame p p.
Proof. repeat split. Qed.

Lemma scroll_frame_trans p q r : scroll_frame p q -> scroll_frame q r -> scroll_frame p r.
Proof. unfold scroll_frame. intros (? & ? & ? & ?) (? & ? & ? & ?). repeat split; congruence. Qed.

Lemma lt_publish f v p : (publish f v p).(lt) = p.(lt).
Proof. unfold publish. destruct (_ <? 8); reflexivity. Qed.

Lemma vaddr_upd_reg f v p : (upd_reg f v p).(lt).(vaddr) = p.(lt).(vaddr). Proof. reflexivity. Qed.
Lemma scroll_upd_reg f v p : (upd_reg f v p).(lt).(scroll) = p.(lt).(scroll). Proof. reflexivity. Qed.
Lemma lt_with_sp f p : (with_sp f p).(lt) = p.(lt). Proof. reflexivity. Qed.

Ltac squiet_tac :=
  repeat case_match; unfold scroll_frame; rewrite ?rg_with_nes; autorewrite with view fields;
  repeat rewrite ?vaddr_upd_reg, ?scroll_upd_reg, ?lt_publish, ?lt_with_sp; repeat split.

Lemma stages_scroll `{PixelOut} p :
  scroll_quiet decay_open_bus p /\ scroll_quiet step_cycle_counter p /\ scroll_quiet sp0hit_hack p /\
  (forall l, scroll_quiet (end_of_line l) p) /\ scroll_quiet end_beat p /\ scroll_quiet render_pixel p /\
  scroll_quiet sprite_eval p.
Proof.
  split; [unfold scroll_quiet, decay_open_bus; squiet_tac|].
  split; [unfold scroll_quiet, step_cycle_counter; squiet_tac|].
  split; [unfold scroll_quiet, sp0hit_hack; squiet_tac|].
  split; [intros l; unfold scroll_quiet, end_of_line, fire_on_render; squiet_tac|].
  split; [unfold scroll_quiet, end_beat; squiet_tac|].
  split; [unfold scroll_quiet, render_pixel; destruct (compose_pixel_unfold p) as (hit & v & ->); destruct hit; cbv beta iota zeta; squiet_tac|].
  unfold scroll_quiet, sprite_eval. squiet_tac.
Qed.

Lemma vblank_service_scroll p : p.(tm).(VBlankState) = 0 -> scroll_quiet vblank_service p.
Proof. intros Hv. unfold scroll_quiet, vblank_service. rewrite Hv. cbn [Z.eqb Pos.eqb]. squiet_tac. Qed.

Lemma lview_incr_x q : lview (incr_xcoarse q) = lincr_x (lview q).
Proof.
  destruct (incr_xcoarse_spec q) as (E1 & E2 & E3 & E4 & E5).
  unfold lview, lincr_x. cbn [l_xc l_nh l_yf l_yc l_nv]. rewrite E1, E2, E3, E4, E5. reflexivity.
Qed.

Lemma lview_incr_y q : lview (incr_y q) = lincr_y (lview q).
Proof.
  destruct (incr_y_spec q) as (E1 & E2 & E3 & E4 & E5). cbv zeta in *.
  unfold lview, lincr_y. cbn [l_xc l_nh l_yf l_yc l_nv]. rewrite E1, E2, E3, E4, E5. reflexivity.
Qed.

Lemma incr_scroll_frame q : scroll_frame q (incr_xcoarse q) /\ scroll_frame q (incr_y q).
Proof. unfold scroll_frame, incr_xcoarse, incr_y. split; destruct_ifs; repeat split. Qed.

Lemma lview_with_bg f q : lview (with_bg f q) = lview q. Proof. reflexivity. Qed.
Lemma incr_xcoarse_tm q : (incr_xcoarse q).(tm) = q.(tm). Proof. unfold incr_xcoarse. destruct_ifs; reflexivity. Qed.

Lemma sc_range f p : 0 <= sc p f < 2 ^ snd (layout f).
Proof. apply fget_range. Qed.

(** [vaddr.xcoarse = scroll.xcoarse; vaddr.basenta_h = scroll.basenta_h]. *)
Lemma lview_copy q r :
  lview (upd_vaddr basenta_h (sc q basenta_h) (upd_vaddr xcoarse (sc q xcoarse) r)) =
  lcopy (sc q xcoarse) (sc q basenta_h) (lview r).
Proof.
  pose proof (sc_range xcoarse q) as Hx. pose proof (sc_range basenta_h q) as Hh.
  cbn [snd layout scrollfield_layout scrollfield_pos] in Hx, Hh.
  unfold lview, lcopy. cbn [l_yf l_yc l_nv]. vaddr_simpl.
  rewrite (Z.mod_small (sc q xcoarse)), (Z.mod_small (sc q basenta_h)) by assumption. reflexivity.
Qed.

Lemma x_with_bg f q : ppu_x (with_bg f q) = ppu_x q. Proof. reflexivity. Qed.
Lemma x_with_sp f q : ppu_x (with_sp f q) = ppu_x q. Proof. reflexivity. Qed.
Lemma x_with_mm f q : ppu_x (with_mm f q) = ppu_x q. Proof. reflexivity. Qed.
Lemma x_upd_reg f v q : ppu_x (upd_reg f v q) = ppu_x q. Proof. reflexivity. Qed.
Lemma s_with_bg f q : ppu_scanline (with_bg f q) = ppu_scanline q. Proof. reflexivity. Qed.
Lemma s_with_sp f q : ppu_scanline (with_sp f q) = ppu_scanline q. Proof. reflexivity. Qed.
Lemma s_upd_reg f v q : ppu_scanline (upd_reg f v q) = ppu_scanline q. Proof. reflexivity. Qed.
Lemma flag_with_bg f q g : flag (with_bg f q) g = flag q g. Proof. reflexivity. Qed.
Lemma flag_with_sp f q g : flag (with_sp f q) g = flag q g. Proof. reflexivity. Qed.
Lemma sc_with_bg f q g : sc (with_bg f q) g = sc q g. Proof. reflexivity. Qed.
Lemma sc_with_sp f q g : sc (with_sp f q) g = sc q g. Proof. reflexivity. Qed.
Lemma sc_upd_reg f v q g : sc (upd_reg f v q) g = sc q g. Proof. reflexivity. Qed.
Lemma lview_with_sp f q : lview (with_sp f q) = lview q. Proof. reflexivity. Qed.
Lemma lview_with_mm f q : lview (with_mm f q) = lview q. Proof. reflexivity. Qed.
Lemma lview_upd_reg f v q : lview (upd_reg f v q) = lview q. Proof. reflexivity. Qed.

Lemma sc_upd_vaddr f v q g : sc (upd_vaddr f v q) g = sc q g. Proof. reflexivity. Qed.
Lemma x_upd_vaddr f v q : ppu_x (upd_vaddr f v q) = ppu_x q. Proof. reflexivity. Qed.

Create Rewrite HintDb scrolls.
#[local] Hint Rewrite sc_upd_vaddr x_upd_vaddr lview_copy rg_upd_vaddr rg_with_sp rg_with_bg : scrolls.
#[local] Hint Rewrite x_with_bg x_with_sp x_with_mm x_upd_reg s_with_bg s_with_sp s_upd_reg
  flag_with_bg flag_with_sp sc_with_bg sc_with_sp sc_upd_reg
  lview_with_bg lview_with_sp lview_with_mm lview_upd_reg : scrolls.

Lemma phase0_scroll q :
  0 <= ppu_scanline q ->
  lview (phase0 q) = (if flag q ShowBG && (ppu_x q =? 256) then lcopy (sc q xcoarse) (sc q basenta_h) (lview q)
                      else lview q) /\
  scroll_frame q (phase0 q).
Proof.
  intros Hs. unfold phase0. cbv zeta.
  destruct (flag q ShowBG) eqn:Hb; destruct (Z.eqb_spec (ppu_x q) 256); cbn [andb];
    destruct (Z.eqb_spec (ppu_x q) 0); try (exfalso; lia).
  all: repeat (autorewrite with scrolls fields; rewrite ?Hb; cbn [negb andb];
          rewrite ?(proj2 (Z.eqb_neq (ppu_scanline q) (-1))) by lia; rewrite ?andb_false_r; case_match).
  all: autorewrite with scrolls fields; unfold scroll_frame; autorewrite with scrolls fields; repeat split.
  all: try (exfalso; autorewrite with scrolls fields in *; rewrite ?Hb in *; cbn [negb] in *;
            repeat match goal with H : (_ =? _) = _ |- _ => first [apply Z.eqb_eq in H | apply Z.eqb_neq in H] end;
            first [discriminate | lia]).
Qed.

Lemma phases_scroll q :
  (lview (phase1 q) = lview q /\ scroll_frame q (phase1 q)) /\
  (lview (phase5 q) = lview q /\ scroll_frame q (phase5 q)) /\
  (lview (phase7 q) = lview q /\ scroll_frame q (phase7 q)).
Proof.
  unfold phase1, phase5, phase7, scroll_frame. cbv zeta.
  split; [|split]; destruct_ifs; repeat split.
Qed.

Lemma phase3_scroll q :
  lview (phase3 q) =
    (if tile_decode_mode (ppu_x q)
     then (if ppu_x q =? 251 then lincr_y (lincr_x (lview q)) else lincr_x (lview q)) else lview q) /\
  scroll_frame q (phase3 q).
Proof.
  unfold phase3. cbv zeta. destruct (tile_decode_mode (ppu_x q)).
  - set (r := incr_xcoarse (with_bg _ q)).
    assert (Xr : ppu_x r = ppu_x q) by (unfold ppu_x; subst r; rewrite incr_xcoarse_tm; reflexivity).
    assert (Lr : lview r = lincr_x (lview q)) by (subst r; rewrite lview_incr_x; reflexivity).
    assert (Fr : scroll_frame q r) by (subst r; exact (proj1 (incr_scroll_frame _))).
    rewrite Xr. destruct (ppu_x q =? 251).
    + rewrite lview_incr_y, Lr. split; [reflexivity|].
      exact (scroll_frame_trans _ _ _ Fr (proj2 (incr_scroll_frame r))).
    + split; [exact Lr | exact Fr].
  - destruct (_ <? _); repeat split.
Qed.

(** The first switch on the scroll view, on a visible line. *)
Lemma fetch_phase_scroll q :
  0 <= ppu_scanline q ->
  lview (fetch_phase q) = lstep (flag q ShowBG) (sc q xcoarse) (sc q basenta_h) (ppu_x q) (lview q) /\
  scroll_frame q (fetch_phase q).
Proof.
  intros Hs. unfold fetch_phase, lstep.
  destruct (phases_scroll q) as (P1 & P5 & P7).
  assert (Hk : ppu_x q mod 8 = 0 \/ ppu_x q mod 8 = 1 \/ ppu_x q mod 8 = 2 \/ ppu_x q mod 8 = 3 \/
               ppu_x q mod 8 = 4 \/ ppu_x q mod 8 = 5 \/ ppu_x q mod 8 = 6 \/ ppu_x q mod 8 = 7)
    by (pose proof (Z.mod_pos_bound (ppu_x q) 8); lia).
  assert (N256 : ppu_x q mod 8 <> 0 -> (ppu_x q =? 256) = false)
    by (intros Hn; apply Z.eqb_neq; intros E; rewrite E in Hn; apply Hn; reflexivity).
  destruct Hk as [E|[E|[E|[E|[E|[E|[E|E]]]]]]]; rewrite E; cbn [Z.eqb Pos.eqb]; rewrite ?andb_false_r, ?andb_true_r;
    rewrite ?N256 by (rewrite E; discriminate); rewrite ?andb_false_r.
  - exact (phase0_scroll q Hs).
  - exact P1.
  - unfold phase2. cbv zeta. rewrite x_with_bg. destruct (tile_decode_mode (ppu_x q)); [repeat split|].
    match goal with |- context [phase0 ?r] => destruct (phase0_scroll r Hs) as [L F] end.
    rewrite L. autorewrite with scrolls. rewrite N256 by (rewrite E; discriminate). rewrite andb_false_r.
    split; [reflexivity | exact F].
  - exact (phase3_scroll q).
  - split; [reflexivity | apply scroll_frame_refl].
  - exact P5.
  - split; [reflexivity | apply scroll_frame_refl].
  - exact P7.
Qed.

Lemma lview_vaddr p q : q.(lt).(vaddr) = p.(lt).(vaddr) -> lview q = lview p.
Proof. intros E. unfold lview, va. rewrite E. reflexivity. Qed.

Lemma scroll_frame_flag p q f :
  scroll_frame p q -> f = ShowBG \/ f = ShowSP \/ f = ShowBGSP -> flag q f = flag p f.
Proof. unfold scroll_frame, flag. intros (_ & E1 & E2 & E3) [-> | [-> | ->]]; congruence. Qed.

Lemma scroll_frame_sc p q f : scroll_frame p q -> sc q f = sc p f.
Proof. unfold scroll_frame, sc. intros (E & _). rewrite E. reflexivity. Qed.

Section BeatScroll.
Context `{PixelOut}.

(** The stages after [graphics] leave the scroll view and frame alone. *)
Lemma beat_tail_scroll p :
  let g := graphics (decay_open_bus (vblank_service p)) in
  (beat p).(lt).(vaddr) = g.(lt).(vaddr) /\ scroll_frame g (beat p).
Proof.
  intros g. destruct (stages_scroll g) as (_ & [V1 F1] & _).
  destruct (stages_scroll (step_cycle_counter g)) as (_ & _ & [V2 F2] & _).
  unfold beat. destruct (mode_ p); [rewrite beat_ntsc_stages | rewrite beat_pal_stages]; fold g.
  - destruct (stages_scroll (sp0hit_hack (step_cycle_counter g))) as (_ & _ & _ & E3 & _). destruct (E3 261) as [V3 F3].
    destruct (stages_scroll (end_of_line 261 (sp0hit_hack (step_cycle_counter g)))) as (_ & _ & _ & _ & [V4 F4] & _).
    split; [congruence|].
    exact (scroll_frame_trans _ _ _ F1 (scroll_frame_trans _ _ _ F2 (scroll_frame_trans _ _ _ F3 F4))).
  - destruct (stages_scroll g) as (_ & _ & _ & E3 & _). destruct (E3 311) as [V3 F3].
    destruct (stages_scroll (end_of_line 311 g)) as (_ & _ & _ & _ & [V4 F4] & _).
    split; [congruence | exact (scroll_frame_trans _ _ _ F3 F4)].
Qed.

(** A beat of a visible line with rendering on is one step of [lstep]. *)
Lemma beat_scroll p :
  0 <= ppu_scanline p < 240 -> flag p ShowBGSP = true -> p.(tm).(VBlankState) = 0 ->
  lview (beat p) = lstep (flag p ShowBG) (sc p xcoarse) (sc p basenta_h) (ppu_x p) (lview p) /\
  scroll_frame p (beat p).
Proof.
  intros Hs Hf Hv.
  destruct (vblank_service_scroll p Hv) as [V1 F1]. destruct (stages_scroll (vblank_service p)) as ([V2 F2] & _).
  set (q := decay_open_bus (vblank_service p)) in *.
  assert (Tq : q.(tm) = p.(tm))
    by (subst q; rewrite (proj1 (decay_open_bus_tm _)), (proj1 (vblank_service_tm _)); unfold vblank_count; rewrite Hv; reflexivity).
  assert (Fq : scroll_frame p q) by exact (scroll_frame_trans _ _ _ F1 F2).
  assert (Lq : lview q = lview p) by (apply lview_vaddr; congruence).
  assert (Sq : ppu_scanline q = ppu_scanline p) by (unfold ppu_scanline; rewrite Tq; reflexivity).
  assert (Xq : ppu_x q = ppu_x p) by (unfold ppu_x; rewrite Tq; reflexivity).
  destruct (fetch_phase_scroll q ltac:(lia)) as [Lf Ff].
  destruct (stages_scroll (fetch_phase q)) as (_ & _ & _ & _ & _ & _ & [V3 F3]).
  set (r := sprite_eval (fetch_phase q)) in *.
  destruct (stages_scroll r) as (_ & _ & _ & _ & _ & [V4 F4] & _).
  assert (Eg : lview (graphics q) = lview r /\ scroll_frame r (graphics q)).
  { unfold graphics. destruct (Z.ltb_spec (ppu_scanline q) 240); [|lia].
    rewrite (scroll_frame_flag p q ShowBGSP Fq), Hf by auto. change (rendering_tick q) with r.
    destruct (_ && _); [split; [apply lview_vaddr; exact V4 | exact F4] | split; [reflexivity | apply scroll_frame_refl]]. }
  destruct Eg as [Lg Fg]. destruct (beat_tail_scroll p) as [Vt Ft]. fold q in Vt, Ft.
  rewrite (lview_vaddr _ _ Vt), Lg, (lview_vaddr _ _ V3), Lf, Lq, Xq,
    (scroll_frame_flag p q ShowBG Fq), (scroll_frame_sc p q xcoarse Fq), (scroll_frame_sc p q basenta_h Fq) by auto.
  split; [reflexivity|].
  exact (scroll_frame_trans _ _ _ Fq (scroll_frame_trans _ _ _ Ff (scroll_frame_trans _ _ _ F3 (scroll_frame_trans _ _ _ Fg Ft)))).
Qed.

(** On a visible line the beam moves right up to column 340. *)
Lemma beat_beam_line p :
  0 <= ppu_x p < 340 -> 0 <= ppu_scanline p -> p.(tm).(VBlankState) = 0 -> tick_wf p ->
  ppu_x (beat p) = ppu_x p + 1 /\ ppu_scanline (beat p) = ppu_scanline p /\ (beat p).(tm).(VBlankState) = 0.
Proof.
  intros Hx Hs Hv Hw. destruct (beat_tm p) as (b & Et & _ & Hb).
  assert (Hb0 : b = false) by (destruct b; [destruct (Hb eq_refl) as (_ & E & _); unfold ppu_scanline in Hs; lia | reflexivity]).
  subst b. unfold tick_wf, timing_wf in Hw. unfold ppu_x, ppu_scanline in *.
  destruct (timing_step_quiet (mode_ p) (tm p) Hv ltac:(lia)) as (Tx & Ts & Tv).
  rewrite Et. auto.
Qed.

(** Beats [x .. x+n-1] of a visible line refine [n] steps of [lstep]. *)
Lemma scroll_run n : forall p,
  0 <= ppu_x p -> ppu_x p + Z.of_nat n <= 341 -> 0 <= ppu_scanline p < 240 -> flag p ShowBGSP = true ->
  p.(tm).(VBlankState) = 0 -> tick_wf p ->
  lview (Nat.iter n beat p) = lrun (flag p ShowBG) (sc p xcoarse) (sc p basenta_h) (ppu_x p) n (lview p) /\
  scroll_frame p (Nat.iter n beat p).
Proof.
  induction n as [|n IH]; intros p Hx Hn Hs Hf Hv Hw; [split; [reflexivity | apply scroll_frame_refl]|].
  destruct (beat_scroll p Hs Hf Hv) as [L F]. rewrite Nat.iter_succ_r. cbn [lrun]. rewrite <- L.
  destruct n as [|n]; [split; [reflexivity | exact F]|].
  destruct (beat_beam_line p) as (Bx & Bs & Bv); [lia | lia | exact Hv | exact Hw |].
  destruct (iter_beat_wf p 1 Hw) as [W _].
  destruct (IH (beat p)) as [L' F']; [lia | lia | lia | rewrite (scroll_frame_flag p (beat p)) by auto; exact Hf
    | exact Bv | exact W |].
  rewrite (scroll_frame_flag p (beat p)), (scroll_frame_sc p (beat p) xcoarse), (scroll_frame_sc p (beat p) basenta_h), Bx
    in L' by auto.
  split; [exact L' | exact (scroll_frame_trans _ _ _ F F')].
Qed.

End BeatScroll.

(** ** The scroll over a rendered line *)

Lemma l_xc_range p : 0 <= l_xc (lview p) < 32.
Proof. exact (va_range xcoarse p). Qed.

Lemma sc_xcoarse_range p : 0 <= sc p xcoarse < 32.
Proof. exact (sc_range xcoarse p). Qed.

(** The outcome of the 341 steps of a line, read back on the object [q]
    they end in. *)
Lemma scroll_outcome p q :
  lview q = lrun true (sc p xcoarse) (sc p basenta_h) 0 341 (lview p) ->
  va q xcoarse = (sc p xcoarse + 2) mod 32 /\
  va q basenta_h = (if 30 <=? sc p xcoarse then 1 - sc p basenta_h else sc p basenta_h) /\
  va q yfine = (va p yfine + 1) mod 8 /\
  va q ycoarse = (if va p yfine =? 7 then (if va p ycoarse =? 29 then 0 else (va p ycoarse + 1) mod 32)
                  else va p ycoarse) /\
  va q basenta_v = (if (va p yfine =? 7) && (va p ycoarse =? 29) then 1 - va p basenta_v else va p basenta_v).
Proof.
  intros L. destruct (lrun_line_bg (sc p xcoarse) (sc p basenta_h) (lview p) (sc_xcoarse_range p)) as (E1 & E2 & E3 & E4 & E5).
  rewrite <- L in E1, E2, E3, E4, E5. exact (conj E1 (conj E2 (conj E3 (conj E4 E5)))).
Qed.

Lemma scroll_outcome_no_bg p q :
  lview q = lrun false (sc p xcoarse) (sc p basenta_h) 0 341 (lview p) ->
  va q xcoarse = (va p xcoarse + 2) mod 32 /\
  va q basenta_h = (if 30 <=? va p xcoarse then va p basenta_h else 1 - va p basenta_h).
Proof.
  intros L. destruct (lrun_line_no_bg (sc p xcoarse) (sc p basenta_h) (lview p) (l_xc_range p)) as (E1 & E2 & _).
  rewrite <- L in E1, E2. exact (conj E1 E2).
Qed.

Section Claims.
Context `{PixelOut}.

(** C16: the loopy scroll over a rendered line.  From column 0 of a
    visible line with the background shown, the 341 beats of the line
    leave in [vaddr] the horizontal position of the scroll latch advanced
    by the two tiles prefetched at columns 320..335 (coarse X plus 2
    modulo 32, the horizontal nametable switched on the wrap), and the
    vertical position one row further down (fine Y carried into coarse Y,
    which wraps at 30 switching the vertical nametable); the latch itself
    is unchanged. *)
Theorem scroll_line p :
  tick_wf p -> ppu_x p = 0 -> 0 <= ppu_scanline p < 240 -> flag p ShowBG = true -> p.(tm).(VBlankState) = 0 ->
  let q := Nat.iter 341 beat p in
  va q xcoarse = (sc p xcoarse + 2) mod 32 /\
  va q basenta_h = (if 30 <=? sc p xcoarse then 1 - sc p basenta_h else sc p basenta_h) /\
  va q yfine = (va p yfine + 1) mod 8 /\
  va q ycoarse = (if va p yfine =? 7 then (if va p ycoarse =? 29 then 0 else (va p ycoarse + 1) mod 32)
                  else va p ycoarse) /\
  va q basenta_v = (if (va p yfine =? 7) && (va p ycoarse =? 29) then 1 - va p basenta_v else va p basenta_v) /\
  q.(lt).(scroll) = p.(lt).(scroll).
Proof.
  intros Hw Hx Hs Hf Hv. cbv zeta.
  destruct (scroll_run 341 p) as [L (Es & _)]; [lia | lia | exact Hs | apply ShowBG_ShowBGSP, Hf | exact Hv | exact Hw |].
  rewrite Hx, Hf in L. destruct (scroll_outcome p _ L) as (E1 & E2 & E3 & E4 & E5).
  exact (conj E1 (conj E2 (conj E3 (conj E4 (conj E5 Es))))).
Qed.

(** C17: with sprites shown and the background hidden, the horizontal
    copy of [case 0] at column 256 is skipped (it sits behind
    [if(!reg.ShowBG) break;]) while the coarse-X increments of [case 3]
    still run: after the 341 beats of a visible line coarse X has moved
    two tiles on from where it started, instead of being reloaded from
    the scroll latch. *)
Theorem scroll_line_no_bg p :
  tick_wf p -> ppu_x p = 0 -> 0 <= ppu_scanline p < 240 -> flag p ShowBG = false -> flag p ShowSP = true ->
  p.(tm).(VBlankState) = 0 ->
  let q := Nat.iter 341 beat p in
  va q xcoarse = (va p xcoarse + 2) mod 32 /\
  va q basenta_h = (if 30 <=? va p xcoarse then va p basenta_h else 1 - va p basenta_h).
Proof.
  intros Hw Hx Hs Hf Hsp Hv. cbv zeta.
  destruct (scroll_run 341 p) as [L _]; [lia | lia | exact Hs | apply ShowSP_ShowBGSP, Hsp | exact Hv | exact Hw |].
  rewrite Hx, Hf in L. exact (scroll_outcome_no_bg p _ L).
Qed.

End Claims.

#[local] Instance host_colour_scroll : PixelOut := fun _ _ c _ => c.

(** Column 0 of scanline 10 after power-on with the register bit [bits]
    set, the scroll latch at coarse X 31 of the right nametable and
    [vaddr] at fine Y 7, coarse Y 29: every wrap of the line is taken. *)
Definition scroll_scenario (bits : regfield) : Ppu :=
  upd_vaddr ycoarse 29 (upd_vaddr yfine 7 (upd_vaddr xcoarse 5
    (upd_scroll basenta_h 1 (upd_scroll xcoarse 31 (upd_reg bits 1
      (with_tm (fun t => set_x 0 (set_scanline 10 t)) ppu_powered)))))).

Lemma scroll_scenario_facts bits :
  tick_wf (scroll_scenario bits) /\ ppu_x (scroll_scenario bits) = 0 /\
  0 <= ppu_scanline (scroll_scenario bits) < 240 /\ (scroll_scenario bits).(tm).(VBlankState) = 0.
Proof.
  assert (T : (scroll_scenario bits).(tm) = mkTiming 10 0 341 0 0 false 0 /\ (scroll_scenario bits).(mode_) = NTSC)
    by (split; reflexivity).
  unfold tick_wf, timing_wf, ppu_x, ppu_scanline. destruct T as [-> ->]. cbn. lia.
Qed.

Lemma scroll_line_witness :
  let p := scroll_scenario ShowBG in
  (tick_wf p /\ ppu_x p = 0 /\ 0 <= ppu_scanline p < 240 /\ flag p ShowBG = true /\ p.(tm).(VBlankState) = 0) /\
  let q := Nat.iter 341 beat p in
  va q xcoarse = (sc p xcoarse + 2) mod 32 /\
  va q basenta_h = (if 30 <=? sc p xcoarse then 1 - sc p basenta_h else sc p basenta_h) /\
  va q yfine = (va p yfine + 1) mod 8 /\
  va q ycoarse = (if va p yfine =? 7 then (if va p ycoarse =? 29 then 0 else (va p ycoarse + 1) mod 32)
                  else va p ycoarse) /\
  va q basenta_v = (if (va p yfine =? 7) && (va p ycoarse =? 29) then 1 - va p basenta_v else va p basenta_v) /\
  q.(lt).(scroll) = p.(lt).(scroll).
Proof.
  destruct (scroll_scenario_facts ShowBG) as (H1 & H2 & H3 & H5).
  assert (H4 : flag (scroll_scenario ShowBG) ShowBG = true) by (vm_compute; reflexivity).
  split; [exact (conj H1 (conj H2 (conj H3 (conj H4 H5))))|].
  exact (scroll_line (scroll_scenario ShowBG) H1 H2 H3 H4 H5).
Defined.

Lemma scroll_line_no_bg_witness :
  let p := scroll_scenario ShowSP in
  (tick_wf p /\ ppu_x p = 0 /\ 0 <= ppu_scanline p < 240 /\ flag p ShowBG = false /\ flag p ShowSP = true /\
   p.(tm).(VBlankState) = 0) /\
  let q := Nat.iter 341 beat p in
  va q xcoarse = (va p xcoarse + 2) mod 32 /\
  va q basenta_h = (if 30 <=? va p xcoarse then va p basenta_h else 1 - va p basenta_h).
Proof.
  destruct (scroll_scenario_facts ShowSP) as (H1 & H2 & H3 & H6).
  assert (H4 : flag (scroll_scenario ShowSP) ShowBG = false) by (vm_compute; reflexivity).
  assert (H5 : flag (scroll_scenario ShowSP) ShowSP = true) by (vm_compute; reflexivity).
  split; [exact (conj H1 (conj H2 (conj H3 (conj H4 (conj H5 H6)))))|].
  exact (scroll_line_no_bg (scroll_scenario ShowSP) H1 H2 H3 H4 H5 H6).
Defined.
